(** * Multi-atlas cardiac segmentation service: crop geometry, atlas store,
      registration stages and output compositing.

    Shallow embedding of [segmentation/cardiac/service.py].  Python integers
    are unbounded and become [Z]; dictionaries keyed by strings become
    [gmap string _]; exceptions become the [Raise] branch of [result]; the
    files written through [sitk.WriteImage] live in an explicit store that is
    threaded through the service.  Calls to [logger] are not modelled. *)

From Stdlib Require Import ZArith QArith Lia List Ascii String.
From stdpp Require Import base option list gmap strings.

Local Open Scope string_scope.
Local Open Scope Z_scope.

(** * Part I: the program *)

(** ** Exceptions and the service monad *)

Inductive Exception : Type :=
| KeyError (key : string)
| TypeError (what : string)
| RuntimeError (who : string).

Inductive result (A : Type) : Type :=
| Ok (a : A)
| Raise (e : Exception).
Arguments Ok {A} a.
Arguments Raise {A} e.

Definition result_bind {A B} (r : result A) (k : A -> result B) : result B :=
  match r with
  | Ok a => k a
  | Raise e => Raise e
  end.

Definition is_Ok {A} (r : result A) : bool :=
  match r with
  | Ok _ => true
  | Raise _ => false
  end.

#[global] Instance result_ret : MRet result := fun A a => Ok a.
#[global] Instance result_mbind : MBind result := fun A B k r => result_bind r k.
#[global] Instance result_fmap : FMap result := fun A B f r =>
  result_bind r (fun a => Ok (f a)).

(** [for x in xs: s = body(x, s)], stopping at the first exception. *)
Fixpoint for_each {A S} (xs : list A) (body : A -> S -> result S) (s : S)
  : result S :=
  match xs with
  | [] => Ok s
  | x :: xs' => s' ← body x s; for_each xs' body s'
  end.

(** ** Voxel indices and regions *)

(** A voxel index / an image size: one integer per axis, in the order
    sagittal, coronal, axial. *)
Definition Index : Type := (Z * Z * Z)%type.

Definition ix0 (i : Index) : Z := fst (fst i).
Definition ix1 (i : Index) : Z := snd (fst i).
Definition ix2 (i : Index) : Z := snd i.

Definition index_sub (i j : Index) : Index :=
  (ix0 i - ix0 j, ix1 i - ix1 j, ix2 i - ix2 j).

(** A region in voxel index space, as SimpleITK bounding boxes have it:
    entries 0..2 are the start index, entries 3..5 the size. *)
Record Box : Type := mkBox {
  box0 : Z; box1 : Z; box2 : Z;
  box3 : Z; box4 : Z; box5 : Z
}.

Definition box_index (b : Box) : Index := (box0 b, box1 b, box2 b).
Definition box_size (b : Box) : Index := (box3 b, box4 b, box5 b).

(** [in_region start size i]: index [i] lies in [start, start + size) on
    every axis. *)
Definition in_region (start size i : Index) : bool :=
  (ix0 start <=? ix0 i) && (ix0 i <? ix0 start + ix0 size) &&
  (ix1 start <=? ix1 i) && (ix1 i <? ix1 start + ix1 size) &&
  (ix2 start <=? ix2 i) && (ix2 i <? ix2 start + ix2 size).

(** [region_within start size bound]: the region is a sub-region of the
    largest possible region [0, bound). *)
Definition region_within (start size bound : Index) : bool :=
  (0 <=? ix0 start) && (0 <=? ix0 size) && (ix0 start + ix0 size <=? ix0 bound) &&
  (0 <=? ix1 start) && (0 <=? ix1 size) && (ix1 start + ix1 size <=? ix1 bound) &&
  (0 <=? ix2 start) && (0 <=? ix2 size) && (ix2 start + ix2 size <=? ix2 bound).

(** ** Crop geometry (Step 1 of [cardiac_service]) *)

(** [crop_box] is lines 180-188 of the service: the lung bounding box with
    the optional expansion, [max([a, 0])] and [min([a, b])] on integers. *)
Definition crop_box (lung_bounding_box : Box)
    (sagittal_expansion coronal_expansion axial_expansion : Z)
    (img_size : Index) : Box :=
  let sag0 := Z.max (box0 lung_bounding_box - sagittal_expansion) 0 in
  let cor0 := Z.max (box1 lung_bounding_box - coronal_expansion) 0 in
  let ax0 := Z.max (box2 lung_bounding_box - axial_expansion) 0 in
  let sag_d := Z.min (box3 lung_bounding_box + sagittal_expansion) (ix0 img_size - sag0) in
  let cor_d := Z.min (box4 lung_bounding_box + coronal_expansion) (ix1 img_size - cor0) in
  let ax_d := Z.min (box5 lung_bounding_box + axial_expansion) (ix2 img_size - ax0) in
  mkBox sag0 cor0 ax0 sag_d cor_d ax_d.

(** ** Volumes

    A volume is a voxel grid stored axis by axis ([voxels image] is the list
    of sagittal planes, each a list of coronal rows, each a list of voxels)
    together with its physical geometry.  Reading outside the grid is an
    error in SimpleITK; here [GetPixel] answers [None].  CT numbers, labels
    and masks are integer voxels ([Image Z]); probabilities and weights are
    rational voxels ([Image Q]). *)

Record Geometry : Type := mkGeometry {
  GetOrigin : Q * Q * Q;
  GetSpacing : Q * Q * Q;
  GetDirection : (Q * Q * Q) * (Q * Q * Q) * (Q * Q * Q)
}.

Record Image (A : Type) : Type := mkImage {
  GetGeometry : Geometry;
  voxels : list (list (list A))
}.
Arguments mkImage {A} _ _.
Arguments GetGeometry {A} _.
Arguments voxels {A} _.

Definition dims {A} (v : list (list (list A))) : Index :=
  (Z.of_nat (length v),
   Z.of_nat (length (hd [] v)),
   Z.of_nat (length (hd [] (hd [] v)))).

Definition GetSize {A} (image : Image A) : Index := dims (voxels image).

Definition get1 {A} (l : list A) (i : Z) : option A :=
  if decide (0 <= i) then l !! Z.to_nat i else None.

Definition lookup3 {A} (v : list (list (list A))) (i : Index) : option A :=
  plane ← get1 v (ix0 i); row ← get1 plane (ix1 i); get1 row (ix2 i).

Definition GetPixel {A} (image : Image A) (i : Index) : option A :=
  lookup3 (voxels image) i.

(** Every plane has the same number of rows and every row the same number
    of voxels. *)
Definition rectangular {A} (v : list (list (list A))) (n : Index) : Prop :=
  Z.of_nat (length v) = ix0 n /\
  Forall (fun plane => Z.of_nat (length plane) = ix1 n /\
            Forall (fun row => Z.of_nat (length row) = ix2 n) plane) v.

Definition well_formed {A} (image : Image A) : Prop :=
  rectangular (voxels image) (GetSize image).

(** The row lengths of a grid, and the size they stand for. *)
Definition shape {A} (v : list (list (list A))) : list (list nat) :=
  map (map length) v.

Definition shape_size (s : list (list nat)) : Index :=
  (Z.of_nat (length s), Z.of_nat (length (hd [] s)), Z.of_nat (hd O (hd [] s))).

Definition map_voxels {A B} (f : A -> B) (image : Image A) : Image B :=
  mkImage (GetGeometry image) (map (map (map f)) (voxels image)).

(** [image * c] for an integer constant.  The service multiplies by 0 only,
    and that product is 0 in every integer pixel type. *)
Definition Multiply (image : Image Z) (c : Z) : Image Z :=
  map_voxels (fun v => v * c) image.

(** [sitk.Cast(image, sitk.sitkUInt8)]: integer values wrap to 8 bits. *)
Definition Cast_sitkUInt8 (image : Image Z) : Image Z :=
  map_voxels (fun v => v mod 256) image.

(** The number of voxels of a mask that are set. *)
Definition voxel_count (mask : Image Z) : nat :=
  length (filter (fun v => v <> 0) (concat (concat (voxels mask)))).

(** *** Slicing *)

Definition slice1 {A} (start size : Z) (l : list A) : list A :=
  take (Z.to_nat size) (drop (Z.to_nat start) l).

Definition slice3 {A} (start size : Index) (v : list (list (list A)))
  : list (list (list A)) :=
  map (fun plane => map (slice1 (ix2 start) (ix2 size))
                        (slice1 (ix1 start) (ix1 size) plane))
      (slice1 (ix0 start) (ix0 size) v).

Definition scale3 (d : (Q * Q * Q) * (Q * Q * Q) * (Q * Q * Q)) (s : Q * Q * Q)
    (i : Index) : Q * Q * Q :=
  let row (r : Q * Q * Q) : Q :=
    (fst (fst r) * fst (fst s) * inject_Z (ix0 i)
     + snd (fst r) * snd (fst s) * inject_Z (ix1 i)
     + snd r * snd s * inject_Z (ix2 i))%Q in
  (row (fst (fst d)), row (snd (fst d)), row (snd d)).

(** The physical position of a voxel index. *)
Definition TransformIndexToPhysicalPoint (g : Geometry) (i : Index) : Q * Q * Q :=
  let o := GetOrigin g in
  let p := scale3 (GetDirection g) (GetSpacing g) i in
  ((fst (fst o) + fst (fst p))%Q, (snd (fst o) + snd (fst p))%Q, (snd o + snd p)%Q).

(** *** Pasting *)

(** [paste1 f off dst src] is [dst] with the elements from position [off] on
    combined through [f] with the elements of [src], as far as both reach. *)
Fixpoint paste1 {A} (f : A -> A -> A) (off : nat) (dst src : list A) : list A :=
  match dst with
  | [] => []
  | d :: dst' =>
      match off with
      | S k => d :: paste1 f k dst' src
      | O =>
          match src with
          | [] => d :: dst'
          | s :: src' => f d s :: paste1 f O dst' src'
          end
      end
  end.

(** A negative offset leaves the leading part of [src] outside [dst]. *)
Definition pasteZ {A} (f : A -> A -> A) (off : Z) (dst src : list A) : list A :=
  if decide (0 <= off) then paste1 f (Z.to_nat off) dst src
  else paste1 f O dst (drop (Z.to_nat (- off)) src).

Definition paste3 {A} (off : Index) (dst src : list (list (list A)))
  : list (list (list A)) :=
  pasteZ (pasteZ (pasteZ (fun _ s => s) (ix2 off)) (ix1 off)) (ix0 off) dst src.

(** [sitk.Paste(destinationImage, sourceImage, sourceSize, sourceIndex,
    destinationIndex)]: a new image with the destination's grid and geometry
    in which the source region replaces the voxels starting at
    [destinationIndex]; the part of the region that falls outside the
    destination is dropped.  A source region that is not inside the source
    image is an error.  The destination image itself is left as it is.
    Source and destination have one voxel type here; the error raised on
    images of different voxel types is not modelled. *)
Definition Paste {A} (destinationImage sourceImage : Image A)
    (sourceSize sourceIndex destinationIndex : Index) : result (Image A) :=
  if region_within sourceIndex sourceSize (GetSize sourceImage) then
    Ok (mkImage (GetGeometry destinationImage)
          (paste3 destinationIndex (voxels destinationImage)
             (slice3 sourceIndex sourceSize (voxels sourceImage))))
  else Raise (RuntimeError "Paste").

(** ** The atlas store

    [atlas_set] maps an atlas identifier to its record; a record maps a stage
    name (["Original"], ["RIR"], ["DIR"]) to the dictionary of that stage; a
    stage dictionary holds images, a transform and a weight map under string
    keys. *)

Definition Transform : Type := list Q.
Definition DisplacementField : Type := Image (Q * Q * Q).

Inductive Entry : Type :=
| EImage (image : Image Z)
| ETransform (tfm : Transform)
| EField (field : DisplacementField)
| EWeight (weight_map : Image Q).

Abbreviation Stage := (gmap string Entry).
Abbreviation AtlasRecord := (gmap string (gmap string Entry)).
Abbreviation AtlasSet := (gmap string (gmap string (gmap string Entry))).

(** [d[key]]: a missing key raises [KeyError]. *)
Definition getitem {V} (d : gmap string V) (key : string) : result V :=
  match d !! key with
  | Some v => Ok v
  | None => Raise (KeyError key)
  end.

(** An entry handed to a collaborator that expects an image. *)
Definition as_image (e : Entry) : result (Image Z) :=
  match e with
  | EImage image => Ok image
  | _ => Raise (TypeError "image")
  end.

(** [atlas_set[atlas_id][stage][key]]. *)
Definition get_entry (atlas_set : AtlasSet) (atlas_id stage key : string)
  : result Entry :=
  record ← getitem atlas_set atlas_id;
  stage_dict ← getitem record stage;
  getitem stage_dict key.

(** [atlas_set[atlas_id][stage] = value]. *)
Definition set_stage (atlas_set : AtlasSet) (atlas_id stage : string)
    (value : Stage) : result AtlasSet :=
  record ← getitem atlas_set atlas_id;
  mret (<[atlas_id := <[stage := value]> record]> atlas_set).

(** [atlas_set[atlas_id][stage][key] = value]. *)
Definition set_entry (atlas_set : AtlasSet) (atlas_id stage key : string)
    (value : Entry) : result AtlasSet :=
  record ← getitem atlas_set atlas_id;
  stage_dict ← getitem record stage;
  mret (<[atlas_id := <[stage := <[key := value]> stage_dict]> record]> atlas_set).

(** ** Files and the service monad

    The file store maps a path to the image stored there.  A computation of
    the service reads and writes the store and either returns or raises; what
    was written before an exception stays written. *)

Abbreviation Files := (gmap string (Image Z)).

Definition M (A : Type) : Type := Files -> Files * result A.

#[global] Instance M_ret : MRet M := fun A a fs => (fs, Ok a).
#[global] Instance M_bind : MBind M := fun A B k m fs =>
  match m fs with
  | (fs', Ok a) => k a fs'
  | (fs', Raise e) => (fs', Raise e)
  end.

Definition lift {A} (r : result A) : M A := fun fs => (fs, r).

(** [sitk.ReadImage(path)] for a single file. *)
Definition ReadImage (path : string) : M (Image Z) := fun fs =>
  (fs, match fs !! path with
       | Some image => Ok image
       | None => Raise (RuntimeError "ReadImage")
       end).

(** [sitk.WriteImage(image, path)], for a path that can be written: the
    directory of the path is taken to exist, and a write that fails is not
    modelled. *)
Definition WriteImage (image : Image Z) (path : string) : M unit := fun fs =>
  (<[path := image]> fs, Ok tt).

(** The same loop when the body reads or writes files. *)
Fixpoint for_each_M {A S} (xs : list A) (body : A -> S -> M S) (s : S) : M S :=
  match xs with
  | [] => mret s
  | x :: xs' => s' ← body x s; for_each_M xs' body s'
  end.

(** ** Settings and data objects *)

Inductive Interpolator : Type := sitkLinear | sitkBSpline.

Record RigidOptions : Type := {
  shrinkFactors : list Z;
  smoothSigmas : list Z;
  samplingRate : Q;
  finalInterp : Interpolator
}.

(** The settings dictionary, one field per leaf the service reads.
    [guideStructure] is [None] for [False]; [optimalThreshold] lists the items
    of the dictionary in its iteration order. *)
Record Settings : Type := {
  outputFormat : string;
  atlasIdList : list string;
  atlasStructures : list string;
  atlasPath : string;
  coronalExpansion : Z;
  axialExpansion : Z;
  sagittalExpansion : Z;
  lowerNormalisedThreshold : Q;
  upperNormalisedThreshold : Q;
  voxelCountThreshold : Q;
  initialReg : string;
  rigidOptions : RigidOptions;
  rigidTrace : bool;
  guideStructure : option string;
  resolutionStaging : list Z;
  iterationStaging : list Z;
  ncores : Z;
  deformableTrace : bool;
  referenceStructure : string;
  smoothDistanceMaps : bool;
  smoothSigma : Q;
  zScoreStatistic : string;
  outlierMethod : string;
  outlierFactor : Q;
  minBestAtlases : Z;
  optimalThreshold : list (string * Q);
  vesselNameList : list string;
  vesselRadius_mm : gmap string Q;
  spliningDirection : gmap string string;
  stopCondition : gmap string string;
  stopConditionValue : gmap string Z
}.

#[warnings="-register-all"]
Inductive DataObject : Type :=
| mkDataObject (type : string) (path : string) (parent : option DataObject).

Definition data_type (d : DataObject) : string :=
  match d with mkDataObject t _ _ => t end.
Definition data_path (d : DataObject) : string :=
  match d with mkDataObject _ p _ => p end.

(** Truth value of [guide_structure]: [False] and the empty string are
    false. *)
Definition truthy (guide_structure : option string) : option string :=
  match guide_structure with
  | Some "" => None
  | g => g
  end.

Fixpoint ends_with_slash (s : string) : bool :=
  match s with
  | EmptyString => false
  | String c EmptyString => Ascii.eqb c "/"%char
  | String _ s' => ends_with_slash s'
  end.

(** [os.path.join(a, b)] on POSIX paths. *)
Definition os_path_join (a b : string) : string :=
  if String.prefix "/" b then b
  else if String.eqb a "" || ends_with_slash a then a +:+ b
  else a +:+ "/" +:+ b.

(** ** Collaborators

    The functions the service imports from other modules of the package and
    Python built-ins whose result depends on the environment.  Each may
    raise. *)
Record Collaborators : Type := {
  GetGDCMSeriesFileNames : Files -> string -> list string;
  ReadImageSeries : Files -> list string -> result (Image Z);
  (** [fmt.format(name)] *)
  format : string -> string -> result string;
  (** [str(datetime.datetime.now())] *)
  now : string;
  AutoLungSegment : Image Z -> Q -> Q -> Q -> result (Box * Image Z);
  CropImage : Image Z -> Box -> result (Image Z);
  initial_registration :
    Image Z -> Image Z -> option (Image Z) -> RigidOptions -> bool -> string ->
    result (Image Z * Transform);
  transform_propagation :
    Image Z -> Image Z -> Transform -> bool -> Interpolator -> result (Image Z);
  fast_symmetric_forces_demons_registration :
    Image Z -> Image Z -> list Z -> list Z -> Z -> bool ->
    result (Image Z * DisplacementField);
  apply_field :
    Image Z -> DisplacementField -> bool -> Interpolator -> result (Image Z);
  compute_weight_map : Image Z -> Image Z -> result (Image Q);
  IAR :
    AtlasSet -> string -> bool -> Q -> string -> string -> Z -> Q -> string ->
    bool -> Z -> bool -> result AtlasSet;
  vesselSplineGeneration :
    AtlasSet -> list string -> gmap string Q -> gmap string string ->
    gmap string Z -> gmap string string -> result (gmap string (Image Z));
  combine_labels : AtlasSet -> list string -> result (gmap string (Image Q));
  process_probability_image : Image Q -> Q -> result (Image Z)
}.

(** ** The service, stage by stage *)

Section Service.
Context (C : Collaborators).
Variable settings : Settings.

(** Initialisation: read in the atlases (lines 139-153). *)
Definition read_atlas (atlas_id : string) (atlas_set : AtlasSet) : M AtlasSet :=
  let atlas_set := <[atlas_id := ∅]> atlas_set in
  atlas_set ← lift (set_stage atlas_set atlas_id "Original" ∅);
  ct ← ReadImage (atlasPath settings +:+ "/Case_" +:+ atlas_id
                    +:+ "/Images/Case_" +:+ atlas_id +:+ "_CROP.nii.gz");
  atlas_set ← lift (set_entry atlas_set atlas_id "Original" "CT Image" (EImage ct));
  for_each_M (atlasStructures settings)
    (fun struct atlas_set =>
       image ← ReadImage (atlasPath settings +:+ "/Case_" +:+ atlas_id
                            +:+ "/Structures/Case_" +:+ atlas_id +:+ "_" +:+ struct
                            +:+ "_CROP.nii.gz");
       lift (set_entry atlas_set atlas_id "Original" struct (EImage image)))
    atlas_set.

Definition read_atlases : M AtlasSet :=
  for_each_M (atlasIdList settings) read_atlas ∅.

(** Step 1: the crop box of the target from the lung bounding box
    (lines 172-188). *)
Definition target_crop_box (img : Image Z) : result (Box * Image Z) :=
  '(lung_bounding_box, lung_mask_original) ←
    AutoLungSegment C img (lowerNormalisedThreshold settings)
      (upperNormalisedThreshold settings) (voxelCountThreshold settings);
  mret (crop_box lung_bounding_box (sagittalExpansion settings)
          (coronalExpansion settings) (axialExpansion settings) (GetSize img),
        lung_mask_original).

(** Step 2: rigid registration of one atlas and propagation of its
    structures (the body of the loop at lines 210-239). *)
Definition rigid_propagate (img_crop : Image Z) (atlas_id : string)
    (initial_tfm : Transform) (struct : string) (atlas_set : AtlasSet)
  : result AtlasSet :=
  input_struct ← get_entry atlas_set atlas_id "Original" struct ≫= as_image;
  propagated ←
    transform_propagation C img_crop input_struct initial_tfm true sitkLinear;
  set_entry atlas_set atlas_id "RIR" struct (EImage propagated).

Definition rigid_register (img_crop : Image Z) (atlas_id : string)
    (atlas_set : AtlasSet) : result AtlasSet :=
  atlas_set ← set_stage atlas_set atlas_id "RIR" ∅;
  atlas_image ← get_entry atlas_set atlas_id "Original" "CT Image" ≫= as_image;
  atlas_struct ←
    match truthy (guideStructure settings) with
    | Some guide_structure =>
        Some <$> (get_entry atlas_set atlas_id "Original" guide_structure ≫= as_image)
    | None => Ok None
    end;
  '(rigid_image, initial_tfm) ←
    initial_registration C img_crop atlas_image atlas_struct (rigidOptions settings)
      (rigidTrace settings) (initialReg settings);
  atlas_set ← set_entry atlas_set atlas_id "RIR" "CT Image" (EImage rigid_image);
  atlas_set ← set_entry atlas_set atlas_id "RIR" "Transform" (ETransform initial_tfm);
  for_each (atlasStructures settings)
    (rigid_propagate img_crop atlas_id initial_tfm) atlas_set.

(** Step 3: deformable registration of one atlas (the body of the loop at
    lines 251-274). *)
Definition deformable_propagate (atlas_id : string)
    (deform_field : DisplacementField) (struct : string) (atlas_set : AtlasSet)
  : result AtlasSet :=
  input_struct ← get_entry atlas_set atlas_id "RIR" struct ≫= as_image;
  propagated ← apply_field C input_struct deform_field true sitkLinear;
  set_entry atlas_set atlas_id "DIR" struct (EImage propagated).

Definition deformable_register (img_crop : Image Z) (atlas_id : string)
    (atlas_set : AtlasSet) : result AtlasSet :=
  atlas_set ← set_stage atlas_set atlas_id "DIR" ∅;
  atlas_image ← get_entry atlas_set atlas_id "RIR" "CT Image" ≫= as_image;
  '(deform_image, deform_field) ←
    fast_symmetric_forces_demons_registration C img_crop atlas_image
      (resolutionStaging settings) (iterationStaging settings) (ncores settings)
      (deformableTrace settings);
  atlas_set ← set_entry atlas_set atlas_id "DIR" "CT Image" (EImage deform_image);
  atlas_set ← set_entry atlas_set atlas_id "DIR" "Transform" (EField deform_field);
  for_each (atlasStructures settings)
    (deformable_propagate atlas_id deform_field) atlas_set.

(** The registration stages over the whole atlas list: all atlases through
    the rigid stage, then all of them through the deformable stage. *)
Definition register_atlases (img_crop : Image Z) (atlas_set : AtlasSet)
  : result AtlasSet :=
  atlas_set ← for_each (atlasIdList settings) (rigid_register img_crop) atlas_set;
  for_each (atlasIdList settings) (deformable_register img_crop) atlas_set.

(** Step 4: weight maps (lines 283-286). *)
Definition weight_map_atlas (img_crop : Image Z) (atlas_id : string)
    (atlas_set : AtlasSet) : result AtlasSet :=
  atlas_image ← get_entry atlas_set atlas_id "DIR" "CT Image" ≫= as_image;
  weight_map ← compute_weight_map C img_crop atlas_image;
  set_entry atlas_set atlas_id "DIR" "Weight Map" (EWeight weight_map).

(** Step 6: one structure's mask pasted into the template and written
    (lines 351-361 and 365-375). *)
Definition write_structure (data_object : DataObject) (working_dir : string)
    (template_im : Image Z) (offset : Index) (structure_name : string)
    (binary_struct : Image Z) (output_objects : list DataObject)
  : M (list DataObject) :=
  paste_img ←
    lift (Paste template_im binary_struct (GetSize binary_struct) (0, 0, 0) offset);
  name ← lift (format C (outputFormat settings) structure_name);
  let mask_file := os_path_join working_dir name in
  _ ← WriteImage paste_img mask_file;
  mret (output_objects ++ [mkDataObject "FILE" mask_file (Some data_object)])%list.

Definition write_vote_structure (data_object : DataObject) (working_dir : string)
    (template_im : Image Z) (offset : Index)
    (combined_label_dict : gmap string (Image Q))
    (item : string * Q) (output_objects : list DataObject)
  : M (list DataObject) :=
  let '(structure_name, optimal_threshold) := item in
  binary_struct ←
    lift (probability ← getitem combined_label_dict structure_name;
          process_probability_image C probability optimal_threshold);
  write_structure data_object working_dir template_im offset structure_name
    binary_struct output_objects.

Definition write_vessel_structure (data_object : DataObject) (working_dir : string)
    (template_im : Image Z) (offset : Index)
    (segmented_vessel_dict : gmap string (Image Z))
    (structure_name : string) (output_objects : list DataObject)
  : M (list DataObject) :=
  binary_struct ← lift (getitem segmented_vessel_dict structure_name);
  write_structure data_object working_dir template_im offset structure_name
    binary_struct output_objects.

Definition write_outputs (data_object : DataObject) (working_dir : string)
    (img : Image Z) (offset : Index)
    (combined_label_dict : gmap string (Image Q))
    (segmented_vessel_dict : gmap string (Image Z))
    (output_objects : list DataObject) : M (list DataObject) :=
  let template_im := Cast_sitkUInt8 (Multiply img 0) in
  output_objects ←
    for_each_M (optimalThreshold settings)
      (write_vote_structure data_object working_dir template_im offset
         combined_label_dict)
      output_objects;
  for_each_M (vesselNameList settings)
    (write_vessel_structure data_object working_dir template_im offset
       segmented_vessel_dict)
    output_objects.

(** The body of the loop over the data objects (lines 102-375), in three
    parts: reading and cropping, the registration stages, and everything
    after them. *)
Definition prepare_target (data_object : DataObject)
  : M (Image Z * Box * Image Z * AtlasSet) :=
  img ←
    (if String.eqb (data_type data_object) "DICOM" then
       fun fs =>
         (fs, ReadImageSeries C fs
                (GetGDCMSeriesFileNames C fs (data_path data_object)))
     else ReadImage (data_path data_object));
  atlas_set ← read_atlases;
  '(crop, lung_mask_original) ← lift (target_crop_box img);
  img_crop ← lift (CropImage C img crop);
  lung_mask ← lift (CropImage C lung_mask_original crop);
  mret (img, crop, img_crop, atlas_set).

Definition finish_target (working_dir : string) (data_object : DataObject)
    (img : Image Z) (crop : Box) (img_crop : Image Z) (atlas_set : AtlasSet)
    (output_objects : list DataObject) : M (list DataObject) :=
  atlas_set ←
    lift (for_each (atlasIdList settings) (weight_map_atlas img_crop) atlas_set);
  atlas_set ←
    lift (IAR C atlas_set (referenceStructure settings)
            (smoothDistanceMaps settings) (smoothSigma settings)
            (zScoreStatistic settings) (outlierMethod settings)
            (minBestAtlases settings) (outlierFactor settings)
            ("IAR_" +:+ now C +:+ ".log") false 0 false);
  segmented_vessel_dict ←
    lift (vesselSplineGeneration C atlas_set (vesselNameList settings)
            (vesselRadius_mm settings) (stopCondition settings)
            (stopConditionValue settings) (spliningDirection settings));
  combined_label_dict ←
    lift (combine_labels C atlas_set (atlasStructures settings));
  write_outputs data_object working_dir img (box_index crop)
    combined_label_dict segmented_vessel_dict output_objects.

Definition segment_target (working_dir : string) (data_object : DataObject)
    (output_objects : list DataObject) : M (list DataObject) :=
  '(img, crop, img_crop, atlas_set) ← prepare_target data_object;
  atlas_set ← lift (register_atlases img_crop atlas_set);
  finish_target working_dir data_object img crop img_crop atlas_set
    output_objects.

(** [cardiac_service(data_objects, working_dir, settings)]. *)
Definition cardiac_service (data_objects : list DataObject) (working_dir : string)
  : M (list DataObject) :=
  for_each_M data_objects (segment_target working_dir) [].

(** What the registration stages leave in the store for one atlas: the
    transform of the stage, and under every configured structure the label
    volume of the stage before, propagated through that transform. *)
Definition rigid_done (img_crop : Image Z) (atlas_set : AtlasSet)
    (atlas_id : string) : Prop :=
  exists atlas_image atlas_struct rigid_image initial_tfm,
    initial_registration C img_crop atlas_image atlas_struct (rigidOptions settings)
      (rigidTrace settings) (initialReg settings) = Ok (rigid_image, initial_tfm) /\
    forall struct, struct ∈ atlasStructures settings ->
      exists original propagated,
        get_entry atlas_set atlas_id "Original" struct = Ok (EImage original) /\
        transform_propagation C img_crop original initial_tfm true sitkLinear
          = Ok propagated /\
        get_entry atlas_set atlas_id "RIR" struct = Ok (EImage propagated).

Definition deformable_done (img_crop : Image Z) (atlas_set : AtlasSet)
    (atlas_id : string) : Prop :=
  exists atlas_image deform_image deform_field,
    fast_symmetric_forces_demons_registration C img_crop atlas_image
      (resolutionStaging settings) (iterationStaging settings) (ncores settings)
      (deformableTrace settings) = Ok (deform_image, deform_field) /\
    forall struct, struct ∈ atlasStructures settings ->
      exists rigid propagated,
        get_entry atlas_set atlas_id "RIR" struct = Ok (EImage rigid) /\
        apply_field C rigid deform_field true sitkLinear = Ok propagated /\
        get_entry atlas_set atlas_id "DIR" struct = Ok (EImage propagated).
End Service.

(** ** Observations on a run *)

(** What the rigid loop leaves for one atlas, from the atlas set [before] the
    loop to the one [after] it: the transform is the one the rigid
    registration returned for the cropped target and the atlas's own
    [Original] image (with its guide structure, when one is configured); every
    configured structure of [Original] is stored under [RIR], propagated
    through that transform; the registered image and the transform are stored
    under [RIR] too, unless a structure takes their key. *)
Definition rigid_registered (C : Collaborators) (settings : Settings)
    (img_crop : Image Z) (before after : AtlasSet) (atlas_id : string) : Prop :=
  exists atlas_image atlas_struct rigid_image initial_tfm,
    get_entry before atlas_id "Original" "CT Image" = Ok (EImage atlas_image) /\
    match truthy (guideStructure settings) with
    | Some guide_structure =>
        exists guide,
          get_entry before atlas_id "Original" guide_structure = Ok (EImage guide) /\
          atlas_struct = Some guide
    | None => atlas_struct = None
    end /\
    initial_registration C img_crop atlas_image atlas_struct (rigidOptions settings)
      (rigidTrace settings) (initialReg settings) = Ok (rigid_image, initial_tfm) /\
    (forall struct, struct ∈ atlasStructures settings ->
       exists original propagated,
         get_entry before atlas_id "Original" struct = Ok (EImage original) /\
         transform_propagation C img_crop original initial_tfm true sitkLinear
           = Ok propagated /\
         get_entry after atlas_id "RIR" struct = Ok (EImage propagated)) /\
    ("CT Image" ∉ atlasStructures settings ->
     get_entry after atlas_id "RIR" "CT Image" = Ok (EImage rigid_image)) /\
    ("Transform" ∉ atlasStructures settings ->
     get_entry after atlas_id "RIR" "Transform" = Ok (ETransform initial_tfm)).

(** The same for the deformable loop, from the [RIR] stage to the [DIR]
    stage. *)
Definition deformable_registered (C : Collaborators) (settings : Settings)
    (img_crop : Image Z) (before after : AtlasSet) (atlas_id : string) : Prop :=
  exists atlas_image deform_image deform_field,
    get_entry before atlas_id "RIR" "CT Image" = Ok (EImage atlas_image) /\
    fast_symmetric_forces_demons_registration C img_crop atlas_image
      (resolutionStaging settings) (iterationStaging settings) (ncores settings)
      (deformableTrace settings) = Ok (deform_image, deform_field) /\
    (forall struct, struct ∈ atlasStructures settings ->
       exists rigid propagated,
         get_entry before atlas_id "RIR" struct = Ok (EImage rigid) /\
         apply_field C rigid deform_field true sitkLinear = Ok propagated /\
         get_entry after atlas_id "DIR" struct = Ok (EImage propagated)) /\
    ("CT Image" ∉ atlasStructures settings ->
     get_entry after atlas_id "DIR" "CT Image" = Ok (EImage deform_image)) /\
    ("Transform" ∉ atlasStructures settings ->
     get_entry after atlas_id "DIR" "Transform" = Ok (EField deform_field)).

(** A computation that leaves the file store as it is. *)
Definition reads_only {A} (m : M A) : Prop :=
  forall fs fs' r, m fs = (fs', r) -> fs' = fs.

(** What one step of the output loops writes under path [p]: the mask of one
    structure pasted on the zero template of the target, so that every voxel
    of the file is background or a voxel of that mask. *)
Definition composited (C : Collaborators) (settings : Settings)
    (working_dir : string) (img : Image Z) (offset : Index)
    (structure_name : string) (binary_struct : Image Z)
    (p : string) (paste_img : Image Z) : Prop :=
  (exists name, format C (outputFormat settings) structure_name = Ok name /\
                p = os_path_join working_dir name) /\
  Paste (Cast_sitkUInt8 (Multiply img 0)) binary_struct (GetSize binary_struct)
    (0, 0, 0) offset = Ok paste_img /\
  forall i v, GetPixel paste_img i = Some v ->
    v = 0 \/ GetPixel binary_struct (index_sub i offset) = Some v.

(** An atlas has a stage; a stage holds an image under a key. *)
Definition has_stage (atlas_set : AtlasSet) (atlas_id stage : string) : Prop :=
  exists record stage_dict,
    atlas_set !! atlas_id = Some record /\ record !! stage = Some stage_dict.

Definition holds_image (atlas_set : AtlasSet) (atlas_id stage key : string) : Prop :=
  exists image, get_entry atlas_set atlas_id stage key = Ok (EImage image).

(** What the registration of an atlas reads from its [Original] stage. *)
Definition original_complete (settings : Settings) (s : AtlasSet) (a : string)
  : Prop :=
  holds_image s a "Original" "CT Image" /\
  (forall struct, struct ∈ atlasStructures settings ->
     holds_image s a "Original" struct) /\
  (forall guide_structure, truthy (guideStructure settings) = Some guide_structure ->
     holds_image s a "Original" guide_structure).

(** What the deformable registration of an atlas reads from its [RIR]
    stage. *)
Definition rigid_complete (settings : Settings) (s : AtlasSet) (a : string)
  : Prop :=
  holds_image s a "RIR" "CT Image" /\
  (forall struct, struct ∈ atlasStructures settings -> holds_image s a "RIR" struct).

(** The checks behind [holds_image] and [original_complete]. *)
Definition holds_image_b (atlas_set : AtlasSet) (atlas_id stage key : string) : bool :=
  match get_entry atlas_set atlas_id stage key with
  | Ok (EImage _) => true
  | _ => false
  end.

Definition original_complete_b (settings : Settings) (atlas_set : AtlasSet)
    (atlas_id : string) : bool :=
  holds_image_b atlas_set atlas_id "Original" "CT Image" &&
  forallb (holds_image_b atlas_set atlas_id "Original") (atlasStructures settings) &&
  match truthy (guideStructure settings) with
  | Some guide_structure => holds_image_b atlas_set atlas_id "Original" guide_structure
  | None => true
  end.

(** The output object of a structure. *)
Definition output_of (C : Collaborators) (settings : Settings)
    (data_object : DataObject) (working_dir : string)
    (structure_name : string) (object : DataObject) : Prop :=
  exists name, format C (outputFormat settings) structure_name = Ok name /\
    object = mkDataObject "FILE" (os_path_join working_dir name) (Some data_object).

(** The files of an atlas: its image (line 145) and one label volume per
    structure (lines 150-152). *)
Definition atlas_image_file (settings : Settings) (atlas_id : string) : string :=
  atlasPath settings +:+ "/Case_" +:+ atlas_id
    +:+ "/Images/Case_" +:+ atlas_id +:+ "_CROP.nii.gz".

Definition atlas_structure_file (settings : Settings) (atlas_id struct : string)
  : string :=
  atlasPath settings +:+ "/Case_" +:+ atlas_id
    +:+ "/Structures/Case_" +:+ atlas_id +:+ "_" +:+ struct +:+ "_CROP.nii.gz".

(** Every file of an atlas is in the store. *)
Definition atlas_files_present (settings : Settings) (fs : Files) (atlas_id : string)
  : Prop :=
  is_Some (fs !! atlas_image_file settings atlas_id) /\
  forall struct, struct ∈ atlasStructures settings ->
    is_Some (fs !! atlas_structure_file settings atlas_id struct).

(** The check behind [atlas_files_present]. *)
Definition atlas_files_present_b (settings : Settings) (fs : Files)
    (atlas_id : string) : bool :=
  bool_decide (is_Some (fs !! atlas_image_file settings atlas_id)) &&
  forallb
    (fun struct =>
       bool_decide (is_Some (fs !! atlas_structure_file settings atlas_id struct)))
    (atlasStructures settings).

(** The record of an atlas holds what was read from its files and nothing
    else. *)
Definition read_from_files (settings : Settings) (fs : Files) (s : AtlasSet)
    (a : string) : Prop :=
  (exists ct, fs !! atlas_image_file settings a = Some ct /\
     ("CT Image" ∉ atlasStructures settings ->
      get_entry s a "Original" "CT Image" = Ok (EImage ct))) /\
  (forall struct, struct ∈ atlasStructures settings ->
     exists image, fs !! atlas_structure_file settings a struct = Some image /\
       get_entry s a "Original" struct = Ok (EImage image)) /\
  (forall st k, st <> "Original" -> get_entry s a st k = Raise (KeyError st)) /\
  (forall k, k <> "CT Image" -> k ∉ atlasStructures settings ->
     get_entry s a "Original" k = Raise (KeyError k)).

(** A computation that changes the file store under the paths [P] only,
    whether it returns or raises. *)
Definition writes_only {A} (P : string -> Prop) (m : M A) : Prop :=
  forall fs p, ~ P p -> fst (m fs) !! p = fs !! p.

(** Every listed data object is a [FILE] object whose file is in the store. *)
Definition objects_on_file (fs : Files) (objects : list DataObject) : Prop :=
  forall object, object ∈ objects ->
    data_type object = "FILE" /\ is_Some (fs !! data_path object).

(** What the rigid loop does with the image of an atlas: the image of the
    [Original] stage (and the guide structure, when one is configured) goes
    into the rigid registration, whose image and transform are stored under
    [RIR]. *)
Definition rigid_images (C : Collaborators) (settings : Settings)
    (img_crop : Image Z) (before after : AtlasSet) (atlas_id : string) : Prop :=
  exists original atlas_struct rigid_image initial_tfm,
    get_entry before atlas_id "Original" "CT Image" = Ok (EImage original) /\
    match truthy (guideStructure settings) with
    | Some guide_structure =>
        exists guide,
          get_entry before atlas_id "Original" guide_structure = Ok (EImage guide) /\
          atlas_struct = Some guide
    | None => atlas_struct = None
    end /\
    initial_registration C img_crop original atlas_struct (rigidOptions settings)
      (rigidTrace settings) (initialReg settings) = Ok (rigid_image, initial_tfm) /\
    get_entry after atlas_id "RIR" "CT Image" = Ok (EImage rigid_image) /\
    get_entry after atlas_id "RIR" "Transform" = Ok (ETransform initial_tfm).

(** What the deformable loop does with it: the image of the [RIR] stage goes
    into the deformable registration, whose image and field are stored under
    [DIR]. *)
Definition deformable_images (C : Collaborators) (settings : Settings)
    (img_crop : Image Z) (before after : AtlasSet) (atlas_id : string) : Prop :=
  exists rigid_image deform_image deform_field,
    get_entry before atlas_id "RIR" "CT Image" = Ok (EImage rigid_image) /\
    fast_symmetric_forces_demons_registration C img_crop rigid_image
      (resolutionStaging settings) (iterationStaging settings) (ncores settings)
      (deformableTrace settings) = Ok (deform_image, deform_field) /\
    get_entry after atlas_id "DIR" "CT Image" = Ok (EImage deform_image) /\
    get_entry after atlas_id "DIR" "Transform" = Ok (EField deform_field).

(** The default settings of the service ([CARDIAC_SETTINGS_DEFAULTS]); the
    atlas path is read from the environment. *)
Definition CARDIAC_SETTINGS_DEFAULTS (ATLAS_PATH : string) : Settings := {|
  outputFormat := "Auto_{0}.nii.gz";
  atlasIdList := ["08"; "11"; "12"; "13"; "14"];
  atlasStructures := ["WHOLEHEART"; "LANTDESCARTERY"];
  atlasPath := ATLAS_PATH;
  coronalExpansion := 15;
  axialExpansion := 5;
  sagittalExpansion := 0;
  lowerNormalisedThreshold := (-1 # 10)%Q;
  upperNormalisedThreshold := (4 # 10)%Q;
  voxelCountThreshold := 50000%Q;
  initialReg := "Affine";
  rigidOptions := {|
    shrinkFactors := [8; 4; 2; 1];
    smoothSigmas := [8; 4; 1; 0];
    samplingRate := (1 # 4)%Q;
    finalInterp := sitkBSpline |};
  rigidTrace := true;
  guideStructure := None;
  resolutionStaging := [16; 4; 2; 1];
  iterationStaging := [20; 10; 10; 10];
  ncores := 8;
  deformableTrace := true;
  referenceStructure := "WHOLEHEART";
  smoothDistanceMaps := true;
  smoothSigma := 1%Q;
  zScoreStatistic := "MAD";
  outlierMethod := "IQR";
  outlierFactor := (3 # 2)%Q;
  minBestAtlases := 4;
  optimalThreshold := [("WHOLEHEART", (44 # 100)%Q)];
  vesselNameList := ["LANTDESCARTERY"];
  vesselRadius_mm := {["LANTDESCARTERY" := (22 # 10)%Q]};
  spliningDirection := {["LANTDESCARTERY" := "z"]};
  stopCondition := {["LANTDESCARTERY" := "count"]};
  stopConditionValue := {["LANTDESCARTERY" := 1]}
|}.

(** ** Collaborators that are part of the package but not of the sources *)

Module SpecModel.

(** Modelled from the spec: [CropImage] of the package's cardiac module,
    which is not among the sources.  The specification gives it as
    "cropVolume(volume, box) -> volume -- pure index-space slice": the voxels
    whose index lies in the box, on the same voxel grid (spacing and direction
    kept, origin at the position of the box's start index), no
    interpolation. *)
Definition CropImage {A} (image : Image A) (cropBox : Box) : Image A :=
  mkImage
    (mkGeometry
       (TransformIndexToPhysicalPoint (GetGeometry image) (box_index cropBox))
       (GetSpacing (GetGeometry image))
       (GetDirection (GetGeometry image)))
    (slice3 (box_index cropBox) (box_size cropBox) (voxels image)).

(** Modelled from the spec: [process_probability_image] of the package's
    atlas label module, which is not among the sources.  The specification
    gives it as "threshold the probability volume at a per-structure
    configured cutoff in [0,1] to produce a binary mask": a voxel is set when
    its probability reaches the cutoff.  Probabilities are rationals; the
    comparison is the only operation on them. *)
Definition process_probability_image (probability_image : Image Q) (threshold : Q)
  : Image Z :=
  map_voxels (fun p => if Qle_bool threshold p then 1 else 0) probability_image.

(** The configuration of the outlier rejection engine (section 4.4 of the
    specification). *)
Record IARConfig : Type := {
  structure_name : string;
  z_score : string;
  outlier_method : string;
  n_factor : Q;
  min_best_atlases : Z;
  iteration_cap : nat
}.

Section IterativeAtlasRemoval.
(** Steps (a)-(d) of one iteration: the distance maps of the reference
    structure, the score of each atlas, its robust z-score and the outlier
    bound.  Their result is the list of the worst offending atlases of the
    current set; the specification leaves the statistics open. *)
Variable outliers : IARConfig -> AtlasSet -> list string.
Variable config : IARConfig.

(** Deleting an atlas removes its entire record. *)
Definition remove_atlases (ids : list string) (atlas_set : AtlasSet) : AtlasSet :=
  foldr delete atlas_set ids.

Definition flagged (atlas_set : AtlasSet) : list string :=
  filter (fun atlas_id => is_Some (atlas_set !! atlas_id)) (outliers config atlas_set).

(** Steps (e) and (f): remove the flagged atlases and repeat, unless none is
    flagged, the floor would be violated or the iteration cap is reached.
    The log records what each iteration removed. *)
Fixpoint iterate (cap iteration : nat) (atlas_set : AtlasSet)
    (log : list (nat * list string)) : AtlasSet * list (nat * list string) :=
  match cap with
  | O => (atlas_set, log)
  | S cap' =>
      match flagged atlas_set with
      | [] => (atlas_set, log)
      | worst =>
          let remaining := remove_atlases worst atlas_set in
          if decide (min_best_atlases config <= Z.of_nat (size remaining)) then
            iterate cap' (S iteration) remaining (log ++ [(iteration, worst)])%list
          else (atlas_set, log)
      end
  end.

(** Modelled from the spec: [IAR], the iterative atlas removal of the
    package's atlas module, which is not among the sources.  Section 4.4 of
    the specification gives the iteration; section 7 (d) makes an atlas set
    that is below the floor before any rejection a fatal error. *)
Definition IAR (atlas_set : AtlasSet)
  : result (AtlasSet * list (nat * list string)) :=
  if decide (Z.of_nat (size atlas_set) < min_best_atlases config) then
    Raise (RuntimeError "IAR: fewer atlases than min_best_atlases")
  else Ok (iterate (iteration_cap config) O atlas_set []).
End IterativeAtlasRemoval.

End SpecModel.

(** ** A small run of the service

    A 6 x 6 x 4 target, the default settings, and stand-ins for the
    collaborators: registration that keeps the fixed grid, labels that cover
    the cropped target, and an outlier rejection that flags nothing. *)

Module Sample.

Definition unit_geometry : Geometry :=
  mkGeometry (0, 0, 0)%Q (1, 1, 1)%Q ((1, 0, 0), (0, 1, 0), (0, 0, 1))%Q.

Definition constant_image {A} (nx ny nz : nat) (v : A) : Image A :=
  mkImage unit_geometry (replicate nx (replicate ny (replicate nz v))).

(** [fmt.format(name)] for a template whose only fields are [{0}]. *)
Fixpoint substitute0 (fmt name : string) : string :=
  match fmt with
  | String "{" (String "0" (String "}" rest)) => name +:+ substitute0 rest name
  | String c rest => String c (substitute0 rest name)
  | EmptyString => EmptyString
  end.

Definition first_deformed_image (atlas_set : AtlasSet) : result (Image Z) :=
  match map_to_list atlas_set with
  | (atlas_id, _) :: _ => get_entry atlas_set atlas_id "DIR" "CT Image" ≫= as_image
  | [] => Raise (RuntimeError "empty atlas set")
  end.

Definition no_outliers (config : SpecModel.IARConfig) (atlas_set : AtlasSet)
  : list string := [].

(** The stand-ins; [lung_box] is what the organ detector answers. *)
Definition collaborators (lung_box : Box) : Collaborators := {|
  GetGDCMSeriesFileNames := fun fs path => [path];
  ReadImageSeries := fun fs paths =>
    match paths with
    | [path] =>
        match fs !! path with
        | Some image => Ok image
        | None => Raise (RuntimeError "ReadImage")
        end
    | _ => Raise (RuntimeError "ReadImage")
    end;
  format := fun fmt name => Ok (substitute0 fmt name);
  now := "2020-01-01 00:00:00";
  AutoLungSegment := fun img l u NPthresh =>
    Ok (lung_box, map_voxels (fun _ => 1) img);
  CropImage := fun image cropBox => Ok (SpecModel.CropImage image cropBox);
  initial_registration := fun fixed moving moving_structure options trace reg_method =>
    match voxels moving with
    | [] => Raise (RuntimeError "initial_registration")
    | _ => Ok (fixed, [1%Q])
    end;
  transform_propagation := fun fixed moving tfm structure interp =>
    Ok (map_voxels (fun _ => 1) fixed);
  fast_symmetric_forces_demons_registration :=
    fun fixed moving resolution_staging iteration_staging ncores trace =>
      Ok (moving, map_voxels (fun _ => (0, 0, 0)%Q) fixed);
  apply_field := fun image field structure interp => Ok image;
  compute_weight_map := fun fixed atlas_image =>
    Ok (map_voxels (fun _ => 1%Q) fixed);
  IAR := fun atlas_set structure_name smooth_maps smooth_sigma z_score
             outlier_method min_best_atlases n_factor log_file debug iteration
             single_step =>
    fst <$> SpecModel.IAR no_outliers
      {| SpecModel.structure_name := structure_name;
         SpecModel.z_score := z_score;
         SpecModel.outlier_method := outlier_method;
         SpecModel.n_factor := n_factor;
         SpecModel.min_best_atlases := min_best_atlases;
         SpecModel.iteration_cap := 10 |}
      atlas_set;
  vesselSplineGeneration :=
    fun atlas_set vessel_name_list radius stop_type stop_value direction =>
      image ← first_deformed_image atlas_set;
      Ok (list_to_map
            (map (fun name => (name, map_voxels (fun _ => 1) image))
               vessel_name_list));
  combine_labels := fun atlas_set structures =>
    image ← first_deformed_image atlas_set;
    Ok (list_to_map
          (map (fun name => (name, map_voxels (fun _ => (1 # 2)%Q) image))
             structures));
  process_probability_image := fun probability_image threshold =>
    Ok (SpecModel.process_probability_image probability_image threshold)
|}.

(** The same stand-ins with a rigid registration that answers on every
    image. *)
Definition steady_collaborators (lung_box : Box) : Collaborators :=
  let C := collaborators lung_box in {|
  GetGDCMSeriesFileNames := GetGDCMSeriesFileNames C;
  ReadImageSeries := ReadImageSeries C;
  format := format C;
  now := now C;
  AutoLungSegment := AutoLungSegment C;
  CropImage := CropImage C;
  initial_registration := fun fixed moving moving_structure options trace reg_method =>
    Ok (fixed, [1%Q]);
  transform_propagation := transform_propagation C;
  fast_symmetric_forces_demons_registration :=
    fast_symmetric_forces_demons_registration C;
  apply_field := apply_field C;
  compute_weight_map := compute_weight_map C;
  IAR := IAR C;
  vesselSplineGeneration := vesselSplineGeneration C;
  combine_labels := combine_labels C;
  process_probability_image := process_probability_image C
|}.

Definition settings : Settings := CARDIAC_SETTINGS_DEFAULTS "/atlas".

Definition target : DataObject := mkDataObject "FILE" "/data/ct.nii.gz" None.

Definition atlas_files (atlas_id : string) (ct : Image Z) : list (string * Image Z) :=
  [("/atlas/Case_" +:+ atlas_id +:+ "/Images/Case_" +:+ atlas_id +:+ "_CROP.nii.gz", ct);
   ("/atlas/Case_" +:+ atlas_id +:+ "/Structures/Case_" +:+ atlas_id
      +:+ "_WHOLEHEART_CROP.nii.gz", constant_image 2 2 2 1);
   ("/atlas/Case_" +:+ atlas_id +:+ "/Structures/Case_" +:+ atlas_id
      +:+ "_LANTDESCARTERY_CROP.nii.gz", constant_image 2 2 2 1)].

(** The files of a run: the target and the five atlases; [ct11] is the image
    of atlas 11. *)
Definition files (ct11 : Image Z) : Files :=
  list_to_map
    (("/data/ct.nii.gz", constant_image 6 6 4 7)
     :: atlas_files "08" (constant_image 2 2 2 5)
     ++ atlas_files "11" ct11
     ++ atlas_files "12" (constant_image 2 2 2 5)
     ++ atlas_files "13" (constant_image 2 2 2 5)
     ++ atlas_files "14" (constant_image 2 2 2 5))%list.

(** The target of the sample run, what the organ detector answers in it,
    and the crop that follows from it. *)
Definition img : Image Z := constant_image 6 6 4 7.
Definition lung_box : Box := mkBox 2 2 1 2 2 2.
Definition crop : Box := crop_box lung_box 0 15 5 (GetSize img).
Definition img_crop : Image Z := SpecModel.CropImage img crop.

Definition unwrap (r : result AtlasSet) : AtlasSet :=
  match r with
  | Ok atlas_set => atlas_set
  | Raise _ => ∅
  end.

(** The atlas set as [read_atlases] leaves it. *)
Definition atlas_set (fs : Files) : AtlasSet :=
  unwrap (snd (read_atlases settings fs)).

(** An outlier rejection that flags atlas 11 in every iteration. *)
Definition flag_11 (config : SpecModel.IARConfig) (atlas_set : AtlasSet)
  : list string := ["11"].

Definition floor_of_five : SpecModel.IARConfig := {|
  SpecModel.structure_name := "WHOLEHEART";
  SpecModel.z_score := "MAD";
  SpecModel.outlier_method := "IQR";
  SpecModel.n_factor := (3 # 2)%Q;
  SpecModel.min_best_atlases := 5;
  SpecModel.iteration_cap := 10 |}.

(** A mask in the space of the cropped target. *)
Definition mask : Image Z := map_voxels (fun _ => 1) img_crop.

(** An atlas image the rigid registration fails on. *)
Definition unreadable_atlas : Image Z := mkImage unit_geometry [].

(** The default settings with a guide structure. *)
Definition guided_settings (guide_structure : string) : Settings := {|
  outputFormat := outputFormat settings;
  atlasIdList := atlasIdList settings;
  atlasStructures := atlasStructures settings;
  atlasPath := atlasPath settings;
  coronalExpansion := coronalExpansion settings;
  axialExpansion := axialExpansion settings;
  sagittalExpansion := sagittalExpansion settings;
  lowerNormalisedThreshold := lowerNormalisedThreshold settings;
  upperNormalisedThreshold := upperNormalisedThreshold settings;
  voxelCountThreshold := voxelCountThreshold settings;
  initialReg := initialReg settings;
  rigidOptions := rigidOptions settings;
  rigidTrace := rigidTrace settings;
  guideStructure := Some guide_structure;
  resolutionStaging := resolutionStaging settings;
  iterationStaging := iterationStaging settings;
  ncores := ncores settings;
  deformableTrace := deformableTrace settings;
  referenceStructure := referenceStructure settings;
  smoothDistanceMaps := smoothDistanceMaps settings;
  smoothSigma := smoothSigma settings;
  zScoreStatistic := zScoreStatistic settings;
  outlierMethod := outlierMethod settings;
  outlierFactor := outlierFactor settings;
  minBestAtlases := minBestAtlases settings;
  optimalThreshold := optimalThreshold settings;
  vesselNameList := vesselNameList settings;
  vesselRadius_mm := vesselRadius_mm settings;
  spliningDirection := spliningDirection settings;
  stopCondition := stopCondition settings;
  stopConditionValue := stopConditionValue settings
|}.

(** The output objects of a run on [target]. *)
Definition outputs : list DataObject :=
  [mkDataObject "FILE" "/out/Auto_WHOLEHEART.nii.gz" (Some target);
   mkDataObject "FILE" "/out/Auto_LANTDESCARTERY.nii.gz" (Some target)].

End Sample.

(** * Part II: properties *)

(** ** Crop geometry *)

Section CropGeometry.
Variables (bb : Box) (es ec ea : Z) (size : Index).

(** C8. The crop box lies within the volume on each axis: its start index
    is nonnegative and start plus size does not exceed the image size, for
    every bounding box, every margin and every image size. *)
Theorem crop_box_within_volume :
  let c := crop_box bb es ec ea size in
  (0 <= box0 c /\ box0 c + box3 c <= ix0 size) /\
  (0 <= box1 c /\ box1 c + box4 c <= ix1 size) /\
  (0 <= box2 c /\ box2 c + box5 c <= ix2 size).
Proof.
  cbn [crop_box box0 box1 box2 box3 box4 box5].
  repeat split; lia.
Qed.

(** The low side of the crop box does carry the margin. *)
Lemma crop_box_low_side :
  let c := crop_box bb es ec ea size in
  (0 <= box0 bb - es -> box0 c = box0 bb - es) /\
  (0 <= box1 bb - ec -> box1 c = box1 bb - ec) /\
  (0 <= box2 bb - ea -> box2 c = box2 bb - ea).
Proof.
  cbn [crop_box box0 box1 box2 box3 box4 box5].
  repeat split; lia.
Qed.

(** The high side: once the start index has moved down by the margin, the
    size grows by the same margin only, so the crop ends where the detected
    region ends (or at the volume's end). *)
Lemma crop_box_high_side :
  let c := crop_box bb es ec ea size in
  (0 <= box0 bb - es -> box0 c + box3 c = Z.min (box0 bb + box3 bb) (ix0 size)) /\
  (0 <= box1 bb - ec -> box1 c + box4 c = Z.min (box1 bb + box4 bb) (ix1 size)) /\
  (0 <= box2 bb - ea -> box2 c + box5 c = Z.min (box2 bb + box5 bb) (ix2 size)).
Proof.
  cbn [crop_box box0 box1 box2 box3 box4 box5].
  repeat split; lia.
Qed.
End CropGeometry.

(** The scenario of the specification: a box well inside a 200 x 200 x 100
    volume with zero margins is returned as it is. *)
Example crop_box_scenario :
  crop_box (mkBox 10 10 5 100 100 60) 0 0 0 (200, 200, 100)
  = mkBox 10 10 5 100 100 60.
Proof. reflexivity. Qed.

(** C1. On a 512 x 512 x 100 volume with the default margins (sagittal 0,
    coronal 15, axial 5) and the detected region (100,100,20)+(200,150,60),
    the crop box ends at coronal index 250 and axial index 80, the ends of
    the detected region itself, although the region expanded by the margins
    ends at 265 and 85, both inside the volume. *)
Theorem crop_box_drops_high_margin :
  let bb := mkBox 100 100 20 200 150 60 in
  let c := crop_box bb 0 15 5 (512, 512, 100) in
  c = mkBox 100 85 15 200 165 65 /\
  box1 bb + box4 bb + 15 <= 512 /\ box1 c + box4 c < box1 bb + box4 bb + 15 /\
  box2 bb + box5 bb + 5 <= 100 /\ box2 c + box5 c < box2 bb + box5 bb + 5.
Proof. cbn. repeat split; lia. Qed.

(** ** Grids: pasting, slicing and their lookups *)

Lemma paste1_lookup {A} (f : A -> A -> A) (off : nat) (dst src : list A) (i : nat) :
  paste1 f off dst src !! i =
  (fun d => if decide (off <= i)%nat then from_option (f d) d (src !! (i - off)%nat) else d)
    <$> dst !! i.
Proof.
  revert off src i. induction dst as [|d dst IH]; intros off src i; [done|].
  destruct off as [|k]; cbn [paste1].
  - destruct src as [|s src].
    + destruct ((d :: dst) !! i) eqn:E; cbn; [|done].
      rewrite decide_True by lia. by rewrite lookup_nil.
    + destruct i as [|i]; cbn; [done|].
      rewrite IH. destruct (dst !! i); cbn; [|done].
      rewrite !decide_True by lia.
      by replace (i - 0)%nat with i by lia.
  - destruct i as [|i]; cbn; [done|].
    rewrite IH. destruct (dst !! i); cbn; [|done].
    destruct (decide (k <= i)%nat), (decide (S k <= S i)%nat); try lia; done.
Qed.

Lemma get1_pasteZ {A} (f : A -> A -> A) (off : Z) (dst src : list A) (i : Z) :
  get1 (pasteZ f off dst src) i =
  (fun d => from_option (f d) d (get1 src (i - off))) <$> get1 dst i.
Proof.
  unfold get1, pasteZ.
  destruct (decide (0 <= i)); [|done].
  destruct (decide (0 <= off)).
  - rewrite paste1_lookup. destruct (dst !! Z.to_nat i); cbn; [|done].
    destruct (decide (0 <= i - off)).
    + rewrite decide_True by lia.
      by replace (Z.to_nat i - Z.to_nat off)%nat with (Z.to_nat (i - off)) by lia.
    + by rewrite decide_False by lia.
  - rewrite paste1_lookup. destruct (dst !! Z.to_nat i); cbn; [|done].
    rewrite !decide_True by lia. rewrite lookup_drop.
    by replace (Z.to_nat (- off) + (Z.to_nat i - 0))%nat with (Z.to_nat (i - off)) by lia.
Qed.

Lemma lookup3_paste3 {A} (off : Index) (dst src : list (list (list A))) (i : Index) :
  lookup3 (paste3 off dst src) i =
  (fun d => default d (lookup3 src (index_sub i off))) <$> lookup3 dst i.
Proof.
  unfold lookup3, paste3, index_sub. cbn [ix0 ix1 ix2 fst snd].
  rewrite get1_pasteZ.
  destruct (get1 dst (ix0 i)) as [dp|]; cbn; [|done].
  destruct (get1 src (ix0 i - ix0 off)) as [sp|]; cbn.
  - rewrite get1_pasteZ.
    destruct (get1 dp (ix1 i)) as [dr|]; cbn; [|done].
    destruct (get1 sp (ix1 i - ix1 off)) as [sr|]; cbn.
    + rewrite get1_pasteZ.
      destruct (get1 dr (ix2 i)) as [d|]; cbn; [|done].
      by destruct (get1 sr (ix2 i - ix2 off)).
    + by destruct (get1 dr (ix2 i)).
  - destruct (get1 dp (ix1 i)) as [dr|]; cbn; [|done].
    by destruct (get1 dr (ix2 i)).
Qed.

Lemma paste1_length {A} (f : A -> A -> A) off (dst src : list A) :
  length (paste1 f off dst src) = length dst.
Proof.
  revert off src. induction dst as [|d dst IH]; intros [|k] src; cbn; auto.
  destruct src; cbn; auto.
Qed.


Lemma paste1_map_inv {A B} (g : A -> B) (f : A -> A -> A) off (dst src : list A) :
  (forall d s, g (f d s) = g d) ->
  map g (paste1 f off dst src) = map g dst.
Proof.
  intros Hg. revert off src. induction dst as [|d dst IH]; intros [|k] src; cbn; auto.
  - destruct src; cbn; [done|]. by rewrite Hg, IH.
  - by rewrite IH.
Qed.

Lemma pasteZ_map_inv {A B} (g : A -> B) (f : A -> A -> A) off (dst src : list A) :
  (forall d s, g (f d s) = g d) ->
  map g (pasteZ f off dst src) = map g dst.
Proof. intros Hg. unfold pasteZ. case_decide; by apply paste1_map_inv. Qed.

Lemma pasteZ_length {A} (f : A -> A -> A) off (dst src : list A) :
  length (pasteZ f off dst src) = length dst.
Proof. unfold pasteZ. case_decide; apply paste1_length. Qed.

Lemma shape_paste3 {A} off (dst src : list (list (list A))) :
  shape (paste3 off dst src) = shape dst.
Proof.
  unfold shape, paste3. apply pasteZ_map_inv. intros d s.
  apply pasteZ_map_inv. intros d' s'. apply pasteZ_length.
Qed.

Lemma shape_map {A B} (f : A -> B) (v : list (list (list A))) :
  shape (map (map (map f)) v) = shape v.
Proof.
  unfold shape. rewrite map_map. apply map_ext. intros p.
  rewrite map_map. apply map_ext. intros r. apply length_map.
Qed.


Lemma dims_shape {A} (v : list (list (list A))) : dims v = shape_size (shape v).
Proof.
  unfold dims, shape_size, shape. destruct v as [|p v]; cbn; [done|].
  rewrite !length_map. by destruct p.
Qed.

Lemma lookup3_map {A B} (f : A -> B) (v : list (list (list A))) i :
  lookup3 (map (map (map f)) v) i = f <$> lookup3 v i.
Proof.
  unfold lookup3, get1.
  destruct (decide (0 <= ix0 i)); [|done]. rewrite list_lookup_fmap.
  destruct (v !! _) as [p|]; cbn; [|done].
  destruct (decide (0 <= ix1 i)); [|done]. rewrite list_lookup_fmap.
  destruct (p !! _) as [r|]; cbn; [|done].
  destruct (decide (0 <= ix2 i)); [|done]. by rewrite list_lookup_fmap.
Qed.

Lemma get1_Some {A} (l : list A) (i : Z) :
  is_Some (get1 l i) <-> 0 <= i < Z.of_nat (length l).
Proof.
  unfold get1. case_decide.
  - rewrite lookup_lt_is_Some. lia.
  - split; [intros [? ?]; done | lia].
Qed.

Lemma get1_None {A} (l : list A) (i : Z) :
  get1 l i = None <-> ~ (0 <= i < Z.of_nat (length l)).
Proof. rewrite <- get1_Some, eq_None_not_Some. done. Qed.

Lemma in_region_spec start size i :
  in_region start size i = true <->
  (ix0 start <= ix0 i < ix0 start + ix0 size) /\
  (ix1 start <= ix1 i < ix1 start + ix1 size) /\
  (ix2 start <= ix2 i < ix2 start + ix2 size).
Proof. unfold in_region. rewrite !andb_true_iff, !Z.leb_le, !Z.ltb_lt. lia. Qed.

Lemma in_region_shift start size i :
  in_region start size i = in_region (0, 0, 0) size (index_sub i start).
Proof.
  apply eq_true_iff_eq. rewrite !in_region_spec. unfold index_sub; cbn. lia.
Qed.

Lemma rectangular_lookup3 {A} (v : list (list (list A))) n i :
  rectangular v n ->
  is_Some (lookup3 v i) <-> in_region (0, 0, 0) n i = true.
Proof.
  intros [Hx Hv]. rewrite in_region_spec. cbn [ix0 ix1 ix2 fst snd]. unfold lookup3.
  destruct (get1 v (ix0 i)) as [p|] eqn:Ep; cbn.
  - assert (Hi : 0 <= ix0 i < Z.of_nat (length v)) by (apply get1_Some; eauto).
    unfold get1 in Ep. rewrite decide_True in Ep by lia.
    rewrite Forall_lookup in Hv. destruct (Hv _ _ Ep) as [Hy Hp].
    destruct (get1 p (ix1 i)) as [r|] eqn:Er; cbn.
    + assert (Hj : 0 <= ix1 i < Z.of_nat (length p)) by (apply get1_Some; eauto).
      unfold get1 in Er. rewrite decide_True in Er by lia.
      rewrite Forall_lookup in Hp. specialize (Hp _ _ Er).
      rewrite get1_Some. lia.
    + apply get1_None in Er. split; [intros [? ?]; done | lia].
  - apply get1_None in Ep. split; [intros [? ?]; done | lia].
Qed.


Lemma slice1_lookup {A} (start size : Z) (l : list A) (k : nat) :
  slice1 start size l !! k =
  if decide (k < Z.to_nat size)%nat then l !! (Z.to_nat start + k)%nat else None.
Proof.
  unfold slice1. case_decide.
  - rewrite lookup_take_lt by done. apply lookup_drop.
  - apply lookup_take_ge. lia.
Qed.

Lemma slice1_full {A} (l : list A) n :
  Z.of_nat (length l) <= n -> slice1 0 n l = l.
Proof. intros H. unfold slice1. cbn. apply take_ge. lia. Qed.

(** Slicing at the offset of a paste gives the source back, element by
    element through [h]. *)
Lemma slice1_pasteZ {A} (f : A -> A -> A) (h : A -> A) (off n : Z) (dst src : list A) :
  0 <= off -> Z.of_nat (length src) = n -> off + n <= Z.of_nat (length dst) ->
  (forall k d s, dst !! (Z.to_nat off + k)%nat = Some d -> src !! k = Some s -> h (f d s) = s) ->
  map h (slice1 off n (pasteZ f off dst src)) = src.
Proof.
  intros Hoff Hn Hfit Hh. apply list_eq. intros k.
  rewrite list_lookup_fmap, slice1_lookup.
  unfold pasteZ. destruct (decide (0 <= off)); [|lia]. rewrite paste1_lookup.
  case_decide as Hk.
  - destruct (lookup_lt_is_Some_2 dst (Z.to_nat off + k)) as [d Hd]; [lia|].
    destruct (lookup_lt_is_Some_2 src k) as [s Hs]; [lia|].
    rewrite Hd. cbn. rewrite decide_True by lia.
    replace (Z.to_nat off + k - Z.to_nat off)%nat with k by lia.
    rewrite Hs. cbn. f_equal. eauto.
  - cbn. symmetry. apply lookup_ge_None. lia.
Qed.

Lemma slice3_paste3 {A} (start size n : Index) (dst src : list (list (list A))) :
  rectangular dst n -> rectangular src size ->
  region_within start size n = true ->
  slice3 start size (paste3 start dst src) = src.
Proof.
  intros [Hdx Hd] [Hsx Hs] Hw.
  unfold region_within in Hw. rewrite !andb_true_iff, !Z.leb_le in Hw.
  rewrite Forall_lookup in Hd. rewrite Forall_lookup in Hs.
  unfold slice3, paste3.
  apply slice1_pasteZ; [lia..|]. intros k dp sp Hdp Hsp.
  destruct (Hd _ _ Hdp) as [Hdy Hdr]. destruct (Hs _ _ Hsp) as [Hsy Hsr].
  rewrite Forall_lookup in Hdr. rewrite Forall_lookup in Hsr.
  apply slice1_pasteZ; [lia..|]. intros j dr sr Hdr' Hsr'.
  specialize (Hdr _ _ Hdr'). specialize (Hsr _ _ Hsr').
  rewrite <- (map_id (slice1 _ _ _)).
  apply slice1_pasteZ; [lia..|]. done.
Qed.

Lemma rectangular_dims {A} (v : list (list (list A))) n :
  rectangular v n -> rectangular v (dims v).
Proof.
  intros [Hx Hv]. split; [done|].
  destruct v as [|p v]; [constructor|].
  cbn [dims hd ix1 ix2 fst snd].
  pose proof (Forall_inv Hv) as [Hp0 Hr0].
  eapply Forall_impl; [exact Hv|]. cbn. intros q [Hq Hr]. split; [congruence|].
  destruct p as [|r p]; cbn.
  - destruct q; [constructor|]. cbn in *. lia.
  - pose proof (Forall_inv Hr0) as Hr0'. 
    eapply Forall_impl; [exact Hr|]. cbn. intros; congruence.
Qed.

Lemma map_id_Forall {A} (f : A -> A) (l : list A) :
  Forall (fun x => f x = x) l -> map f l = l.
Proof. induction 1; cbn; congruence. Qed.

Lemma slice3_full {A} (v : list (list (list A))) n :
  rectangular v n -> slice3 (0, 0, 0) (dims v) v = v.
Proof.
  intros H. apply rectangular_dims in H. destruct H as [_ Hv].
  unfold slice3. cbn [ix0 ix1 ix2 fst snd dims] in *.
  rewrite slice1_full by lia.
  apply map_id_Forall. eapply Forall_impl; [exact Hv|]. cbn. intros p [Hp Hr].
  rewrite slice1_full by lia.
  apply map_id_Forall. eapply Forall_impl; [exact Hr|]. cbn. intros r Hr'.
  apply slice1_full. lia.
Qed.

Lemma dims_nonneg {A} (v : list (list (list A))) :
  region_within (0, 0, 0) (dims v) (dims v) = true.
Proof.
  unfold region_within, dims. cbn [ix0 ix1 ix2 fst snd].
  rewrite !andb_true_iff, !Z.leb_le. lia.
Qed.

(** ** Output compositing *)


Lemma zero_template_pixel (img : Image Z) (i : Index) :
  GetPixel (Cast_sitkUInt8 (Multiply img 0)) i = (fun _ => 0) <$> GetPixel img i.
Proof.
  unfold GetPixel, Cast_sitkUInt8, Multiply, map_voxels. cbn [voxels].
  rewrite !lookup3_map. destruct (lookup3 (voxels img) i) as [v|]; cbn; [|done].
  by rewrite Z.mul_0_r.
Qed.

Lemma zero_template_size (img : Image Z) :
  GetSize (Cast_sitkUInt8 (Multiply img 0)) = GetSize img.
Proof.
  unfold GetSize, Cast_sitkUInt8, Multiply, map_voxels. cbn [voxels].
  by rewrite !dims_shape, !shape_map.
Qed.

(** What [Paste] of a whole mask at an offset returns. *)
Lemma Paste_whole {A} (destination mask : Image A) (offset : Index) :
  well_formed mask ->
  Paste destination mask (GetSize mask) (0, 0, 0) offset
  = Ok (mkImage (GetGeometry destination)
          (paste3 offset (voxels destination) (voxels mask))).
Proof.
  intros Hwf. unfold Paste, GetSize. rewrite dims_nonneg.
  by rewrite (slice3_full _ _ Hwf).
Qed.

Lemma pasted_pixel {A} (dst : list (list (list A))) (mask : Image A) offset i :
  well_formed mask ->
  lookup3 (paste3 offset dst (voxels mask)) i =
  if in_region offset (GetSize mask) i
  then lookup3 dst i ≫= fun _ => GetPixel mask (index_sub i offset)
  else lookup3 dst i.
Proof.
  intros Hwf. rewrite lookup3_paste3, in_region_shift.
  pose proof (rectangular_lookup3 _ _ (index_sub i offset) Hwf) as Hm.
  unfold GetPixel.
  destruct (lookup3 dst i) as [d|]; cbn; [|by destruct (in_region _ _ _)].
  destruct (in_region (0, 0, 0) (GetSize mask) (index_sub i offset)).
  - destruct (proj2 Hm eq_refl) as [v Hv]. by rewrite Hv.
  - destruct (lookup3 (voxels mask) (index_sub i offset)) as [v|] eqn:Hv; [|done].
    assert (false = true) by (apply Hm; eauto). done.
Qed.

Section Compositor.
Context (C : Collaborators) (settings : Settings).
Variables (data_object : DataObject) (working_dir : string).

End Compositor.


(** ** Crop and paste, thresholding *)


Lemma rectangular_map {A B} (f : A -> B) (v : list (list (list A))) n :
  rectangular v n -> rectangular (map (map (map f)) v) n.
Proof.
  intros [Hx Hv]. split; [by rewrite length_map|].
  apply Forall_map. eapply Forall_impl; [exact Hv|]. cbn. intros p [Hp Hr].
  split; [by rewrite length_map|].
  apply Forall_map. eapply Forall_impl; [exact Hr|]. cbn. intros r Hr'.
  by rewrite length_map.
Qed.

(** C4. A mask on the grid of the crop box, pasted at the crop offset into
    the zero template of a target that contains the box and cropped again at
    the same box, is the mask itself: voxels and geometry. *)
Theorem crop_after_paste (img mask : Image Z) (cropBox : Box) :
  well_formed img ->
  region_within (box_index cropBox) (box_size cropBox) (GetSize img) = true ->
  rectangular (voxels mask) (box_size cropBox) ->
  GetGeometry mask = GetGeometry (SpecModel.CropImage img cropBox) ->
  exists pasted,
    Paste (Cast_sitkUInt8 (Multiply img 0)) mask (GetSize mask) (0, 0, 0)
      (box_index cropBox) = Ok pasted /\
    SpecModel.CropImage pasted cropBox = mask.
Proof.
  intros Himg Hin Hmask Hgeo.
  assert (Hwf : well_formed mask) by (eapply rectangular_dims; eauto).
  eexists. split; [by apply Paste_whole|].
  unfold SpecModel.CropImage. cbn [GetGeometry voxels].
  destruct mask as [g v]. cbn in Hgeo, Hmask |- *. f_equal; [done|].
  eapply slice3_paste3; [|exact Hmask|exact Hin].
  unfold Cast_sitkUInt8, Multiply, map_voxels. cbn [voxels].
  by do 2 apply rectangular_map.
Qed.

Lemma filter_length_map_le {A} (f g : A -> Z) (l : list A) :
  (forall x, f x <> 0 -> g x <> 0) ->
  (length (filter (fun v : Z => v <> 0%Z) (map f l)) <=
   length (filter (fun v : Z => v <> 0%Z) (map g l)))%nat.
Proof.
  intros Hfg. induction l as [|x l IH]; [done|].
  rewrite !map_cons, !filter_cons.
  destruct (decide (f x <> 0)) as [Hf|Hf].
  - rewrite decide_True by auto. cbn. lia.
  - destruct (decide (g x <> 0)); cbn; lia.
Qed.

Lemma concat_voxels_map {A B} (f : A -> B) (v : list (list (list A))) :
  concat (concat (map (map (map f)) v)) = map f (concat (concat v)).
Proof. by rewrite <- !concat_map. Qed.

(** C4 on the sample run. *)
Lemma crop_after_paste_sample :
  exists pasted,
    Paste (Cast_sitkUInt8 (Multiply Sample.img 0)) Sample.mask (GetSize Sample.mask)
      (0, 0, 0) (box_index Sample.crop) = Ok pasted /\
    SpecModel.CropImage pasted Sample.crop = Sample.mask.
Proof.
  apply crop_after_paste.
  - split; [reflexivity|]. repeat constructor.
  - reflexivity.
  - split; [reflexivity|]. repeat constructor.
  - reflexivity.
Defined.

(** C5. For a probability volume and cutoffs [t1 <= t2], every voxel set in
    the mask thresholded at [t2] is set in the mask thresholded at [t1], and
    the mask at [t2] has no more set voxels than the mask at [t1]. *)
Theorem threshold_monotone (probability_image : Image Q) (t1 t2 : Q) :
  (t1 <= t2)%Q ->
  (forall i,
     GetPixel (SpecModel.process_probability_image probability_image t2) i = Some 1 ->
     GetPixel (SpecModel.process_probability_image probability_image t1) i = Some 1) /\
  (voxel_count (SpecModel.process_probability_image probability_image t2) <=
   voxel_count (SpecModel.process_probability_image probability_image t1))%nat.
Proof.
  intros Ht.
  assert (Hle : forall p, Qle_bool t2 p = true -> Qle_bool t1 p = true).
  { intros p. rewrite !Qle_bool_iff. intros Hp. by apply Qle_trans with t2. }
  split.
  - intros i. unfold GetPixel, SpecModel.process_probability_image, map_voxels.
    cbn [voxels]. rewrite !lookup3_map.
    destruct (lookup3 (voxels probability_image) i) as [p|]; cbn; [|done].
    destruct (Qle_bool t2 p) eqn:E; [|done]. by rewrite (Hle p E).
  - unfold voxel_count, SpecModel.process_probability_image, map_voxels.
    cbn [voxels]. rewrite !concat_voxels_map.
    apply filter_length_map_le. intros p.
    destruct (Qle_bool t2 p) eqn:E; [|done]. by rewrite (Hle p E).
Qed.

(** C5 on a volume of probability one half, for the cutoffs 0.44 and 0.7. *)
Lemma threshold_monotone_sample :
  let probability_image := Sample.constant_image 2 2 1 (1 # 2)%Q in
  (forall i,
     GetPixel (SpecModel.process_probability_image probability_image (7 # 10)) i = Some 1 ->
     GetPixel (SpecModel.process_probability_image probability_image (44 # 100)) i = Some 1) /\
  (voxel_count (SpecModel.process_probability_image probability_image (7 # 10)) <=
   voxel_count (SpecModel.process_probability_image probability_image (44 # 100)))%nat.
Proof.
  intros p. apply threshold_monotone. unfold Qle. cbn. lia.
Defined.

(** ** The result monad *)

Lemma bind_Ok {A B} (r : result A) (k : A -> result B) (b : B) :
  r ≫= k = Ok b -> exists a, r = Ok a /\ k a = Ok b.
Proof. destruct r as [a|e]; cbn; [eauto | done]. Qed.

Lemma fmap_Ok {A B} (f : A -> B) (r : result A) (b : B) :
  f <$> r = Ok b -> exists a, r = Ok a /\ b = f a.
Proof. destruct r as [a|e]; cbn; [|done]. intros [= <-]. eauto. Qed.

Lemma for_each_app {A S} (l1 l2 : list A) (body : A -> S -> result S) (s : S) :
  for_each (l1 ++ l2) body s = for_each l1 body s ≫= for_each l2 body.
Proof.
  revert s. induction l1 as [|x l1 IH]; intros s; cbn; [done|].
  destruct (body x s) as [s'|e]; cbn; [apply IH | done].
Qed.

(** The first exception of a loop is the loop's. *)
Lemma for_each_raise {A S} (l1 l2 : list A) (x : A) (body : A -> S -> result S)
    (s s1 : S) (e : Exception) :
  for_each l1 body s = Ok s1 -> body x s1 = Raise e ->
  for_each (l1 ++ x :: l2) body s = Raise e.
Proof. intros H1 Hx. rewrite for_each_app, H1. cbn. by rewrite Hx. Qed.

(** ** The atlas store *)

Lemma getitem_Ok {V} (d : gmap string V) k v : getitem d k = Ok v <-> d !! k = Some v.
Proof. unfold getitem. destruct (d !! k); split; congruence. Qed.

Lemma get_entry_set_entry (s s' : AtlasSet) a st k v a' st' k' :
  set_entry s a st k v = Ok s' ->
  get_entry s' a' st' k' =
  if decide (a' = a /\ st' = st /\ k' = k) then Ok v else get_entry s a' st' k'.
Proof.
  unfold set_entry, get_entry, getitem. intros H.
  destruct (s !! a) as [rec|] eqn:Ha; cbn in H; [|done].
  destruct (rec !! st) as [sd|] eqn:Hst; cbn in H; [|done].
  injection H as <-.
  destruct (decide (a' = a)) as [->|Hna].
  - rewrite lookup_insert_eq, Ha. cbn.
    destruct (decide (st' = st)) as [->|Hnst].
    + rewrite lookup_insert_eq, Hst. cbn.
      destruct (decide (k' = k)) as [->|Hnk].
      * rewrite lookup_insert_eq. by rewrite decide_True.
      * rewrite lookup_insert_ne by done. rewrite decide_False by (intros H; decompose [and] H; done). done.
    + rewrite lookup_insert_ne by done. rewrite decide_False by (intros H; decompose [and] H; done). done.
  - rewrite lookup_insert_ne by done. rewrite decide_False by (intros H; decompose [and] H; done). done.
Qed.

Lemma get_entry_set_stage (s s' : AtlasSet) a st d a' st' k' :
  set_stage s a st d = Ok s' ->
  get_entry s' a' st' k' =
  if decide (a' = a /\ st' = st) then getitem d k' else get_entry s a' st' k'.
Proof.
  unfold set_stage, get_entry, getitem. intros H.
  destruct (s !! a) as [rec|] eqn:Ha; cbn in H; [|done].
  injection H as <-.
  destruct (decide (a' = a)) as [->|Hna].
  - rewrite lookup_insert_eq, Ha. cbn.
    destruct (decide (st' = st)) as [->|Hnst].
    + rewrite lookup_insert_eq. cbn. by rewrite decide_True.
    + rewrite lookup_insert_ne by done. rewrite decide_False by (intros H; decompose [and] H; done). done.
  - rewrite lookup_insert_ne by done. rewrite decide_False by (intros H; decompose [and] H; done). done.
Qed.

Lemma as_image_Ok e image : as_image e = Ok image -> e = EImage image.
Proof. destruct e; cbn; congruence. Qed.

Lemma set_stage_dom (s s' : AtlasSet) a st d :
  set_stage s a st d = Ok s' -> dom s' = dom s.
Proof.
  unfold set_stage, getitem. destruct (s !! a) as [record|] eqn:Ha; cbn; [|done].
  intros [= <-]. apply dom_insert_lookup_L. by rewrite Ha.
Qed.

Lemma set_entry_dom (s s' : AtlasSet) a st k v :
  set_entry s a st k v = Ok s' -> dom s' = dom s.
Proof.
  unfold set_entry, getitem. destruct (s !! a) as [record|] eqn:Ha; cbn; [|done].
  destruct (record !! st); cbn; [|done].
  intros [= <-]. apply dom_insert_lookup_L. by rewrite Ha.
Qed.

Lemma for_each_dom {A} (xs : list A) (body : A -> AtlasSet -> result AtlasSet) :
  (forall x s s', body x s = Ok s' -> dom s' = dom s) ->
  forall s s', for_each xs body s = Ok s' -> dom s' = dom s.
Proof.
  intros Hbody. induction xs as [|x xs IH]; intros s s' H.
  - cbn in H. by injection H as <-.
  - cbn in H. apply bind_Ok in H as (s1 & Hx & H).
    rewrite (IH _ _ H). by apply (Hbody x).
Qed.

Section Registration.
Context (C : Collaborators) (settings : Settings).
Variable img_crop : Image Z.

Lemma rigid_propagate_spec s s' a tfm struct :
  rigid_propagate C img_crop a tfm struct s = Ok s' ->
  exists orig p,
    get_entry s a "Original" struct = Ok (EImage orig) /\
    transform_propagation C img_crop orig tfm true sitkLinear = Ok p /\
    forall a' st' k',
      get_entry s' a' st' k' =
      if decide (a' = a /\ st' = "RIR" /\ k' = struct) then Ok (EImage p)
      else get_entry s a' st' k'.
Proof.
  unfold rigid_propagate. intros H.
  apply bind_Ok in H as (orig & Ho & H).
  apply bind_Ok in Ho as (e & He & Ho). apply as_image_Ok in Ho as ->.
  apply bind_Ok in H as (p & Hp & H).
  exists orig, p. repeat split; [done..|].
  intros a' st' k'. by apply get_entry_set_entry.
Qed.

Lemma rigid_propagate_loop structs s s' a tfm :
  for_each structs (rigid_propagate C img_crop a tfm) s = Ok s' ->
  (forall a' st' k', a' <> a \/ st' <> "RIR" ->
     get_entry s' a' st' k' = get_entry s a' st' k') /\
  (forall struct, struct ∈ structs ->
     exists orig p,
       get_entry s a "Original" struct = Ok (EImage orig) /\
       transform_propagation C img_crop orig tfm true sitkLinear = Ok p /\
       get_entry s' a "RIR" struct = Ok (EImage p)).
Proof.
  revert s'. induction structs as [|x l IH] using rev_ind; intros s' H.
  { cbn in H. injection H as <-. split; [done|]. intros ? Hin. by apply elem_of_nil in Hin. }
  rewrite for_each_app in H. apply bind_Ok in H as (s1 & H1 & Hx).
  cbn in Hx. apply bind_Ok in Hx as (s2 & Hx & [= ->]).
  destruct (IH _ H1) as [Hframe Hdone].
  apply rigid_propagate_spec in Hx as (orig & p & Ho & Hp & Hget).
  split.
  - intros a' st' k' Hne. rewrite Hget, decide_False, Hframe; [done..|].
    intros (-> & -> & _). by destruct Hne.
  - intros struct Hin. destruct (decide (struct = x)) as [->|Hne].
    + exists orig, p. rewrite <- (Hframe a "Original" x) by (by right).
      repeat split; [done..|]. rewrite Hget. by rewrite decide_True.
    + apply elem_of_app in Hin as [Hin|Hin]; [|by apply list_elem_of_singleton in Hin].
      destruct (Hdone _ Hin) as (orig' & p' & Ho' & Hp' & Hr').
      exists orig', p'. repeat split; [done..|].
      rewrite Hget, decide_False; [done|]. by intros (_ & _ & ->).
Qed.

Lemma rigid_register_spec s s' a :
  rigid_register C settings img_crop a s = Ok s' ->
  rigid_done C settings img_crop s' a /\
  (forall a' st' k', a' <> a \/ st' <> "RIR" ->
     get_entry s' a' st' k' = get_entry s a' st' k').
Proof.
  unfold rigid_register. intros H.
  apply bind_Ok in H as (s1 & H1 & H).
  apply bind_Ok in H as (atlas_image & _ & H).
  apply bind_Ok in H as (atlas_struct & _ & H).
  apply bind_Ok in H as ([rigid_image tfm] & Hreg & H).
  apply bind_Ok in H as (s2 & H2 & H).
  apply bind_Ok in H as (s3 & H3 & H).
  apply rigid_propagate_loop in H as [Hframe Hdone].
  assert (Hs3 : forall a' st' k', a' <> a \/ st' <> "RIR" ->
            get_entry s3 a' st' k' = get_entry s a' st' k').
  { intros a' st' k' Hne.
    rewrite (get_entry_set_entry _ _ _ _ _ _ _ _ _ H3), decide_False
      by (intros (-> & -> & _); by destruct Hne).
    rewrite (get_entry_set_entry _ _ _ _ _ _ _ _ _ H2), decide_False
      by (intros (-> & -> & _); by destruct Hne).
    rewrite (get_entry_set_stage _ _ _ _ _ _ _ _ H1), decide_False; [done|].
    intros (-> & ->); by destruct Hne. }
  split.
  - exists atlas_image, atlas_struct, rigid_image, tfm. split; [done|].
    intros struct Hin. destruct (Hdone _ Hin) as (orig & p & Ho & Hp & Hr).
    exists orig, p. repeat split; [|done..].
    rewrite Hframe by (by right). done.
  - intros a' st' k' Hne. rewrite Hframe by done. by apply Hs3.
Qed.

Lemma deformable_propagate_spec s s' a field struct :
  deformable_propagate C a field struct s = Ok s' ->
  exists rir p,
    get_entry s a "RIR" struct = Ok (EImage rir) /\
    apply_field C rir field true sitkLinear = Ok p /\
    forall a' st' k',
      get_entry s' a' st' k' =
      if decide (a' = a /\ st' = "DIR" /\ k' = struct) then Ok (EImage p)
      else get_entry s a' st' k'.
Proof.
  unfold deformable_propagate. intros H.
  apply bind_Ok in H as (rir & Ho & H).
  apply bind_Ok in Ho as (e & He & Ho). apply as_image_Ok in Ho as ->.
  apply bind_Ok in H as (p & Hp & H).
  exists rir, p. repeat split; [done..|].
  intros a' st' k'. by apply get_entry_set_entry.
Qed.

Lemma deformable_propagate_loop structs s s' a field :
  for_each structs (deformable_propagate C a field) s = Ok s' ->
  (forall a' st' k', a' <> a \/ st' <> "DIR" ->
     get_entry s' a' st' k' = get_entry s a' st' k') /\
  (forall struct, struct ∈ structs ->
     exists rir p,
       get_entry s a "RIR" struct = Ok (EImage rir) /\
       apply_field C rir field true sitkLinear = Ok p /\
       get_entry s' a "DIR" struct = Ok (EImage p)).
Proof.
  revert s'. induction structs as [|x l IH] using rev_ind; intros s' H.
  { cbn in H. injection H as <-. split; [done|]. intros ? Hin. by apply elem_of_nil in Hin. }
  rewrite for_each_app in H. apply bind_Ok in H as (s1 & H1 & Hx).
  cbn in Hx. apply bind_Ok in Hx as (s2 & Hx & [= ->]).
  destruct (IH _ H1) as [Hframe Hdone].
  apply deformable_propagate_spec in Hx as (rir & p & Ho & Hp & Hget).
  split.
  - intros a' st' k' Hne. rewrite Hget, decide_False, Hframe; [done..|].
    intros (-> & -> & _). by destruct Hne.
  - intros struct Hin. destruct (decide (struct = x)) as [->|Hne].
    + exists rir, p. rewrite <- (Hframe a "RIR" x) by (by right).
      repeat split; [done..|]. rewrite Hget. by rewrite decide_True.
    + apply elem_of_app in Hin as [Hin|Hin]; [|by apply list_elem_of_singleton in Hin].
      destruct (Hdone _ Hin) as (rir' & p' & Ho' & Hp' & Hr').
      exists rir', p'. repeat split; [done..|].
      rewrite Hget, decide_False; [done|]. by intros (_ & _ & ->).
Qed.

Lemma deformable_register_spec s s' a :
  deformable_register C settings img_crop a s = Ok s' ->
  deformable_done C settings img_crop s' a /\
  (forall a' st' k', a' <> a \/ st' <> "DIR" ->
     get_entry s' a' st' k' = get_entry s a' st' k').
Proof.
  unfold deformable_register. intros H.
  apply bind_Ok in H as (s1 & H1 & H).
  apply bind_Ok in H as (atlas_image & _ & H).
  apply bind_Ok in H as ([deform_image field] & Hreg & H).
  apply bind_Ok in H as (s2 & H2 & H).
  apply bind_Ok in H as (s3 & H3 & H).
  apply deformable_propagate_loop in H as [Hframe Hdone].
  assert (Hs3 : forall a' st' k', a' <> a \/ st' <> "DIR" ->
            get_entry s3 a' st' k' = get_entry s a' st' k').
  { intros a' st' k' Hne.
    rewrite (get_entry_set_entry _ _ _ _ _ _ _ _ _ H3), decide_False
      by (intros (-> & -> & _); by destruct Hne).
    rewrite (get_entry_set_entry _ _ _ _ _ _ _ _ _ H2), decide_False
      by (intros (-> & -> & _); by destruct Hne).
    rewrite (get_entry_set_stage _ _ _ _ _ _ _ _ H1), decide_False; [done|].
    intros (-> & ->); by destruct Hne. }
  split.
  - exists atlas_image, deform_image, field. split; [done|].
    intros struct Hin. destruct (Hdone _ Hin) as (rir & p & Ho & Hp & Hr).
    exists rir, p. repeat split; [|done..].
    rewrite Hframe by (by right). done.
  - intros a' st' k' Hne. rewrite Hframe by done. by apply Hs3.
Qed.

Lemma rigid_done_frame s s' a :
  (forall st' k', st' <> "DIR" -> get_entry s' a st' k' = get_entry s a st' k') ->
  rigid_done C settings img_crop s a -> rigid_done C settings img_crop s' a.
Proof.
  intros Hframe (ai & ast & ri & tfm & Hreg & Hdone).
  exists ai, ast, ri, tfm. split; [done|]. intros struct Hin.
  destruct (Hdone _ Hin) as (orig & p & Ho & Hp & Hr).
  exists orig, p. by rewrite !Hframe.
Qed.

Lemma deformable_done_frame s s' a :
  (forall st' k', get_entry s' a st' k' = get_entry s a st' k') ->
  deformable_done C settings img_crop s a -> deformable_done C settings img_crop s' a.
Proof.
  intros Hframe (ai & di & field & Hreg & Hdone).
  exists ai, di, field. split; [done|]. intros struct Hin.
  destruct (Hdone _ Hin) as (rir & p & Ho & Hp & Hr).
  exists rir, p. by rewrite !Hframe.
Qed.

Lemma rigid_stage ids s s' :
  for_each ids (rigid_register C settings img_crop) s = Ok s' ->
  (forall a, a ∈ ids -> rigid_done C settings img_crop s' a) /\
  (forall a' st' k', st' <> "RIR" -> get_entry s' a' st' k' = get_entry s a' st' k').
Proof.
  revert s'. induction ids as [|x l IH] using rev_ind; intros s' H.
  { cbn in H. injection H as <-. split; [|done]. intros ? Hin. by apply elem_of_nil in Hin. }
  rewrite for_each_app in H. apply bind_Ok in H as (s1 & H1 & Hx).
  cbn in Hx. apply bind_Ok in Hx as (s2 & Hx & [= ->]).
  destruct (IH _ H1) as [Hdone Hframe].
  apply rigid_register_spec in Hx as [Hx Hfx].
  split.
  - intros a Hin. destruct (decide (a = x)) as [->|Hne]; [done|].
    apply elem_of_app in Hin as [Hin|Hin]; [|by apply list_elem_of_singleton in Hin].
    apply (rigid_done_frame s1); [|by apply Hdone].
    intros st' k' _. apply Hfx. by left.
  - intros a' st' k' Hne. rewrite Hfx by (by right). by apply Hframe.
Qed.

Lemma deformable_stage ids s s' :
  for_each ids (deformable_register C settings img_crop) s = Ok s' ->
  (forall a, a ∈ ids -> deformable_done C settings img_crop s' a) /\
  (forall a' st' k', st' <> "DIR" -> get_entry s' a' st' k' = get_entry s a' st' k').
Proof.
  revert s'. induction ids as [|x l IH] using rev_ind; intros s' H.
  { cbn in H. injection H as <-. split; [|done]. intros ? Hin. by apply elem_of_nil in Hin. }
  rewrite for_each_app in H. apply bind_Ok in H as (s1 & H1 & Hx).
  cbn in Hx. apply bind_Ok in Hx as (s2 & Hx & [= ->]).
  destruct (IH _ H1) as [Hdone Hframe].
  apply deformable_register_spec in Hx as [Hx Hfx].
  split.
  - intros a Hin. destruct (decide (a = x)) as [->|Hne]; [done|].
    apply elem_of_app in Hin as [Hin|Hin]; [|by apply list_elem_of_singleton in Hin].
    apply (deformable_done_frame s1); [|by apply Hdone].
    intros st' k'. apply Hfx. by left.
  - intros a' st' k' Hne. rewrite Hfx by (by right). by apply Hframe.
Qed.

Lemma rigid_propagate_loop_keys structs s s' a tfm :
  for_each structs (rigid_propagate C img_crop a tfm) s = Ok s' ->
  forall a' st' k', k' ∉ structs -> get_entry s' a' st' k' = get_entry s a' st' k'.
Proof.
  revert s. induction structs as [|x l IH]; intros s H a' st' k' Hk.
  - cbn in H. by injection H as <-.
  - cbn in H. apply bind_Ok in H as (s1 & Hx & H).
    apply not_elem_of_cons in Hk as [Hne Hk]. rewrite (IH _ H) by done.
    apply rigid_propagate_spec in Hx as (orig & p & _ & _ & Hget).
    rewrite Hget, decide_False; [done|]. by intros (_ & _ & ?).
Qed.

Lemma deformable_propagate_loop_keys structs s s' a field :
  for_each structs (deformable_propagate C a field) s = Ok s' ->
  forall a' st' k', k' ∉ structs -> get_entry s' a' st' k' = get_entry s a' st' k'.
Proof.
  revert s. induction structs as [|x l IH]; intros s H a' st' k' Hk.
  - cbn in H. by injection H as <-.
  - cbn in H. apply bind_Ok in H as (s1 & Hx & H).
    apply not_elem_of_cons in Hk as [Hne Hk]. rewrite (IH _ H) by done.
    apply deformable_propagate_spec in Hx as (orig & p & _ & _ & Hget).
    rewrite Hget, decide_False; [done|]. by intros (_ & _ & ?).
Qed.

Lemma rigid_register_dom s s' a :
  rigid_register C settings img_crop a s = Ok s' -> dom s' = dom s.
Proof.
  unfold rigid_register. intros H.
  apply bind_Ok in H as (s1 & H1 & H).
  apply bind_Ok in H as (atlas_image & _ & H).
  apply bind_Ok in H as (atlas_struct & _ & H).
  apply bind_Ok in H as ([rigid_image tfm] & _ & H).
  apply bind_Ok in H as (s2 & H2 & H).
  apply bind_Ok in H as (s3 & H3 & H).
  apply for_each_dom in H.
  - rewrite H, (set_entry_dom _ _ _ _ _ _ H3), (set_entry_dom _ _ _ _ _ _ H2).
    by apply set_stage_dom in H1.
  - intros struct t t' Hp. unfold rigid_propagate in Hp.
    apply bind_Ok in Hp as (i & _ & Hp). apply bind_Ok in Hp as (p & _ & Hp).
    by apply set_entry_dom in Hp.
Qed.

Lemma deformable_register_dom s s' a :
  deformable_register C settings img_crop a s = Ok s' -> dom s' = dom s.
Proof.
  unfold deformable_register. intros H.
  apply bind_Ok in H as (s1 & H1 & H).
  apply bind_Ok in H as (atlas_image & _ & H).
  apply bind_Ok in H as ([deform_image field] & _ & H).
  apply bind_Ok in H as (s2 & H2 & H).
  apply bind_Ok in H as (s3 & H3 & H).
  apply for_each_dom in H.
  - rewrite H, (set_entry_dom _ _ _ _ _ _ H3), (set_entry_dom _ _ _ _ _ _ H2).
    by apply set_stage_dom in H1.
  - intros struct t t' Hp. unfold deformable_propagate in Hp.
    apply bind_Ok in Hp as (i & _ & Hp). apply bind_Ok in Hp as (p & _ & Hp).
    by apply set_entry_dom in Hp.
Qed.

Lemma rigid_registered_frame before before' after after' a :
  (forall k, get_entry before' a "Original" k = get_entry before a "Original" k) ->
  (forall k, get_entry after' a "RIR" k = get_entry after a "RIR" k) ->
  rigid_registered C settings img_crop before after a ->
  rigid_registered C settings img_crop before' after' a.
Proof.
  intros Hb Ha (ai & ast & ri & tfm & Hi & Hg & Hreg & Hs & Hct & Htf).
  exists ai, ast, ri, tfm. rewrite Hb. split; [done|]. split; [|split; [done|]].
  - destruct (truthy (guideStructure settings)) as [g|]; [|done].
    destruct Hg as (guide & Hg & ->). exists guide. by rewrite Hb.
  - split; [|split].
    + intros struct Hin. destruct (Hs _ Hin) as (orig & p & Ho & Hp & Hr).
      exists orig, p. by rewrite Hb, Ha.
    + intros Hk. rewrite Ha. by apply Hct.
    + intros Hk. rewrite Ha. by apply Htf.
Qed.

Lemma rigid_register_full s s' a :
  rigid_register C settings img_crop a s = Ok s' ->
  rigid_registered C settings img_crop s s' a.
Proof.
  unfold rigid_register. intros H.
  apply bind_Ok in H as (s1 & H1 & H).
  assert (Hs1 : forall k, get_entry s1 a "Original" k = get_entry s a "Original" k).
  { intros k. rewrite (get_entry_set_stage _ _ _ _ _ _ _ _ H1), decide_False; [done|].
    by intros (_ & [=]). }
  apply bind_Ok in H as (atlas_image & Hi & H).
  apply bind_Ok in Hi as (e & He & Hi). apply as_image_Ok in Hi as ->.
  rewrite Hs1 in He.
  apply bind_Ok in H as (atlas_struct & Hg & H).
  apply bind_Ok in H as ([rigid_image tfm] & Hreg & H).
  apply bind_Ok in H as (s2 & H2 & H).
  apply bind_Ok in H as (s3 & H3 & H).
  assert (Hs3 : forall k, get_entry s3 a "Original" k = get_entry s a "Original" k).
  { intros k.
    rewrite (get_entry_set_entry _ _ _ _ _ _ _ _ _ H3), decide_False
      by (by intros (_ & [=] & _)).
    rewrite (get_entry_set_entry _ _ _ _ _ _ _ _ _ H2), decide_False
      by (by intros (_ & [=] & _)).
    apply Hs1. }
  pose proof (rigid_propagate_loop _ _ _ _ _ H) as [_ Hdone].
  exists atlas_image, atlas_struct, rigid_image, tfm.
  split; [done|]. split; [|split; [done|split; [|split]]].
  - destruct (truthy (guideStructure settings)) as [g|]; [|by injection Hg as <-].
    apply fmap_Ok in Hg as (guide & Hg & ->).
    apply bind_Ok in Hg as (e & He' & Hg). apply as_image_Ok in Hg as ->.
    rewrite Hs1 in He'. by exists guide.
  - intros struct Hin. destruct (Hdone _ Hin) as (orig & p & Ho & Hp & Hr).
    exists orig, p. by rewrite <- Hs3.
  - intros Hk. rewrite (rigid_propagate_loop_keys _ _ _ _ _ H) by done.
    rewrite (get_entry_set_entry _ _ _ _ _ _ _ _ _ H3), decide_False
      by (by intros (_ & _ & [=])).
    rewrite (get_entry_set_entry _ _ _ _ _ _ _ _ _ H2). by rewrite decide_True.
  - intros Hk. rewrite (rigid_propagate_loop_keys _ _ _ _ _ H) by done.
    rewrite (get_entry_set_entry _ _ _ _ _ _ _ _ _ H3). by rewrite decide_True.
Qed.

Lemma rigid_stage_full ids s s' :
  for_each ids (rigid_register C settings img_crop) s = Ok s' ->
  forall a, a ∈ ids -> rigid_registered C settings img_crop s s' a.
Proof.
  revert s'. induction ids as [|x l IH] using rev_ind; intros s' H a Hin.
  { by apply elem_of_nil in Hin. }
  rewrite for_each_app in H. apply bind_Ok in H as (s1 & H1 & Hx).
  cbn in Hx. apply bind_Ok in Hx as (s2 & Hx & [= ->]).
  destruct (decide (a = x)) as [->|Hne].
  - apply rigid_stage in H1 as [_ Hframe].
    apply (rigid_registered_frame s1 s s' s'); [|done|by apply rigid_register_full].
    intros k. symmetry. by apply Hframe.
  - apply elem_of_app in Hin as [Hin|Hin]; [|by apply list_elem_of_singleton in Hin].
    apply rigid_register_spec in Hx as [_ Hframe].
    apply (rigid_registered_frame s s s1 s'); [done| |by apply IH].
    intros k. apply Hframe. by left.
Qed.

Lemma deformable_registered_frame before before' after after' a :
  (forall k, get_entry before' a "RIR" k = get_entry before a "RIR" k) ->
  (forall k, get_entry after' a "DIR" k = get_entry after a "DIR" k) ->
  deformable_registered C settings img_crop before after a ->
  deformable_registered C settings img_crop before' after' a.
Proof.
  intros Hb Ha (ai & di & field & Hi & Hreg & Hs & Hct & Htf).
  exists ai, di, field. rewrite Hb. split; [done|]. split; [done|]. split; [|split].
  - intros struct Hin. destruct (Hs _ Hin) as (rir & p & Ho & Hp & Hr).
    exists rir, p. by rewrite Hb, Ha.
  - intros Hk. rewrite Ha. by apply Hct.
  - intros Hk. rewrite Ha. by apply Htf.
Qed.

Lemma deformable_register_full s s' a :
  deformable_register C settings img_crop a s = Ok s' ->
  deformable_registered C settings img_crop s s' a.
Proof.
  unfold deformable_register. intros H.
  apply bind_Ok in H as (s1 & H1 & H).
  assert (Hs1 : forall k, get_entry s1 a "RIR" k = get_entry s a "RIR" k).
  { intros k. rewrite (get_entry_set_stage _ _ _ _ _ _ _ _ H1), decide_False; [done|].
    by intros (_ & [=]). }
  apply bind_Ok in H as (atlas_image & Hi & H).
  apply bind_Ok in Hi as (e & He & Hi). apply as_image_Ok in Hi as ->.
  rewrite Hs1 in He.
  apply bind_Ok in H as ([deform_image field] & Hreg & H).
  apply bind_Ok in H as (s2 & H2 & H).
  apply bind_Ok in H as (s3 & H3 & H).
  assert (Hs3 : forall k, get_entry s3 a "RIR" k = get_entry s a "RIR" k).
  { intros k.
    rewrite (get_entry_set_entry _ _ _ _ _ _ _ _ _ H3), decide_False
      by (by intros (_ & [=] & _)).
    rewrite (get_entry_set_entry _ _ _ _ _ _ _ _ _ H2), decide_False
      by (by intros (_ & [=] & _)).
    apply Hs1. }
  pose proof (deformable_propagate_loop _ _ _ _ _ H) as [_ Hdone].
  exists atlas_image, deform_image, field.
  split; [done|]. split; [done|]. split; [|split].
  - intros struct Hin. destruct (Hdone _ Hin) as (rir & p & Ho & Hp & Hr).
    exists rir, p. by rewrite <- Hs3.
  - intros Hk. rewrite (deformable_propagate_loop_keys _ _ _ _ _ H) by done.
    rewrite (get_entry_set_entry _ _ _ _ _ _ _ _ _ H3), decide_False
      by (by intros (_ & _ & [=])).
    rewrite (get_entry_set_entry _ _ _ _ _ _ _ _ _ H2). by rewrite decide_True.
  - intros Hk. rewrite (deformable_propagate_loop_keys _ _ _ _ _ H) by done.
    rewrite (get_entry_set_entry _ _ _ _ _ _ _ _ _ H3). by rewrite decide_True.
Qed.

Lemma deformable_stage_full ids s s' :
  for_each ids (deformable_register C settings img_crop) s = Ok s' ->
  forall a, a ∈ ids -> deformable_registered C settings img_crop s s' a.
Proof.
  revert s'. induction ids as [|x l IH] using rev_ind; intros s' H a Hin.
  { by apply elem_of_nil in Hin. }
  rewrite for_each_app in H. apply bind_Ok in H as (s1 & H1 & Hx).
  cbn in Hx. apply bind_Ok in Hx as (s2 & Hx & [= ->]).
  destruct (decide (a = x)) as [->|Hne].
  - apply deformable_stage in H1 as [_ Hframe].
    apply (deformable_registered_frame s1 s s' s');
      [|done|by apply deformable_register_full].
    intros k. symmetry. by apply Hframe.
  - apply elem_of_app in Hin as [Hin|Hin]; [|by apply list_elem_of_singleton in Hin].
    apply deformable_register_spec in Hx as [_ Hframe].
    apply (deformable_registered_frame s s s1 s'); [done| |by apply IH].
    intros k. apply Hframe. by left.
Qed.

(** C9. When the registration stages return, every atlas of the configured
    list holds, for every configured structure, the label volume of its
    [Original] stage, under [RIR] that volume propagated through the rigid
    stage's transform, and under [DIR] the [RIR] volume propagated through the
    deformable stage's transform.  The rigid stage's transform is the one the
    rigid registration returned for the cropped target and the atlas's own
    [Original] image (with the atlas's guide structure, when one is
    configured); the deformable stage's transform is the field the deformable
    registration returned for the cropped target and the atlas's own [RIR]
    image.  Each is what the atlas stores under ["Transform"] in that stage,
    unless a structure is itself named ["Transform"] and takes that key. *)
Theorem structures_propagated (atlas_set registered : AtlasSet)
    (atlas_id struct : string) :
  register_atlases C settings img_crop atlas_set = Ok registered ->
  atlas_id ∈ atlasIdList settings ->
  struct ∈ atlasStructures settings ->
  exists atlas_image atlas_struct rigid_image initial_tfm
         rigid_atlas_image deform_image deform_field original rigid deformed,
    get_entry atlas_set atlas_id "Original" "CT Image" = Ok (EImage atlas_image) /\
    match truthy (guideStructure settings) with
    | Some guide_structure =>
        exists guide,
          get_entry atlas_set atlas_id "Original" guide_structure
            = Ok (EImage guide) /\
          atlas_struct = Some guide
    | None => atlas_struct = None
    end /\
    initial_registration C img_crop atlas_image atlas_struct (rigidOptions settings)
      (rigidTrace settings) (initialReg settings) = Ok (rigid_image, initial_tfm) /\
    ("Transform" ∉ atlasStructures settings ->
     get_entry registered atlas_id "RIR" "Transform" = Ok (ETransform initial_tfm)) /\
    get_entry registered atlas_id "RIR" "CT Image" = Ok (EImage rigid_atlas_image) /\
    ("CT Image" ∉ atlasStructures settings -> rigid_atlas_image = rigid_image) /\
    fast_symmetric_forces_demons_registration C img_crop rigid_atlas_image
      (resolutionStaging settings) (iterationStaging settings) (ncores settings)
      (deformableTrace settings) = Ok (deform_image, deform_field) /\
    ("Transform" ∉ atlasStructures settings ->
     get_entry registered atlas_id "DIR" "Transform" = Ok (EField deform_field)) /\
    get_entry registered atlas_id "Original" struct = Ok (EImage original) /\
    get_entry registered atlas_id "RIR" struct = Ok (EImage rigid) /\
    transform_propagation C img_crop original initial_tfm true sitkLinear = Ok rigid /\
    get_entry registered atlas_id "DIR" struct = Ok (EImage deformed) /\
    apply_field C rigid deform_field true sitkLinear = Ok deformed.
Proof.
  unfold register_atlases. intros H Hid Hstruct.
  apply bind_Ok in H as (s1 & Hrigid & Hdeform).
  destruct (rigid_stage_full _ _ _ Hrigid _ Hid)
    as (ai & ast & ri & tfm & Hi & Hg & Hreg & Hr & Hrct & Hrtf).
  destruct (deformable_stage_full _ _ _ Hdeform _ Hid)
    as (rai & di & field & Hrai & Hdem & Hd & Hdct & Hdtf).
  apply rigid_stage in Hrigid as [_ Hframe1].
  apply deformable_stage in Hdeform as [_ Hframe2].
  destruct (Hr _ Hstruct) as (orig & p & Ho & Hp & Hrir).
  destruct (Hd _ Hstruct) as (rir & q & Hrir' & Hq & Hdir).
  rewrite Hrir in Hrir'. injection Hrir' as <-.
  exists ai, ast, ri, tfm, rai, di, field, orig, p, q.
  rewrite !(Hframe2 atlas_id "RIR") by done.
  rewrite (Hframe2 atlas_id "Original"), (Hframe1 atlas_id "Original") by done.
  repeat (split; [done|]). split.
  { intros Hk. specialize (Hrct Hk). rewrite Hrai in Hrct. by injection Hrct. }
  repeat (split; [done|]). done.
Qed.
End Registration.

(** C9 on the sample run, for atlas 08 and the whole heart. *)
Lemma structures_propagated_sample :
  let C := Sample.collaborators Sample.lung_box in
  let fs := Sample.files (Sample.constant_image 2 2 2 5) in
  let atlas_set := Sample.atlas_set fs in
  let registered :=
    Sample.unwrap (register_atlases C Sample.settings Sample.img_crop atlas_set) in
  exists atlas_image atlas_struct rigid_image initial_tfm
         rigid_atlas_image deform_image deform_field original rigid deformed,
    get_entry atlas_set "08" "Original" "CT Image" = Ok (EImage atlas_image) /\
    atlas_struct = None /\
    initial_registration C Sample.img_crop atlas_image atlas_struct
      (rigidOptions Sample.settings) (rigidTrace Sample.settings)
      (initialReg Sample.settings) = Ok (rigid_image, initial_tfm) /\
    ("Transform" ∉ atlasStructures Sample.settings ->
     get_entry registered "08" "RIR" "Transform" = Ok (ETransform initial_tfm)) /\
    get_entry registered "08" "RIR" "CT Image" = Ok (EImage rigid_atlas_image) /\
    ("CT Image" ∉ atlasStructures Sample.settings -> rigid_atlas_image = rigid_image) /\
    fast_symmetric_forces_demons_registration C Sample.img_crop rigid_atlas_image
      (resolutionStaging Sample.settings) (iterationStaging Sample.settings)
      (ncores Sample.settings) (deformableTrace Sample.settings)
      = Ok (deform_image, deform_field) /\
    ("Transform" ∉ atlasStructures Sample.settings ->
     get_entry registered "08" "DIR" "Transform" = Ok (EField deform_field)) /\
    get_entry registered "08" "Original" "WHOLEHEART" = Ok (EImage original) /\
    get_entry registered "08" "RIR" "WHOLEHEART" = Ok (EImage rigid) /\
    transform_propagation C Sample.img_crop original initial_tfm true sitkLinear
      = Ok rigid /\
    get_entry registered "08" "DIR" "WHOLEHEART" = Ok (EImage deformed) /\
    apply_field C rigid deform_field true sitkLinear = Ok deformed.
Proof.
  intros C fs atlas_set registered.
  apply (structures_propagated C Sample.settings Sample.img_crop atlas_set registered
           "08" "WHOLEHEART").
  - vm_cast_no_check (eq_refl (Ok registered)).
  - apply list_elem_of_here.
  - apply list_elem_of_here.
Defined.



(** ** The atlas set after the weight maps *)

Section Weighting.
Context (C : Collaborators) (settings : Settings).
Variable img_crop : Image Z.

Lemma weight_map_atlas_spec s s' a :
  weight_map_atlas C img_crop a s = Ok s' ->
  forall a' st' k', st' <> "DIR" \/ k' <> "Weight Map" ->
    get_entry s' a' st' k' = get_entry s a' st' k'.
Proof.
  unfold weight_map_atlas. intros H a' st' k' Hne.
  apply bind_Ok in H as (atlas_image & _ & H).
  apply bind_Ok in H as (weight_map & _ & H).
  rewrite (get_entry_set_entry _ _ _ _ _ _ _ _ _ H), decide_False; [done|].
  intros (_ & -> & ->). by destruct Hne.
Qed.

Lemma weight_map_stage ids s s' :
  for_each ids (weight_map_atlas C img_crop) s = Ok s' ->
  forall a' st' k', st' <> "DIR" \/ k' <> "Weight Map" ->
    get_entry s' a' st' k' = get_entry s a' st' k'.
Proof.
  revert s. induction ids as [|x ids IH]; intros s H a' st' k' Hne.
  - cbn in H. by injection H as <-.
  - cbn in H. apply bind_Ok in H as (s1 & Hx & H).
    rewrite (IH _ H) by done. by apply (weight_map_atlas_spec s s1 x).
Qed.

(** The weight maps leave the propagated structures in place: what C9 says
    of the registered atlas set still holds of the set handed to the outlier
    rejection, for every structure that is not named like the weight map. *)
Lemma structures_kept_under_weight_maps (atlas_set registered weighted : AtlasSet)
    (atlas_id struct : string) :
  register_atlases C settings img_crop atlas_set = Ok registered ->
  for_each (atlasIdList settings) (weight_map_atlas C img_crop) registered
    = Ok weighted ->
  atlas_id ∈ atlasIdList settings ->
  struct ∈ atlasStructures settings ->
  struct <> "Weight Map" ->
  exists original rigid deformed,
    get_entry weighted atlas_id "Original" struct = Ok (EImage original) /\
    get_entry weighted atlas_id "RIR" struct = Ok (EImage rigid) /\
    get_entry weighted atlas_id "DIR" struct = Ok (EImage deformed).
Proof.
  intros Hreg Hw Hid Hstruct Hne.
  unfold register_atlases in Hreg.
  apply bind_Ok in Hreg as (s1 & Hrigid & Hdeform).
  apply rigid_stage in Hrigid as [Hr _].
  apply deformable_stage in Hdeform as [Hd Hframe].
  specialize (Hr _ Hid). specialize (Hd _ Hid).
  apply (rigid_done_frame _ _ _ _ registered) in Hr; [|intros; by apply Hframe].
  destruct Hr as (_ & _ & _ & tfm & _ & Hr).
  destruct Hd as (_ & _ & field & _ & Hd).
  destruct (Hr _ Hstruct) as (orig & p & Ho & _ & Hrir).
  destruct (Hd _ Hstruct) as (rir & q & _ & _ & Hdir).
  exists orig, p, q.
  rewrite !(weight_map_stage _ _ _ Hw) by (by right). done.
Qed.
End Weighting.

(** ** The registration stages return *)



Lemma holds_image_has_stage s a st k : holds_image s a st k -> has_stage s a st.
Proof.
  intros [image H]. unfold get_entry, getitem in H.
  destruct (s !! a) as [record|] eqn:Ha; cbn in H; [|done].
  destruct (record !! st) as [sd|] eqn:Hst; cbn in H; [|done].
  by exists record, sd.
Qed.

Lemma set_stage_Ok (s : AtlasSet) a st st0 d :
  has_stage s a st0 ->
  exists s', set_stage s a st d = Ok s' /\ has_stage s' a st.
Proof.
  intros (record & sd & Ha & _). unfold set_stage, getitem. rewrite Ha. cbn.
  eexists. split; [done|]. eexists _, d. by rewrite !lookup_insert_eq.
Qed.

Lemma set_entry_Ok (s : AtlasSet) a st k v :
  has_stage s a st ->
  exists s', set_entry s a st k v = Ok s' /\ has_stage s' a st.
Proof.
  intros (record & sd & Ha & Hst). unfold set_entry, getitem. rewrite Ha. cbn.
  rewrite Hst. cbn. eexists. split; [done|].
  eexists _, _. by rewrite !lookup_insert_eq.
Qed.

Lemma holds_image_set_entry (s s' : AtlasSet) a st k image a' st' k' :
  set_entry s a st k (EImage image) = Ok s' ->
  holds_image s a' st' k' -> holds_image s' a' st' k'.
Proof.
  intros H [old Hold]. unfold holds_image.
  rewrite (get_entry_set_entry _ _ _ _ _ _ _ _ _ H). case_decide; eauto.
Qed.

Section Totality.
Context (C : Collaborators) (settings : Settings).
Variable img_crop : Image Z.

(** The registration collaborators answer on every input. *)
Hypothesis initial_registration_total :
  forall fixed moving moving_structure,
    is_Ok (initial_registration C fixed moving moving_structure
             (rigidOptions settings) (rigidTrace settings) (initialReg settings))
    = true.
Hypothesis transform_propagation_total :
  forall fixed moving tfm,
    is_Ok (transform_propagation C fixed moving tfm true sitkLinear) = true.
Hypothesis demons_total :
  forall fixed moving,
    is_Ok (fast_symmetric_forces_demons_registration C fixed moving
             (resolutionStaging settings) (iterationStaging settings)
             (ncores settings) (deformableTrace settings)) = true.
Hypothesis apply_field_total :
  forall image field, is_Ok (apply_field C image field true sitkLinear) = true.

Lemma is_Ok_true {A} (r : result A) : is_Ok r = true -> exists a, r = Ok a.
Proof. destruct r; [eauto | done]. Qed.

Lemma rigid_propagate_loop_Ok structs s a tfm :
  has_stage s a "RIR" ->
  (forall struct, struct ∈ structs -> holds_image s a "Original" struct) ->
  exists s', for_each structs (rigid_propagate C img_crop a tfm) s = Ok s'.
Proof.
  revert s. induction structs as [|x l IH]; intros s Hstage Horig; cbn; [eauto|].
  destruct (Horig x) as [orig Ho]; [apply list_elem_of_here|].
  destruct (is_Ok_true _ (transform_propagation_total img_crop orig tfm)) as [p Hp].
  destruct (set_entry_Ok s a "RIR" x (EImage p) Hstage) as (s1 & Hs1 & Hstage1).
  assert (Hx : rigid_propagate C img_crop a tfm x s = Ok s1).
  { unfold rigid_propagate. rewrite Ho. cbn. rewrite Hp. cbn. exact Hs1. }
  rewrite Hx. cbn. apply IH; [done|].
  intros struct Hin. apply (holds_image_set_entry _ _ _ _ _ _ _ _ _ Hs1).
  apply Horig. by apply list_elem_of_further.
Qed.

Lemma rigid_propagate_holds structs s s' a tfm a' st' k' :
  for_each structs (rigid_propagate C img_crop a tfm) s = Ok s' ->
  holds_image s a' st' k' -> holds_image s' a' st' k'.
Proof.
  revert s. induction structs as [|x l IH]; intros s H Hold.
  - cbn in H. by injection H as <-.
  - cbn in H. apply bind_Ok in H as (s1 & Hx & H). apply (IH _ H).
    unfold rigid_propagate in Hx.
    apply bind_Ok in Hx as (orig & _ & Hx). apply bind_Ok in Hx as (p & _ & Hx).
    by apply (holds_image_set_entry _ _ _ _ _ _ _ _ _ Hx).
Qed.

Lemma deformable_propagate_holds structs s s' a field a' st' k' :
  for_each structs (deformable_propagate C a field) s = Ok s' ->
  holds_image s a' st' k' -> holds_image s' a' st' k'.
Proof.
  revert s. induction structs as [|x l IH]; intros s H Hold.
  - cbn in H. by injection H as <-.
  - cbn in H. apply bind_Ok in H as (s1 & Hx & H). apply (IH _ H).
    unfold deformable_propagate in Hx.
    apply bind_Ok in Hx as (orig & _ & Hx). apply bind_Ok in Hx as (p & _ & Hx).
    by apply (holds_image_set_entry _ _ _ _ _ _ _ _ _ Hx).
Qed.

(** The registered image of an atlas is in its [RIR] stage. *)
Lemma rigid_register_image s s' a :
  rigid_register C settings img_crop a s = Ok s' ->
  holds_image s' a "RIR" "CT Image".
Proof.
  unfold rigid_register. intros H.
  apply bind_Ok in H as (s1 & H1 & H).
  apply bind_Ok in H as (atlas_image & _ & H).
  apply bind_Ok in H as (atlas_struct & _ & H).
  apply bind_Ok in H as ([rigid_image tfm] & Hreg & H).
  apply bind_Ok in H as (s2 & H2 & H).
  apply bind_Ok in H as (s3 & H3 & H).
  apply (rigid_propagate_holds _ _ _ _ _ _ _ _ H).
  exists rigid_image.
  rewrite (get_entry_set_entry _ _ _ _ _ _ _ _ _ H3), decide_False
    by (by intros (_ & _ & [=])).
  rewrite (get_entry_set_entry _ _ _ _ _ _ _ _ _ H2). by rewrite decide_True.
Qed.

Lemma rigid_stage_image ids s s' :
  for_each ids (rigid_register C settings img_crop) s = Ok s' ->
  forall a, a ∈ ids -> holds_image s' a "RIR" "CT Image".
Proof.
  revert s'. induction ids as [|x l IH] using rev_ind; intros s' H a Hin.
  { by apply elem_of_nil in Hin. }
  rewrite for_each_app in H. apply bind_Ok in H as (s1 & H1 & Hx).
  cbn in Hx. apply bind_Ok in Hx as (s2 & Hx & [= ->]).
  destruct (decide (a = x)) as [->|Hne]; [by apply (rigid_register_image s1)|].
  apply elem_of_app in Hin as [Hin|Hin]; [|by apply list_elem_of_singleton in Hin].
  destruct (IH _ H1 _ Hin) as [image Himage]. exists image.
  apply rigid_register_spec in Hx as [_ Hframe]. rewrite Hframe; [done | by left].
Qed.


Lemma original_complete_frame s s' a :
  (forall k, get_entry s' a "Original" k = get_entry s a "Original" k) ->
  original_complete settings s a -> original_complete settings s' a.
Proof.
  intros Hframe (Hct & Hstructs & Hguide). unfold original_complete, holds_image in *.
  repeat split; intros; rewrite Hframe; eauto.
Qed.

Lemma rigid_register_Ok s a :
  original_complete settings s a ->
  exists s', rigid_register C settings img_crop a s = Ok s'.
Proof.
  intros Horig. pose proof Horig as (Hct & _ & _).
  apply holds_image_has_stage in Hct.
  destruct (set_stage_Ok s a "RIR" "Original" ∅ Hct) as (s1 & H1 & Hstage1).
  assert (Horig1 : original_complete settings s1 a).
  { apply (original_complete_frame s); [|done]. intros k.
    rewrite (get_entry_set_stage _ _ _ _ _ _ _ _ H1), decide_False; [done|].
    by intros (_ & [=]). }
  destruct Horig1 as ([atlas_image Hct1] & Hstructs1 & Hguide1).
  assert (Hguide : exists atlas_struct,
            match truthy (guideStructure settings) with
            | Some guide_structure =>
                Some <$> (get_entry s1 a "Original" guide_structure ≫= as_image)
            | None => Ok None
            end = Ok atlas_struct).
  { destruct (truthy (guideStructure settings)) as [g|] eqn:Hg; [|eauto].
    destruct (Hguide1 g eq_refl) as [image Hg1]. rewrite Hg1. cbn. eauto. }
  destruct Hguide as [atlas_struct Hguide].
  destruct (is_Ok_true _ (initial_registration_total img_crop atlas_image atlas_struct))
    as [[rigid_image tfm] Hreg].
  destruct (set_entry_Ok s1 a "RIR" "CT Image" (EImage rigid_image) Hstage1)
    as (s2 & H2 & Hstage2).
  destruct (set_entry_Ok s2 a "RIR" "Transform" (ETransform tfm) Hstage2)
    as (s3 & H3 & Hstage3).
  destruct (rigid_propagate_loop_Ok (atlasStructures settings) s3 a tfm Hstage3)
    as [s' Hloop].
  { intros struct Hin. destruct (Hstructs1 _ Hin) as [image Himage]. exists image.
    rewrite (get_entry_set_entry _ _ _ _ _ _ _ _ _ H3), decide_False
      by (by intros (_ & [=] & _)).
    rewrite (get_entry_set_entry _ _ _ _ _ _ _ _ _ H2), decide_False
      by (by intros (_ & [=] & _)).
    done. }
  exists s'. unfold rigid_register. rewrite H1. cbn. rewrite Hct1. cbn.
  rewrite Hguide. cbn. rewrite Hreg. cbn. rewrite H2. cbn. rewrite H3. cbn.
  exact Hloop.
Qed.

Lemma rigid_stage_Ok ids s :
  (forall a, a ∈ ids -> original_complete settings s a) ->
  exists s', for_each ids (rigid_register C settings img_crop) s = Ok s'.
Proof.
  revert s. induction ids as [|x l IH]; intros s Horig; cbn; [eauto|].
  destruct (rigid_register_Ok s x) as [s1 Hx]; [apply Horig, list_elem_of_here|].
  rewrite Hx. cbn. apply IH. intros a Hin.
  apply (original_complete_frame s); [|by apply Horig, list_elem_of_further].
  intros k. apply rigid_register_spec in Hx as [_ Hframe].
  apply Hframe. right. by intros [=].
Qed.

Lemma deformable_propagate_loop_Ok structs s a field :
  has_stage s a "DIR" ->
  (forall struct, struct ∈ structs -> holds_image s a "RIR" struct) ->
  exists s', for_each structs (deformable_propagate C a field) s = Ok s'.
Proof.
  revert s. induction structs as [|x l IH]; intros s Hstage Hrir; cbn; [eauto|].
  destruct (Hrir x) as [rir Hr]; [apply list_elem_of_here|].
  destruct (is_Ok_true _ (apply_field_total rir field)) as [p Hp].
  destruct (set_entry_Ok s a "DIR" x (EImage p) Hstage) as (s1 & Hs1 & Hstage1).
  assert (Hx : deformable_propagate C a field x s = Ok s1).
  { unfold deformable_propagate. rewrite Hr. cbn. rewrite Hp. cbn. exact Hs1. }
  rewrite Hx. cbn. apply IH; [done|].
  intros struct Hin. apply (holds_image_set_entry _ _ _ _ _ _ _ _ _ Hs1).
  apply Hrir. by apply list_elem_of_further.
Qed.


Lemma rigid_complete_frame s s' a :
  (forall k, get_entry s' a "RIR" k = get_entry s a "RIR" k) ->
  rigid_complete settings s a -> rigid_complete settings s' a.
Proof.
  intros Hframe (Hct & Hstructs). unfold rigid_complete, holds_image in *.
  repeat split; intros; rewrite Hframe; eauto.
Qed.

Lemma deformable_register_Ok s a :
  rigid_complete settings s a ->
  exists s', deformable_register C settings img_crop a s = Ok s'.
Proof.
  intros Hrigid. pose proof Hrigid as (Hct & _).
  apply holds_image_has_stage in Hct.
  destruct (set_stage_Ok s a "DIR" "RIR" ∅ Hct) as (s1 & H1 & Hstage1).
  assert (Hrigid1 : rigid_complete settings s1 a).
  { apply (rigid_complete_frame s); [|done]. intros k.
    rewrite (get_entry_set_stage _ _ _ _ _ _ _ _ H1), decide_False; [done|].
    by intros (_ & [=]). }
  destruct Hrigid1 as ([atlas_image Hct1] & Hstructs1).
  destruct (is_Ok_true _ (demons_total img_crop atlas_image))
    as [[deform_image field] Hreg].
  destruct (set_entry_Ok s1 a "DIR" "CT Image" (EImage deform_image) Hstage1)
    as (s2 & H2 & Hstage2).
  destruct (set_entry_Ok s2 a "DIR" "Transform" (EField field) Hstage2)
    as (s3 & H3 & Hstage3).
  destruct (deformable_propagate_loop_Ok (atlasStructures settings) s3 a field Hstage3)
    as [s' Hloop].
  { intros struct Hin. destruct (Hstructs1 _ Hin) as [image Himage]. exists image.
    rewrite (get_entry_set_entry _ _ _ _ _ _ _ _ _ H3), decide_False
      by (by intros (_ & [=] & _)).
    rewrite (get_entry_set_entry _ _ _ _ _ _ _ _ _ H2), decide_False
      by (by intros (_ & [=] & _)).
    done. }
  exists s'. unfold deformable_register. rewrite H1. cbn. rewrite Hct1. cbn.
  rewrite Hreg. cbn. rewrite H2. cbn. rewrite H3. cbn. exact Hloop.
Qed.

Lemma deformable_stage_Ok ids s :
  (forall a, a ∈ ids -> rigid_complete settings s a) ->
  exists s', for_each ids (deformable_register C settings img_crop) s = Ok s'.
Proof.
  revert s. induction ids as [|x l IH]; intros s Hrigid; cbn; [eauto|].
  destruct (deformable_register_Ok s x) as [s1 Hx]; [apply Hrigid, list_elem_of_here|].
  rewrite Hx. cbn. apply IH. intros a Hin.
  apply (rigid_complete_frame s); [|by apply Hrigid, list_elem_of_further].
  intros k. apply deformable_register_spec in Hx as [_ Hframe].
  apply Hframe. right. by intros [=].
Qed.

(** The registration stages return when every atlas of the list has its
    image, its structures and the guide structure in its [Original] stage. *)
Lemma register_atlases_returns (atlas_set : AtlasSet) :
  (forall a, a ∈ atlasIdList settings -> original_complete settings atlas_set a) ->
  exists registered, register_atlases C settings img_crop atlas_set = Ok registered.
Proof.
  intros Horig. unfold register_atlases.
  destruct (rigid_stage_Ok _ _ Horig) as [s1 Hrigid]. rewrite Hrigid. cbn.
  apply deformable_stage_Ok. intros a Hin. split.
  - by apply (rigid_stage_image _ _ _ Hrigid).
  - intros struct Hstruct. apply rigid_stage in Hrigid as [Hdone _].
    destruct (Hdone _ Hin) as (ai & ast & ri & tfm & _ & Hd).
    destruct (Hd _ Hstruct) as (orig & p & _ & _ & Hp). by exists p.
Qed.
End Totality.

Lemma holds_image_b_true s a st k : holds_image_b s a st k = true -> holds_image s a st k.
Proof.
  unfold holds_image_b, holds_image.
  destruct (get_entry s a st k) as [[image| | |]|]; try done. eauto.
Qed.

Lemma original_complete_b_true settings s a :
  original_complete_b settings s a = true -> original_complete settings s a.
Proof.
  unfold original_complete_b. rewrite !andb_true_iff, forallb_forall.
  intros [[Hct Hstructs] Hguide]. split; [|split].
  - by apply holds_image_b_true.
  - intros struct Hin. apply holds_image_b_true, Hstructs. by apply list_elem_of_In.
  - intros g Hg. rewrite Hg in Hguide. by apply holds_image_b_true.
Qed.

(** The registration stages return on the atlas set of the sample run. *)
Lemma register_atlases_returns_sample :
  let C := Sample.steady_collaborators Sample.lung_box in
  let fs := Sample.files (Sample.constant_image 2 2 2 5) in
  exists registered,
    register_atlases C Sample.settings Sample.img_crop (Sample.atlas_set fs)
    = Ok registered.
Proof.
  intros C fs. apply register_atlases_returns; try (intros; reflexivity).
  intros a Ha. apply original_complete_b_true. revert a Ha.
  assert (Hall : forallb (original_complete_b Sample.settings (Sample.atlas_set fs))
                   (atlasIdList Sample.settings) = true)
    by (vm_compute; reflexivity).
  rewrite forallb_forall in Hall. intros a Ha. by apply Hall, list_elem_of_In.
Defined.

(** ** The service monad *)

Lemma M_bind_unfold {A B} (m : M A) (k : A -> M B) (fs : Files) :
  (m ≫= k) fs =
  match m fs with
  | (fs', Ok a) => k a fs'
  | (fs', Raise e) => (fs', Raise e)
  end.
Proof. reflexivity. Qed.

Lemma M_bind_Ok {A B} (m : M A) (k : A -> M B) (fs fs' : Files) (b : B) :
  (m ≫= k) fs = (fs', Ok b) ->
  exists fs1 a, m fs = (fs1, Ok a) /\ k a fs1 = (fs', Ok b).
Proof.
  rewrite M_bind_unfold. destruct (m fs) as [fs1 [a|e]]; [eauto | done].
Qed.

Lemma for_each_M_app {A S} (l1 l2 : list A) (body : A -> S -> M S) (s : S) (fs : Files) :
  for_each_M (l1 ++ l2) body s fs =
  (for_each_M l1 body s ≫= for_each_M l2 body) fs.
Proof.
  revert s fs. induction l1 as [|x l1 IH]; intros s fs; cbn [for_each_M app].
  - reflexivity.
  - rewrite !M_bind_unfold. destruct (body x s fs) as [fs1 [s1|e]]; [|done].
    rewrite IH. by rewrite M_bind_unfold.
Qed.


Lemma reads_only_lift {A} (r : result A) : reads_only (lift r).
Proof. intros fs fs' r' [= <- _]. done. Qed.

Lemma reads_only_ret {A} (a : A) : reads_only (mret a : M A).
Proof. intros fs fs' r' [= <- _]. done. Qed.

Lemma reads_only_ReadImage path : reads_only (ReadImage path).
Proof. intros fs fs' r' [= <- _]. done. Qed.

Lemma reads_only_bind {A B} (m : M A) (k : A -> M B) :
  reads_only m -> (forall a, reads_only (k a)) -> reads_only (m ≫= k).
Proof.
  intros Hm Hk fs fs' r. rewrite M_bind_unfold.
  destruct (m fs) as [fs1 [a|e]] eqn:E; apply Hm in E as ->.
  - apply Hk.
  - by intros [= <- _].
Qed.

Lemma reads_only_for_each {A S} (xs : list A) (body : A -> S -> M S) (s : S) :
  (forall x s, reads_only (body x s)) -> reads_only (for_each_M xs body s).
Proof.
  intros Hb. revert s. induction xs as [|x xs IH]; intros s; cbn [for_each_M].
  - apply reads_only_ret.
  - apply reads_only_bind; auto.
Qed.

Section Abort.
Context (C : Collaborators) (settings : Settings).

Lemma reads_only_read_atlases : reads_only (read_atlases settings).
Proof.
  apply reads_only_for_each. intros atlas_id s. unfold read_atlas.
  repeat (apply reads_only_bind; [|intros ?]);
    try apply reads_only_lift; try apply reads_only_ReadImage.
  apply reads_only_for_each. intros struct s'.
  apply reads_only_bind; [apply reads_only_ReadImage|]. intros. apply reads_only_lift.
Qed.

Lemma reads_only_prepare_target d : reads_only (prepare_target C settings d).
Proof.
  unfold prepare_target.
  apply reads_only_bind.
  { destruct (String.eqb _ _); [|apply reads_only_ReadImage]. by intros fs fs' r [= <- _]. }
  intros img. apply reads_only_bind; [apply reads_only_read_atlases|]. intros s.
  apply reads_only_bind; [apply reads_only_lift|]. intros [crop lmo].
  apply reads_only_bind; [apply reads_only_lift|]. intros img_crop.
  apply reads_only_bind; [apply reads_only_lift|]. intros lung_mask.
  apply reads_only_ret.
Qed.

(** A registration stage that raises at one atlas raises as a whole. *)
Lemma register_atlases_raise (img_crop : Image Z) (atlas_set s1 : AtlasSet)
    (before after : list string) (atlas_id : string) (e : Exception) :
  atlasIdList settings = (before ++ atlas_id :: after)%list ->
  (for_each before (rigid_register C settings img_crop) atlas_set = Ok s1 /\
   rigid_register C settings img_crop atlas_id s1 = Raise e) \/
  (exists s0,
     for_each (atlasIdList settings) (rigid_register C settings img_crop) atlas_set
       = Ok s0 /\
     for_each before (deformable_register C settings img_crop) s0 = Ok s1 /\
     deformable_register C settings img_crop atlas_id s1 = Raise e) ->
  register_atlases C settings img_crop atlas_set = Raise e.
Proof.
  intros Hids [[H1 Hx]|(s0 & H0 & H1 & Hx)]; unfold register_atlases.
  - rewrite Hids. by rewrite (for_each_raise _ _ _ _ _ _ _ H1 Hx).
  - rewrite H0. cbn. rewrite Hids. by apply (for_each_raise _ _ _ _ _ s1).
Qed.

(** A registration collaborator that raises on the image of an atlas makes
    the registration of that atlas raise: nothing in the loop body catches
    the exception. *)
Lemma rigid_register_raises (img_crop : Image Z) (s : AtlasSet) (a : string)
    (atlas_image : Image Z) (atlas_struct : option (Image Z)) (e : Exception) :
  get_entry s a "Original" "CT Image" = Ok (EImage atlas_image) ->
  match truthy (guideStructure settings) with
  | Some guide_structure =>
      exists guide,
        get_entry s a "Original" guide_structure = Ok (EImage guide) /\
        atlas_struct = Some guide
  | None => atlas_struct = None
  end ->
  initial_registration C img_crop atlas_image atlas_struct (rigidOptions settings)
    (rigidTrace settings) (initialReg settings) = Raise e ->
  rigid_register C settings img_crop a s = Raise e.
Proof.
  intros Hi Hg Hreg.
  destruct (set_stage_Ok s a "RIR" "Original" ∅) as (s1 & H1 & _).
  { apply (holds_image_has_stage _ _ _ "CT Image"). by exists atlas_image. }
  assert (Hs1 : forall k, get_entry s1 a "Original" k = get_entry s a "Original" k).
  { intros k. rewrite (get_entry_set_stage _ _ _ _ _ _ _ _ H1), decide_False; [done|].
    by intros (_ & [=]). }
  unfold rigid_register. rewrite H1. cbn. rewrite Hs1, Hi. cbn.
  destruct (truthy (guideStructure settings)) as [g|].
  - destruct Hg as (guide & Hg & ->). rewrite Hs1, Hg. cbn. by rewrite Hreg.
  - subst atlas_struct. cbn. by rewrite Hreg.
Qed.

Lemma deformable_register_raises (img_crop : Image Z) (s : AtlasSet) (a : string)
    (atlas_image : Image Z) (e : Exception) :
  get_entry s a "RIR" "CT Image" = Ok (EImage atlas_image) ->
  fast_symmetric_forces_demons_registration C img_crop atlas_image
    (resolutionStaging settings) (iterationStaging settings) (ncores settings)
    (deformableTrace settings) = Raise e ->
  deformable_register C settings img_crop a s = Raise e.
Proof.
  intros Hi Hreg.
  destruct (set_stage_Ok s a "DIR" "RIR" ∅) as (s1 & H1 & _).
  { apply (holds_image_has_stage _ _ _ "CT Image"). by exists atlas_image. }
  unfold deformable_register. rewrite H1. cbn.
  rewrite (get_entry_set_stage _ _ _ _ _ _ _ _ H1), decide_False
    by (by intros (_ & [=])).
  rewrite Hi. cbn. by rewrite Hreg.
Qed.

(** C6, as amended.  When the rigid registration collaborator raises on the
    [Original] image of one atlas (after the atlases before it registered),
    or the deformable registration collaborator raises on the [RIR] image of
    one atlas (after the whole rigid loop and the deformable registration of
    the atlases before it), nothing catches the exception: the run for that
    target raises it, leaving the file store as it was, and the service ends
    with it; the targets after it are not processed.  Nothing is excluded
    either: the atlas set reached when the collaborator raised holds every
    atlas that was read, whatever transforms were returned for the atlases
    before it. *)
Theorem registration_failure_aborts_run
    (processed rest : list DataObject) (data_object : DataObject)
    (working_dir : string) (fs0 fs fs1 : Files) (output_objects : list DataObject)
    (img img_crop : Image Z) (crop : Box) (atlas_set s1 : AtlasSet)
    (before after : list string) (atlas_id : string) (e : Exception) :
  for_each_M processed (segment_target C settings working_dir) [] fs0
    = (fs, Ok output_objects) ->
  prepare_target C settings data_object fs = (fs1, Ok (img, crop, img_crop, atlas_set)) ->
  atlasIdList settings = (before ++ atlas_id :: after)%list ->
  (for_each before (rigid_register C settings img_crop) atlas_set = Ok s1 /\
   exists atlas_image atlas_struct,
     get_entry atlas_set atlas_id "Original" "CT Image" = Ok (EImage atlas_image) /\
     match truthy (guideStructure settings) with
     | Some guide_structure =>
         exists guide,
           get_entry atlas_set atlas_id "Original" guide_structure
             = Ok (EImage guide) /\
           atlas_struct = Some guide
     | None => atlas_struct = None
     end /\
     initial_registration C img_crop atlas_image atlas_struct (rigidOptions settings)
       (rigidTrace settings) (initialReg settings) = Raise e) \/
  (exists s0 atlas_image,
     for_each (atlasIdList settings) (rigid_register C settings img_crop) atlas_set
       = Ok s0 /\
     for_each before (deformable_register C settings img_crop) s0 = Ok s1 /\
     get_entry s0 atlas_id "RIR" "CT Image" = Ok (EImage atlas_image) /\
     fast_symmetric_forces_demons_registration C img_crop atlas_image
       (resolutionStaging settings) (iterationStaging settings) (ncores settings)
       (deformableTrace settings) = Raise e) ->
  segment_target C settings working_dir data_object output_objects fs
    = (fs, Raise e) /\
  cardiac_service C settings (processed ++ data_object :: rest) working_dir fs0
    = (fs, Raise e) /\
  forall a, is_Some (s1 !! a) <-> is_Some (atlas_set !! a).
Proof.
  intros Hdone Hprep Hids Hfail.
  assert (Hstep :
    (for_each before (rigid_register C settings img_crop) atlas_set = Ok s1 /\
     rigid_register C settings img_crop atlas_id s1 = Raise e) \/
    (exists s0,
       for_each (atlasIdList settings) (rigid_register C settings img_crop) atlas_set
         = Ok s0 /\
       for_each before (deformable_register C settings img_crop) s0 = Ok s1 /\
       deformable_register C settings img_crop atlas_id s1 = Raise e)).
  { destruct Hfail as [(H1 & ai & ast & Hi & Hg & Hreg)|(s0 & ai & H0 & H1 & Hi & Hreg)].
    - left. split; [done|].
      pose proof (rigid_stage _ _ _ _ _ _ H1) as [_ Hframe].
      apply (rigid_register_raises img_crop s1 atlas_id ai ast); [|..|done].
      + by rewrite Hframe.
      + destruct (truthy (guideStructure settings)) as [g|]; [|done].
        destruct Hg as (guide & Hg & ->). exists guide. by rewrite Hframe.
    - right. exists s0. split; [done|]. split; [done|].
      pose proof (deformable_stage _ _ _ _ _ _ H1) as [_ Hframe].
      apply (deformable_register_raises img_crop s1 atlas_id ai); [|done].
      by rewrite Hframe. }
  assert (Hdom : dom s1 = dom atlas_set).
  { destruct Hfail as [(H1 & _)|(s0 & _ & H0 & H1 & _)].
    - by apply (for_each_dom _ _
                  (fun x s s' => rigid_register_dom C settings img_crop s s' x)) in H1.
    - apply (for_each_dom _ _
               (fun x s s' => rigid_register_dom C settings img_crop s s' x)) in H0.
      apply (for_each_dom _ _
               (fun x s s' => deformable_register_dom C settings img_crop s s' x)) in H1.
      by rewrite H1. }
  pose proof (register_atlases_raise _ _ _ _ _ _ _ Hids Hstep) as Hreg.
  assert (fs1 = fs) as -> by (eapply reads_only_prepare_target; eauto).
  assert (Hseg : segment_target C settings working_dir data_object output_objects fs
                 = (fs, Raise e)).
  { unfold segment_target. rewrite M_bind_unfold, Hprep. cbn beta iota.
    rewrite M_bind_unfold. unfold lift. by rewrite Hreg. }
  split; [done|]. split.
  - unfold cardiac_service. rewrite for_each_M_app, M_bind_unfold, Hdone.
    cbn [for_each_M]. rewrite M_bind_unfold. by rewrite Hseg.
  - intros a. by rewrite <- !elem_of_dom, Hdom.
Qed.
End Abort.

(** C6, counterexample.  In the sample run the rigid registration succeeds
    on the image of every atlas but atlas 11.  The failure is not caught: the
    service raises the exception of that registration, returns no output
    object and writes no mask, although four atlases registered. *)
Lemma failed_registration_stops_sample_run :
  let C := Sample.collaborators Sample.lung_box in
  let fs := Sample.files Sample.unreadable_atlas in
  let register atlas_image :=
    initial_registration C Sample.img_crop atlas_image None
      (rigidOptions Sample.settings) (rigidTrace Sample.settings)
      (initialReg Sample.settings) in
  let run := cardiac_service C Sample.settings [Sample.target] "/out" fs in
  register (Sample.constant_image 2 2 2 5) = Ok (Sample.img_crop, [1%Q]) /\
  register Sample.unreadable_atlas = Raise (RuntimeError "initial_registration") /\
  snd run = Raise (RuntimeError "initial_registration") /\
  fst run !! "/out/Auto_WHOLEHEART.nii.gz" = None /\
  fst run !! "/out/Auto_LANTDESCARTERY.nii.gz" = None.
Proof. repeat split; vm_compute; reflexivity. Qed.

(** C6 as amended, on the same run: atlas 08 registers, the rigid
    registration raises on the image of atlas 11. *)
Lemma registration_failure_aborts_sample_run :
  let C := Sample.collaborators Sample.lung_box in
  let fs := Sample.files Sample.unreadable_atlas in
  let s1 :=
    Sample.unwrap
      (for_each ["08"] (rigid_register C Sample.settings Sample.img_crop)
         (Sample.atlas_set fs)) in
  segment_target C Sample.settings "/out" Sample.target [] fs
    = (fs, Raise (RuntimeError "initial_registration")) /\
  cardiac_service C Sample.settings ([] ++ Sample.target :: []) "/out" fs
    = (fs, Raise (RuntimeError "initial_registration")) /\
  forall a, is_Some (s1 !! a) <-> is_Some (Sample.atlas_set fs !! a).
Proof.
  intros C fs s1.
  assert (Hprep : snd (prepare_target C Sample.settings Sample.target fs)
                  = Ok (Sample.img, Sample.crop, Sample.img_crop, Sample.atlas_set fs)).
  { vm_cast_no_check
      (eq_refl (Ok (Sample.img, Sample.crop, Sample.img_crop, Sample.atlas_set fs))). }
  destruct (prepare_target C Sample.settings Sample.target fs) as [fs1 r] eqn:E.
  cbn [snd] in Hprep. subst r.
  apply (registration_failure_aborts_run C Sample.settings [] [] Sample.target
           "/out" fs fs fs1 [] Sample.img Sample.img_crop Sample.crop
           (Sample.atlas_set fs) s1 ["08"] ["12"; "13"; "14"] "11").
  - reflexivity.
  - exact E.
  - reflexivity.
  - left. split.
    + vm_cast_no_check (eq_refl (Ok s1)).
    + exists Sample.unreadable_atlas, None. split; [|split].
      * vm_cast_no_check (eq_refl (Ok (EImage Sample.unreadable_atlas))).
      * reflexivity.
      * reflexivity.
Defined.

(** ** Output files *)



Lemma lift_Ok {A} (r : result A) (fs fs' : Files) (a : A) :
  lift r fs = (fs', Ok a) -> fs' = fs /\ r = Ok a.
Proof. unfold lift. by intros [= <- ->]. Qed.


(** A loop whose steps write files that satisfy [Q] leaves every file either
    as it was or satisfying [Q]. *)
Lemma for_each_M_files {A S} (Q : string -> Image Z -> Prop)
    (xs : list A) (body : A -> S -> M S) :
  (forall x s fs fs' s', x ∈ xs -> body x s fs = (fs', Ok s') ->
     forall p, fs' !! p = fs !! p \/ exists image, fs' !! p = Some image /\ Q p image) ->
  forall s fs fs' s', for_each_M xs body s fs = (fs', Ok s') ->
    forall p, fs' !! p = fs !! p \/ exists image, fs' !! p = Some image /\ Q p image.
Proof.
  induction xs as [|x xs IH]; intros Hbody s fs fs' s' H p.
  - cbn in H. injection H as <- _. by left.
  - cbn [for_each_M] in H. apply M_bind_Ok in H as (fs1 & s1 & Hx & Hrest).
    destruct (IH (fun y s fs fs' s' Hy => Hbody y s fs fs' s' (list_elem_of_further _ _ _ Hy))
                _ _ _ _ Hrest p) as [Heq|Hq]; [|by right].
    rewrite Heq. eapply Hbody; [|exact Hx]. apply list_elem_of_here.
Qed.

Lemma slice1_0_lookup {A} (n : Z) (l : list A) (i : Z) (x : A) :
  get1 (slice1 0 n l) i = Some x -> get1 l i = Some x.
Proof.
  unfold get1, slice1. case_decide; [|done]. cbn [Z.to_nat drop].
  intros Hs. destruct (decide (Z.to_nat i < Z.to_nat n)%nat).
  - by rewrite lookup_take_lt in Hs.
  - rewrite lookup_take_ge in Hs by lia. done.
Qed.

Lemma lookup3_slice3_0 {A} (n : Index) (v : list (list (list A))) (i : Index) (x : A) :
  lookup3 (slice3 (0, 0, 0) n v) i = Some x -> lookup3 v i = Some x.
Proof.
  unfold lookup3, slice3. cbn [ix0 ix1 ix2 fst snd]. intros Hs.
  destruct (get1 (map _ _) (ix0 i)) as [p|] eqn:Ep; cbn in Hs; [|done].
  unfold get1 in Ep. case_decide as Hi0; [|done]. rewrite list_lookup_fmap in Ep.
  destruct (slice1 0 (ix0 n) v !! Z.to_nat (ix0 i)) as [p0|] eqn:Ep0; cbn in Ep; [|done].
  injection Ep as <-.
  assert (Hp0 : get1 v (ix0 i) = Some p0).
  { apply (slice1_0_lookup (ix0 n)). unfold get1. by rewrite decide_True. }
  rewrite Hp0. cbn.
  destruct (get1 (map _ _) (ix1 i)) as [r|] eqn:Er; cbn in Hs; [|done].
  unfold get1 in Er. case_decide as Hi1; [|done]. rewrite list_lookup_fmap in Er.
  destruct (slice1 0 (ix1 n) p0 !! Z.to_nat (ix1 i)) as [r0|] eqn:Er0; cbn in Er; [|done].
  injection Er as <-.
  assert (Hr0 : get1 p0 (ix1 i) = Some r0).
  { apply (slice1_0_lookup (ix1 n)). unfold get1. by rewrite decide_True. }
  rewrite Hr0. cbn. by apply (slice1_0_lookup (ix2 n)).
Qed.

(** Every voxel of a mask pasted on the zero template is background or a
    voxel of the mask. *)
Lemma Paste_on_zero_template (img mask paste_img : Image Z) (offset : Index) :
  Paste (Cast_sitkUInt8 (Multiply img 0)) mask (GetSize mask) (0, 0, 0) offset
    = Ok paste_img ->
  forall i v, GetPixel paste_img i = Some v ->
    v = 0 \/ GetPixel mask (index_sub i offset) = Some v.
Proof.
  unfold Paste. destruct (region_within _ _ _); [|done]. intros [= <-] i v.
  unfold GetPixel at 1. cbn [voxels]. rewrite lookup3_paste3.
  unfold Cast_sitkUInt8, Multiply, map_voxels. cbn [voxels].
  rewrite !lookup3_map. destruct (lookup3 (voxels img) i) as [x|]; cbn; [|done].
  rewrite Z.mul_0_r. cbn.
  destruct (lookup3 (slice3 _ _ _) _) as [m|] eqn:Em; cbn; intros [= <-]; [|by left].
  right. by apply lookup3_slice3_0 in Em.
Qed.

Section Outputs.
Context (C : Collaborators) (settings : Settings).
Variables (data_object : DataObject) (working_dir : string).
Variables (img : Image Z) (offset : Index).

Lemma write_structure_files structure_name binary_struct outs fs fs' outs' :
  write_structure C settings data_object working_dir
    (Cast_sitkUInt8 (Multiply img 0)) offset structure_name binary_struct outs fs
  = (fs', Ok outs') ->
  forall p, fs' !! p = fs !! p \/
    exists paste_img, fs' !! p = Some paste_img /\
      composited C settings working_dir img offset structure_name binary_struct p paste_img.
Proof.
  unfold write_structure. intros H p.
  apply M_bind_Ok in H as (fs1 & paste_img & Hp & H). apply lift_Ok in Hp as [-> Hp].
  apply M_bind_Ok in H as (fs2 & name & Hn & H). apply lift_Ok in Hn as [-> Hn].
  apply M_bind_Ok in H as (fs3 & [] & Hw & H).
  unfold WriteImage in Hw. injection Hw as <-. injection H as <- _.
  destruct (decide (p = os_path_join working_dir name)) as [->|Hne].
  - right. exists paste_img. rewrite lookup_insert_eq. split; [done|].
    split; [eauto|]. split; [done|]. by apply (Paste_on_zero_template img).
  - left. by rewrite lookup_insert_ne.
Qed.

(** C10. After the output loops every file of the store is either as it was
    before them or holds the mask of one structure (a voted structure's
    thresholded probability volume or a vessel's mask) pasted on the zero
    template of the target: the result of one [Paste] on that template, each
    of whose voxels is zero or a voxel of that mask, whatever was pasted
    before it. *)
Theorem outputs_hold_one_mask_each
    (combined_label_dict : gmap string (Image Q))
    (segmented_vessel_dict : gmap string (Image Z))
    (output_objects output_objects' : list DataObject) (fs fs' : Files) :
  write_outputs C settings data_object working_dir img offset
    combined_label_dict segmented_vessel_dict output_objects fs
  = (fs', Ok output_objects') ->
  forall p,
    fs' !! p = fs !! p \/
    exists structure_name binary_struct paste_img,
      ((exists optimal_threshold probability,
          (structure_name, optimal_threshold) ∈ optimalThreshold settings /\
          combined_label_dict !! structure_name = Some probability /\
          process_probability_image C probability optimal_threshold
            = Ok binary_struct) \/
       (structure_name ∈ vesselNameList settings /\
        segmented_vessel_dict !! structure_name = Some binary_struct)) /\
      fs' !! p = Some paste_img /\
      (exists name, format C (outputFormat settings) structure_name = Ok name /\
                    p = os_path_join working_dir name) /\
      Paste (Cast_sitkUInt8 (Multiply img 0)) binary_struct (GetSize binary_struct)
        (0, 0, 0) offset = Ok paste_img /\
      forall i v, GetPixel paste_img i = Some v ->
        v = 0 \/ GetPixel binary_struct (index_sub i offset) = Some v.
Proof.
  unfold write_outputs. intros H p.
  apply M_bind_Ok in H as (fs1 & outs1 & Hvote & Hvessel).
  set (Q := fun p paste_img =>
    exists structure_name binary_struct,
      ((exists optimal_threshold probability,
          (structure_name, optimal_threshold) ∈ optimalThreshold settings /\
          combined_label_dict !! structure_name = Some probability /\
          process_probability_image C probability optimal_threshold
            = Ok binary_struct) \/
       (structure_name ∈ vesselNameList settings /\
        segmented_vessel_dict !! structure_name = Some binary_struct)) /\
      composited C settings working_dir img offset structure_name binary_struct p paste_img).
  assert (Hgoal : fs' !! p = fs !! p \/ exists image, fs' !! p = Some image /\ Q p image).
  { eapply (for_each_M_files Q) in Hvessel as [Heq|Hq]; [| by right |].
    - rewrite Heq.
      eapply (for_each_M_files Q); [|exact Hvote].
      intros [name thr] s fsa fsb s' Hin Hstep q.
      unfold write_vote_structure in Hstep.
      apply M_bind_Ok in Hstep as (fsc & mask & Hm & Hw). apply lift_Ok in Hm as [-> Hm].
      apply bind_Ok in Hm as (prob & Hprob & Hm). apply getitem_Ok in Hprob.
      destruct (write_structure_files _ _ _ _ _ _ Hw q) as [?|(pi & ? & ?)]; [by left|].
      right. exists pi. split; [done|]. exists name, mask. split; [|done].
      left. eauto.
    - intros name s fsa fsb s' Hin Hstep q.
      unfold write_vessel_structure in Hstep.
      apply M_bind_Ok in Hstep as (fsc & mask & Hm & Hw). apply lift_Ok in Hm as [-> Hm].
      apply getitem_Ok in Hm.
      destruct (write_structure_files _ _ _ _ _ _ Hw q) as [?|(pi & ? & ?)]; [by left|].
      right. exists pi. split; [done|]. exists name, mask. split; [|done].
      right. eauto. }
  destruct Hgoal as [?|(pi & Hpi & name & mask & Hsrc & Hfile & Hpaste & Hvox)];
    [by left|].
  right. exists name, mask, pi. done.
Qed.
End Outputs.

(** C10 on the sample run, for the file of the whole heart. *)
Lemma outputs_hold_one_mask_each_sample :
  let C := Sample.collaborators Sample.lung_box in
  let combined_label_dict : gmap string (Image Q) :=
    {["WHOLEHEART" := map_voxels (fun _ => (1 # 2)%Q) Sample.img_crop]} in
  let segmented_vessel_dict : gmap string (Image Z) :=
    {["LANTDESCARTERY" := Sample.mask]} in
  let fs' :=
    fst (write_outputs C Sample.settings Sample.target "/out" Sample.img
           (box_index Sample.crop) combined_label_dict segmented_vessel_dict [] ∅) in
  let p := "/out/Auto_WHOLEHEART.nii.gz" in
  fs' !! p = (∅ : Files) !! p \/
  exists structure_name binary_struct paste_img,
    ((exists optimal_threshold probability,
        (structure_name, optimal_threshold) ∈ optimalThreshold Sample.settings /\
        combined_label_dict !! structure_name = Some probability /\
        process_probability_image C probability optimal_threshold
          = Ok binary_struct) \/
     (structure_name ∈ vesselNameList Sample.settings /\
      segmented_vessel_dict !! structure_name = Some binary_struct)) /\
    fs' !! p = Some paste_img /\
    (exists name, format C (outputFormat Sample.settings) structure_name = Ok name /\
                  p = os_path_join "/out" name) /\
    Paste (Cast_sitkUInt8 (Multiply Sample.img 0)) binary_struct
      (GetSize binary_struct) (0, 0, 0) (box_index Sample.crop) = Ok paste_img /\
    forall i v, GetPixel paste_img i = Some v ->
      v = 0 \/ GetPixel binary_struct (index_sub i (box_index Sample.crop)) = Some v.
Proof.
  intros C combined_label_dict segmented_vessel_dict fs' p.
  apply (outputs_hold_one_mask_each C Sample.settings Sample.target "/out"
           Sample.img (box_index Sample.crop) combined_label_dict
           segmented_vessel_dict []
           [mkDataObject "FILE" "/out/Auto_WHOLEHEART.nii.gz" (Some Sample.target);
            mkDataObject "FILE" "/out/Auto_LANTDESCARTERY.nii.gz" (Some Sample.target)]
           ∅ fs').
  vm_cast_no_check
    (eq_refl (fs',
              Ok [mkDataObject "FILE" "/out/Auto_WHOLEHEART.nii.gz" (Some Sample.target);
                  mkDataObject "FILE" "/out/Auto_LANTDESCARTERY.nii.gz"
                    (Some Sample.target)])).
Defined.

(** ** Output objects *)

Section Objects.
Context (C : Collaborators) (settings : Settings).
Variables (data_object : DataObject) (working_dir : string).
Variables (img : Image Z) (offset : Index).


Lemma write_structure_object template structure_name binary_struct outs fs fs' outs' :
  write_structure C settings data_object working_dir template offset
    structure_name binary_struct outs fs = (fs', Ok outs') ->
  exists object, output_of C settings data_object working_dir structure_name object /\ outs' = (outs ++ [object])%list.
Proof.
  unfold write_structure. intros H.
  apply M_bind_Ok in H as (fs1 & paste_img & Hp & H).
  apply M_bind_Ok in H as (fs2 & name & Hn & H). apply lift_Ok in Hn as [-> Hn].
  apply M_bind_Ok in H as (fs3 & [] & Hw & H). injection H as _ <-.
  eexists. split; [|done]. by exists name.
Qed.

Lemma for_each_M_objects {A} (structure_of : A -> string) (xs : list A)
    (body : A -> list DataObject -> M (list DataObject)) :
  (forall x outs fs fs' outs', body x outs fs = (fs', Ok outs') ->
     exists object, output_of C settings data_object working_dir (structure_of x) object /\
       outs' = (outs ++ [object])%list) ->
  forall outs fs fs' outs', for_each_M xs body outs fs = (fs', Ok outs') ->
    exists objects, Forall2 (output_of C settings data_object working_dir) (map structure_of xs) objects /\
      outs' = (outs ++ objects)%list.
Proof.
  intros Hbody. induction xs as [|x xs IH]; intros outs fs fs' outs' H.
  - cbn in H. injection H as _ <-. exists []. split; [constructor|].
    by rewrite app_nil_r.
  - cbn [for_each_M] in H. apply M_bind_Ok in H as (fs1 & outs1 & Hx & H).
    destruct (Hbody _ _ _ _ _ Hx) as (object & Ho & ->).
    destruct (IH _ _ _ _ H) as (objects & Hos & ->).
    exists (object :: objects). split; [by constructor|].
    by rewrite <- app_assoc.
Qed.

(** The output loops return one output object per structure, the voted
    structures first and the vessels after them, each in its configured
    order. *)
Lemma write_outputs_objects combined_label_dict segmented_vessel_dict
    outs fs fs' outs' :
  write_outputs C settings data_object working_dir img offset
    combined_label_dict segmented_vessel_dict outs fs = (fs', Ok outs') ->
  exists objects,
    Forall2 (output_of C settings data_object working_dir)
      (map fst (optimalThreshold settings) ++ vesselNameList settings)%list objects /\
    outs' = (outs ++ objects)%list.
Proof.
  unfold write_outputs. intros H.
  apply M_bind_Ok in H as (fs1 & outs1 & Hvote & Hvessel).
  apply (for_each_M_objects fst) in Hvote as (o1 & Ho1 & ->).
  2:{ intros [name thr] o f f' o' Hstep. unfold write_vote_structure in Hstep.
      apply M_bind_Ok in Hstep as (fsc & mask & _ & Hw).
      by apply write_structure_object in Hw. }
  apply (for_each_M_objects id) in Hvessel as (o2 & Ho2 & ->).
  2:{ intros name o f f' o' Hstep. unfold write_vessel_structure in Hstep.
      apply M_bind_Ok in Hstep as (fsc & mask & _ & Hw).
      by apply write_structure_object in Hw. }
  exists (o1 ++ o2)%list. rewrite map_id in Ho2. split.
  - by apply Forall2_app.
  - by rewrite app_assoc.
Qed.
End Objects.

(** The output objects of the sample run. *)
Lemma write_outputs_objects_sample :
  let C := Sample.collaborators Sample.lung_box in
  exists objects,
    Forall2 (output_of C Sample.settings Sample.target "/out")
      (map fst (optimalThreshold Sample.settings) ++ vesselNameList Sample.settings)%list
      objects /\
    [mkDataObject "FILE" "/out/Auto_WHOLEHEART.nii.gz" (Some Sample.target);
     mkDataObject "FILE" "/out/Auto_LANTDESCARTERY.nii.gz" (Some Sample.target)]
    = ([] ++ objects)%list.
Proof.
  intros C.
  pose (combined_label_dict :=
          {["WHOLEHEART" := map_voxels (fun _ => (1 # 2)%Q) Sample.img_crop]}
          : gmap string (Image Q)).
  pose (segmented_vessel_dict := {["LANTDESCARTERY" := Sample.mask]} : Files).
  pose (fs' := fst (write_outputs C Sample.settings Sample.target "/out" Sample.img
                      (box_index Sample.crop) combined_label_dict
                      segmented_vessel_dict [] ∅)).
  apply (write_outputs_objects C Sample.settings Sample.target "/out" Sample.img
           (box_index Sample.crop) combined_label_dict segmented_vessel_dict
           [] ∅ fs').
  vm_cast_no_check
    (eq_refl (fs',
              Ok [mkDataObject "FILE" "/out/Auto_WHOLEHEART.nii.gz" (Some Sample.target);
                  mkDataObject "FILE" "/out/Auto_LANTDESCARTERY.nii.gz"
                    (Some Sample.target)])).
Defined.

(** ** Outlier rejection *)

Section Floor.
Variable outliers : SpecModel.IARConfig -> AtlasSet -> list string.
Variable config : SpecModel.IARConfig.

Lemma remove_atlases_lookup (ids : list string) (atlas_set : AtlasSet) (a : string) :
  SpecModel.remove_atlases ids atlas_set !! a =
  if decide (a ∈ ids) then None else atlas_set !! a.
Proof.
  unfold SpecModel.remove_atlases.
  induction ids as [|x ids IH]; cbn [foldr].
  - rewrite decide_False; [done|]. apply not_elem_of_nil.
  - destruct (decide (a = x)) as [->|Hne].
    + rewrite lookup_delete_eq, decide_True; [done|]. apply list_elem_of_here.
    + rewrite lookup_delete_ne, IH by done.
      destruct (decide (a ∈ ids)) as [Hin|Hin].
      * rewrite decide_True; [done|]. by apply list_elem_of_further.
      * rewrite decide_False; [done|]. rewrite elem_of_cons. tauto.
Qed.

Lemma remove_atlases_subseteq (ids : list string) (atlas_set : AtlasSet) :
  SpecModel.remove_atlases ids atlas_set ⊆ atlas_set.
Proof.
  apply map_subseteq_spec. intros a record. rewrite remove_atlases_lookup.
  by case_decide.
Qed.

Lemma remove_atlases_size_lt (ids : list string) (atlas_set : AtlasSet) (a : string) :
  a ∈ ids -> is_Some (atlas_set !! a) ->
  (size (SpecModel.remove_atlases ids atlas_set) < size atlas_set)%nat.
Proof.
  intros Hin [record Ha].
  apply Nat.le_lt_trans with (size (delete a atlas_set)).
  - apply map_subseteq_size, map_subseteq_spec. intros b rb.
    rewrite remove_atlases_lookup. case_decide; [done|]. intros Hb.
    rewrite lookup_delete_ne; [done|]. by intros ->.
  - rewrite map_size_delete, Ha. cbn.
    assert (size atlas_set <> 0%nat); [|lia].
    intros Hz. apply map_size_empty_inv in Hz. by rewrite Hz in Ha.
Qed.

Lemma flagged_in_set (atlas_set : AtlasSet) (a : string) :
  a ∈ SpecModel.flagged outliers config atlas_set -> is_Some (atlas_set !! a).
Proof. unfold SpecModel.flagged. rewrite list_elem_of_filter. tauto. Qed.

Lemma iterate_floor (cap iteration : nat) (atlas_set : AtlasSet) log :
  SpecModel.min_best_atlases config <= Z.of_nat (size atlas_set) ->
  let pruned := fst (SpecModel.iterate outliers config cap iteration atlas_set log) in
  SpecModel.min_best_atlases config <= Z.of_nat (size pruned) /\
  pruned ⊆ atlas_set.
Proof.
  revert iteration atlas_set log.
  induction cap as [|cap IH]; intros iteration atlas_set log Hfloor;
    cbn [SpecModel.iterate]; [done|].
  destruct (SpecModel.flagged outliers config atlas_set) as [|a worst]; [done|].
  case_decide as Hguard; [|done].
  destruct (IH (S iteration) _ (log ++ [(iteration, a :: worst)])%list Hguard) as [H1 H2].
  split; [done|]. etrans; [exact H2 | apply remove_atlases_subseteq].
Qed.

Lemma iterate_at_floor (cap iteration : nat) (atlas_set : AtlasSet) log :
  SpecModel.min_best_atlases config = Z.of_nat (size atlas_set) ->
  SpecModel.iterate outliers config cap iteration atlas_set log = (atlas_set, log).
Proof.
  intros Hfloor. destruct cap as [|cap]; cbn [SpecModel.iterate]; [done|].
  destruct (SpecModel.flagged outliers config atlas_set) as [|a worst] eqn:E; [done|].
  rewrite decide_False; [done|].
  assert (Ha : is_Some (atlas_set !! a)).
  { apply flagged_in_set. rewrite E. apply list_elem_of_here. }
  pose proof (remove_atlases_size_lt (a :: worst) atlas_set a
                (list_elem_of_here _ _) Ha).
  lia.
Qed.

(** C2. Whatever the statistics flag, a set that the outlier rejection
    returns has at least the configured minimum number of atlases and is part
    of the set it was given; it does return a set when it is given at least
    that many atlases; and given exactly that many it returns the set as it
    is, with nothing removed. *)
Theorem IAR_keeps_floor (atlas_set : AtlasSet) :
  (forall pruned log,
     SpecModel.IAR outliers config atlas_set = Ok (pruned, log) ->
     SpecModel.min_best_atlases config <= Z.of_nat (size pruned) /\
     pruned ⊆ atlas_set) /\
  (SpecModel.min_best_atlases config <= Z.of_nat (size atlas_set) ->
   exists pruned log, SpecModel.IAR outliers config atlas_set = Ok (pruned, log)) /\
  (SpecModel.min_best_atlases config = Z.of_nat (size atlas_set) ->
   SpecModel.IAR outliers config atlas_set = Ok (atlas_set, [])).
Proof.
  unfold SpecModel.IAR. split; [|split].
  - intros pruned log. case_decide as Hlow; [done|]. intros [= Hit].
    assert (Hfloor : SpecModel.min_best_atlases config <= Z.of_nat (size atlas_set)) by lia.
    pose proof (iterate_floor (SpecModel.iteration_cap config) 0 atlas_set [] Hfloor) as Hp.
    by rewrite Hit in Hp.
  - intros Hfloor. rewrite decide_False by lia.
    destruct (SpecModel.iterate _ _ _ _ _ _) as [pruned log]. eauto.
  - intros Hfloor. rewrite decide_False by lia. by rewrite iterate_at_floor.
Qed.
End Floor.

(** C2 on the five atlases of the sample run with a floor of five and
    statistics that flag atlas 11: nothing is removed. *)
Lemma IAR_keeps_floor_sample :
  let atlas_set := Sample.atlas_set (Sample.files (Sample.constant_image 2 2 2 5)) in
  SpecModel.IAR Sample.flag_11 Sample.floor_of_five atlas_set = Ok (atlas_set, []).
Proof.
  intros atlas_set.
  apply (proj2 (proj2 (IAR_keeps_floor Sample.flag_11 Sample.floor_of_five atlas_set))).
  vm_compute. reflexivity.
Defined.

(** With a floor of four, the same five atlases lose atlas 11 and no more. *)
Example IAR_removes_flagged_atlas :
  let atlas_set := Sample.atlas_set (Sample.files (Sample.constant_image 2 2 2 5)) in
  let config := {|
    SpecModel.structure_name := "WHOLEHEART"; SpecModel.z_score := "MAD";
    SpecModel.outlier_method := "IQR"; SpecModel.n_factor := (3 # 2)%Q;
    SpecModel.min_best_atlases := 4; SpecModel.iteration_cap := 10 |} in
  (fun r => (size (fst r), snd r)) <$> SpecModel.IAR Sample.flag_11 config atlas_set
  = Ok (4%nat, [(0%nat, ["11"])]).
Proof. vm_compute. reflexivity. Qed.

(** An atlas that the outlier rejection keeps keeps its whole record. *)
Lemma survivor_keeps_record (pruned atlas_set : AtlasSet) (atlas_id stage key : string) :
  pruned ⊆ atlas_set -> is_Some (pruned !! atlas_id) ->
  get_entry pruned atlas_id stage key = get_entry atlas_set atlas_id stage key.
Proof.
  intros Hsub [record Hrec]. unfold get_entry, getitem.
  rewrite Hrec. by rewrite (lookup_weaken _ _ _ _ Hrec Hsub).
Qed.

(** ** Organ detection *)

Section Detection.
Context (C : Collaborators) (settings : Settings).

(** Whatever box the organ detector answers is turned into a crop box; no
    box makes [target_crop_box] raise. *)
Lemma target_crop_box_accepts_any_box (img lung_mask_original : Image Z)
    (lung_bounding_box : Box) :
  AutoLungSegment C img (lowerNormalisedThreshold settings)
    (upperNormalisedThreshold settings) (voxelCountThreshold settings)
  = Ok (lung_bounding_box, lung_mask_original) ->
  target_crop_box C settings img
  = Ok (crop_box lung_bounding_box (sagittalExpansion settings)
          (coronalExpansion settings) (axialExpansion settings) (GetSize img),
        lung_mask_original).
Proof. unfold target_crop_box. by intros ->. Qed.
End Detection.

(** C7. In the sample run an organ detector that answers the whole volume,
    or no region at all, is not rejected: the crop box is computed from the
    answer, the run returns its two output objects without raising, and for
    the empty region both written masks are all background. *)
Theorem implausible_region_is_not_rejected :
  let fs := Sample.files (Sample.constant_image 2 2 2 5) in
  let run lung_box :=
    cardiac_service (Sample.collaborators lung_box) Sample.settings
      [Sample.target] "/out" fs in
  let outputs :=
    [mkDataObject "FILE" "/out/Auto_WHOLEHEART.nii.gz" (Some Sample.target);
     mkDataObject "FILE" "/out/Auto_LANTDESCARTERY.nii.gz" (Some Sample.target)] in
  let whole_volume := mkBox 0 0 0 6 6 4 in
  let nothing := mkBox 0 0 0 0 0 0 in
  (fst <$> target_crop_box (Sample.collaborators whole_volume) Sample.settings Sample.img)
    = Ok (mkBox 0 0 0 6 6 4) /\
  snd (run whole_volume) = Ok outputs /\
  (voxel_count <$> fst (run whole_volume) !! "/out/Auto_WHOLEHEART.nii.gz")
    = Some 144%nat /\
  (fst <$> target_crop_box (Sample.collaborators nothing) Sample.settings Sample.img)
    = Ok (mkBox 0 0 0 0 6 4) /\
  snd (run nothing) = Ok outputs /\
  (voxel_count <$> fst (run nothing) !! "/out/Auto_WHOLEHEART.nii.gz")
    = Some 0%nat /\
  (voxel_count <$> fst (run nothing) !! "/out/Auto_LANTDESCARTERY.nii.gz")
    = Some 0%nat.
Proof. repeat split; vm_compute; reflexivity. Qed.

(** ** The crop box and the detected region *)

Section CropRegion.
Variables (lung_bounding_box : Box) (es ec ea : Z) (img_size : Index).

(** The crop box keeps the detected region.  When the margins are not
    negative and the detected region lies inside the volume, the crop box is
    a region of the volume (nonnegative start and size, end inside the
    volume) and every voxel index of the detected region is inside it. *)
Theorem crop_box_keeps_detected_region :
  0 <= es -> 0 <= ec -> 0 <= ea ->
  region_within (box_index lung_bounding_box) (box_size lung_bounding_box) img_size
    = true ->
  let crop := crop_box lung_bounding_box es ec ea img_size in
  region_within (box_index crop) (box_size crop) img_size = true /\
  forall i, in_region (box_index lung_bounding_box) (box_size lung_bounding_box) i = true ->
    in_region (box_index crop) (box_size crop) i = true.
Proof.
  intros Hs Hc Ha Hin crop. subst crop.
  destruct lung_bounding_box as [b0 b1 b2 b3 b4 b5], img_size as [[n0 n1] n2].
  unfold region_within, in_region, crop_box, box_index, box_size, ix0, ix1, ix2 in *.
  cbn [fst snd box0 box1 box2 box3 box4 box5] in *.
  rewrite !andb_true_iff in Hin. rewrite !Z.leb_le in Hin.
  split.
  - rewrite !andb_true_iff, !Z.leb_le. lia.
  - intros [[i0 i1] i2]. cbn [fst snd].
    rewrite !andb_true_iff, !Z.leb_le, !Z.ltb_lt. lia.
Qed.

(** Without margins, a detected region that lies inside the volume is the
    crop box. *)
Theorem crop_box_without_margins :
  region_within (box_index lung_bounding_box) (box_size lung_bounding_box) img_size
    = true ->
  crop_box lung_bounding_box 0 0 0 img_size = lung_bounding_box.
Proof.
  intros Hin.
  destruct lung_bounding_box as [b0 b1 b2 b3 b4 b5], img_size as [[n0 n1] n2].
  unfold region_within, crop_box, box_index, box_size, ix0, ix1, ix2 in *.
  cbn [fst snd box0 box1 box2 box3 box4 box5] in *.
  rewrite !andb_true_iff in Hin. rewrite !Z.leb_le in Hin.
  f_equal; lia.
Qed.
End CropRegion.

(** On a 512 x 512 x 100 volume with the default margins. *)
Lemma crop_box_keeps_detected_region_sample :
  let lung_bounding_box := mkBox 100 100 20 200 150 60 in
  let crop := crop_box lung_bounding_box 0 15 5 (512, 512, 100) in
  region_within (box_index crop) (box_size crop) (512, 512, 100) = true /\
  forall i, in_region (box_index lung_bounding_box) (box_size lung_bounding_box) i = true ->
    in_region (box_index crop) (box_size crop) i = true.
Proof.
  intros lung_bounding_box crop.
  apply (crop_box_keeps_detected_region lung_bounding_box 0 15 5 (512, 512, 100));
    [lia | lia | lia | reflexivity].
Defined.

(** The same region without margins. *)
Lemma crop_box_without_margins_sample :
  crop_box (mkBox 100 100 20 200 150 60) 0 0 0 (512, 512, 100)
  = mkBox 100 100 20 200 150 60.
Proof.
  apply (crop_box_without_margins (mkBox 100 100 20 200 150 60) (512, 512, 100)).
  reflexivity.
Defined.

(** ** Reading the atlases *)

Lemma get_entry_insert_empty (s : AtlasSet) a a' st k :
  get_entry (<[a := ∅]> s) a' st k =
  if decide (a' = a) then Raise (KeyError st) else get_entry s a' st k.
Proof.
  unfold get_entry, getitem. destruct (decide (a' = a)) as [->|Hne].
  - rewrite lookup_insert_eq. cbn. by rewrite lookup_empty.
  - by rewrite lookup_insert_ne.
Qed.

Lemma ReadImage_Ok path fs fs' image :
  ReadImage path fs = (fs', Ok image) -> fs' = fs /\ fs !! path = Some image.
Proof.
  unfold ReadImage. intros [= <- H]. split; [done|].
  destruct (fs !! path); congruence.
Qed.

Lemma for_each_M_cons {A S} (x : A) (xs : list A) (body : A -> S -> M S) (s : S)
    (fs : Files) :
  for_each_M (x :: xs) body s fs =
  match body x s fs with
  | (fs', Ok s') => for_each_M xs body s' fs'
  | (fs', Raise e) => (fs', Raise e)
  end.
Proof. reflexivity. Qed.

Section Reading.
Variable settings : Settings.

(** The loop over the structures of one atlas (lines 149-153). *)
Lemma read_structures_spec (a : string) (structs : list string) :
  forall s fs fs' s',
  for_each_M structs
    (fun struct atlas_set =>
       image ← ReadImage (atlas_structure_file settings a struct);
       lift (set_entry atlas_set a "Original" struct (EImage image))) s fs
  = (fs', Ok s') ->
  fs' = fs /\ dom s' = dom s /\
  (forall struct, struct ∈ structs ->
     exists image, fs !! atlas_structure_file settings a struct = Some image /\
       get_entry s' a "Original" struct = Ok (EImage image)) /\
  (forall a' st' k', ~ (a' = a /\ st' = "Original" /\ k' ∈ structs) ->
     get_entry s' a' st' k' = get_entry s a' st' k').
Proof.
  induction structs as [|x xs IH]; intros s fs fs' s' H.
  - cbn in H. injection H as <- <-. split; [done|]. split; [done|]. split; [|done].
    intros struct Hin. by apply elem_of_nil in Hin.
  - cbn [for_each_M] in H. apply M_bind_Ok in H as (fs1 & s1 & Hx & H).
    apply M_bind_Ok in Hx as (fs2 & image & Hr & Hx).
    apply ReadImage_Ok in Hr as [-> Hfile]. apply lift_Ok in Hx as [-> Hset].
    destruct (IH _ _ _ _ H) as (-> & Hdom & Hin & Hframe).
    split; [done|]. split; [by rewrite Hdom, (set_entry_dom _ _ _ _ _ _ Hset)|].
    split.
    + intros struct Hs. destruct (decide (struct ∈ xs)) as [Hxs|Hxs]; [by apply Hin|].
      apply elem_of_cons in Hs as [->|Hs]; [|done].
      exists image. split; [done|].
      rewrite Hframe by (intros (_ & _ & ?); done).
      rewrite (get_entry_set_entry _ _ _ _ _ _ _ _ _ Hset). by rewrite decide_True.
    + intros a' st' k' Hne. rewrite Hframe.
      * rewrite (get_entry_set_entry _ _ _ _ _ _ _ _ _ Hset).
        rewrite decide_False; [done|]. intros (-> & -> & ->). apply Hne.
        repeat split. apply list_elem_of_here.
      * intros (-> & -> & Hk). apply Hne. repeat split. by apply list_elem_of_further.
Qed.

Lemma read_atlas_spec (a : string) (s s' : AtlasSet) (fs fs' : Files) :
  read_atlas settings a s fs = (fs', Ok s') ->
  fs' = fs /\ dom s' = {[a]} ∪ dom s /\ read_from_files settings fs s' a /\
  (forall a' st k, a' <> a -> get_entry s' a' st k = get_entry s a' st k).
Proof.
  unfold read_atlas. intros H.
  apply M_bind_Ok in H as (fs1 & s1 & H1 & H). apply lift_Ok in H1 as [-> H1].
  apply M_bind_Ok in H as (fs2 & ct & Hr & H). apply ReadImage_Ok in Hr as [-> Hct].
  apply M_bind_Ok in H as (fs3 & s2 & H2 & H). apply lift_Ok in H2 as [-> H2].
  apply (read_structures_spec a) in H as (-> & Hdom & Hin & Hframe).
  assert (Hget : forall a' st k,
    get_entry s2 a' st k =
    if decide (a' = a /\ st = "Original" /\ k = "CT Image") then Ok (EImage ct)
    else if decide (a' = a) then
      (if decide (st = "Original") then Raise (KeyError k) else Raise (KeyError st))
    else get_entry s a' st k).
  { intros a' st k. rewrite (get_entry_set_entry _ _ _ _ _ _ _ _ _ H2).
    case_decide as Hd; [done|].
    rewrite (get_entry_set_stage _ _ _ _ _ _ _ _ H1), get_entry_insert_empty.
    destruct (decide (a' = a)) as [->|Hna].
    - destruct (decide (st = "Original")) as [->|Hnst].
      + rewrite decide_True by done. unfold getitem. by rewrite lookup_empty.
      + rewrite decide_False; [done|]. by intros [_ ?].
    - rewrite decide_False; [done|]. by intros [? _]. }
  split; [done|]. split.
  { rewrite Hdom, (set_entry_dom _ _ _ _ _ _ H2), (set_stage_dom _ _ _ _ _ H1).
    by rewrite dom_insert_L. }
  split; [split; [|split; [|split]]|].
  - exists ct. split; [done|]. intros Hnot.
    rewrite Hframe by (intros (_ & _ & ?); done).
    rewrite Hget. by rewrite decide_True.
  - done.
  - intros st k Hst. rewrite Hframe by (intros (_ & ? & _); done).
    rewrite Hget. rewrite decide_False by (intros (_ & ? & _); done).
    rewrite decide_True by done. by rewrite decide_False.
  - intros k Hk Hnot. rewrite Hframe by (intros (_ & _ & ?); done).
    rewrite Hget. rewrite decide_False by (intros (_ & _ & ?); done).
    rewrite decide_True by done. by rewrite decide_True.
  - intros a' st k Hne. rewrite Hframe by (intros (? & _); done).
    rewrite Hget. rewrite decide_False by (intros (? & _); done).
    by rewrite decide_False.
Qed.

Lemma read_atlases_loop (ids : list string) :
  forall s fs fs' s',
  for_each_M ids (read_atlas settings) s fs = (fs', Ok s') ->
  fs' = fs /\ dom s' = list_to_set ids ∪ dom s /\
  (forall a, a ∈ ids -> read_from_files settings fs s' a) /\
  (forall a st k, a ∉ ids -> get_entry s' a st k = get_entry s a st k).
Proof.
  induction ids as [|x xs IH]; intros s fs fs' s' H.
  - cbn in H. injection H as <- <-. split; [done|]. split; [cbn; by rewrite (left_id_L ∅ (∪))|].
    split; [|done]. intros a Hin. by apply elem_of_nil in Hin.
  - cbn [for_each_M] in H. apply M_bind_Ok in H as (fs1 & s1 & Hx & H).
    apply read_atlas_spec in Hx as (-> & Hdx & Hread & Hfx).
    destruct (IH _ _ _ _ H) as (-> & Hdom & Hin & Hframe).
    split; [done|]. split.
    { rewrite Hdom, Hdx, list_to_set_cons, (assoc_L (∪)).
      by rewrite (comm_L (∪) (list_to_set xs) {[x]}). }
    split.
    + intros a Ha. destruct (decide (a ∈ xs)) as [Hxs|Hxs]; [by apply Hin|].
      apply elem_of_cons in Ha as [->|Ha]; [|done].
      destruct Hread as ((ct & Hct & Hc) & Hs & Hst & Hk).
      split; [|split; [|split]].
      * exists ct. split; [done|]. intros Hnot. rewrite Hframe by done. by apply Hc.
      * intros struct Hstruct. destruct (Hs _ Hstruct) as (image & ? & ?).
        exists image. by rewrite Hframe.
      * intros st k Hne. rewrite Hframe by done. by apply Hst.
      * intros k ? ?. rewrite Hframe by done. by apply Hk.
    + intros a st k Ha. apply not_elem_of_cons in Ha as [Hne Ha].
      rewrite Hframe by done. by apply Hfx.
Qed.

(** Reading the atlases (lines 139-153).  When the loop returns, the file
    store is as it was and, for every atlas of [atlasIdList], the [Original]
    stage holds the label volume read from the file of each structure of
    [atlasStructures] and, under ["CT Image"], the image read from the atlas's
    image file (unless a structure is itself named ["CT Image"], whose label
    volume then takes that key). *)
Theorem read_atlases_contents (fs fs' : Files) (atlas_set : AtlasSet)
    (atlas_id : string) :
  read_atlases settings fs = (fs', Ok atlas_set) ->
  atlas_id ∈ atlasIdList settings ->
  fs' = fs /\
  (exists ct, fs !! atlas_image_file settings atlas_id = Some ct /\
     ("CT Image" ∉ atlasStructures settings ->
      get_entry atlas_set atlas_id "Original" "CT Image" = Ok (EImage ct))) /\
  (forall struct, struct ∈ atlasStructures settings ->
     exists image,
       fs !! atlas_structure_file settings atlas_id struct = Some image /\
       get_entry atlas_set atlas_id "Original" struct = Ok (EImage image)).
Proof.
  intros H Hin. apply read_atlases_loop in H as (-> & _ & Hread & _).
  destruct (Hread _ Hin) as (Hct & Hs & _). done.
Qed.

Lemma read_structures_outcome (a : string) (structs : list string) :
  forall s fs, has_stage s a "Original" ->
  (exists s',
     for_each_M structs
       (fun struct atlas_set =>
          image ← ReadImage (atlas_structure_file settings a struct);
          lift (set_entry atlas_set a "Original" struct (EImage image))) s fs
     = (fs, Ok s') /\
     forall struct, struct ∈ structs ->
       is_Some (fs !! atlas_structure_file settings a struct)) \/
  (for_each_M structs
     (fun struct atlas_set =>
        image ← ReadImage (atlas_structure_file settings a struct);
        lift (set_entry atlas_set a "Original" struct (EImage image))) s fs
   = (fs, Raise (RuntimeError "ReadImage")) /\
   exists struct, struct ∈ structs /\
     fs !! atlas_structure_file settings a struct = None).
Proof.
  induction structs as [|x xs IH]; intros s fs Hst.
  - left. exists s. split; [done|]. intros struct Hin. by apply elem_of_nil in Hin.
  - rewrite !for_each_M_cons. cbn beta. rewrite !M_bind_unfold.
    unfold ReadImage at 1 3.
    destruct (fs !! atlas_structure_file settings a x) as [image|] eqn:Hx.
    + destruct (set_entry_Ok s a "Original" x (EImage image) Hst) as (s1 & Hset & Hst1).
      unfold lift at 1 3. rewrite Hset.
      destruct (IH s1 fs Hst1) as [(s' & Hloop & Hall)|(Hloop & struct & Hin & Hnone)].
      * left. exists s'. split; [exact Hloop|]. intros struct Hin.
        apply elem_of_cons in Hin as [->|Hin]; [by rewrite Hx | by apply Hall].
      * right. split; [exact Hloop|]. exists struct. split; [|done].
        by apply list_elem_of_further.
    + right. split; [done|]. exists x. split; [apply list_elem_of_here | done].
Qed.

Lemma read_atlas_outcome (a : string) (s : AtlasSet) (fs : Files) :
  (exists s', read_atlas settings a s fs = (fs, Ok s') /\
     atlas_files_present settings fs a) \/
  (read_atlas settings a s fs = (fs, Raise (RuntimeError "ReadImage")) /\
   (fs !! atlas_image_file settings a = None \/
    exists struct, struct ∈ atlasStructures settings /\
      fs !! atlas_structure_file settings a struct = None)).
Proof.
  destruct (set_stage (<[a := ∅]> s) a "Original" ∅) as [s1|e] eqn:H1.
  2:{ unfold set_stage, getitem in H1. by rewrite lookup_insert_eq in H1. }
  assert (Hst1 : has_stage s1 a "Original").
  { unfold set_stage, getitem in H1. rewrite lookup_insert_eq in H1. cbn in H1.
    injection H1 as <-. eexists _, _. by rewrite !lookup_insert_eq. }
  destruct (fs !! atlas_image_file settings a) as [ct|] eqn:Hct.
  - destruct (set_entry_Ok s1 a "Original" "CT Image" (EImage ct) Hst1)
      as (s2 & H2 & Hst2).
    assert (E : read_atlas settings a s fs =
                for_each_M (atlasStructures settings)
                  (fun struct atlas_set =>
                     image ← ReadImage (atlas_structure_file settings a struct);
                     lift (set_entry atlas_set a "Original" struct (EImage image)))
                  s2 fs).
    { unfold read_atlas. cbn zeta. rewrite M_bind_unfold. unfold lift at 1.
      rewrite H1. rewrite M_bind_unfold. unfold ReadImage at 1.
      fold (atlas_image_file settings a). rewrite Hct.
      rewrite M_bind_unfold. unfold lift at 1. by rewrite H2. }
    rewrite E.
    destruct (read_structures_outcome a (atlasStructures settings) s2 fs Hst2)
      as [(s' & Hloop & Hall)|(Hloop & Hmiss)].
    + left. exists s'. split; [exact Hloop|]. split; [by rewrite Hct | done].
    + right. split; [exact Hloop|]. by right.
  - assert (E : read_atlas settings a s fs = (fs, Raise (RuntimeError "ReadImage"))).
    { unfold read_atlas. cbn zeta. rewrite M_bind_unfold. unfold lift at 1.
      rewrite H1. rewrite M_bind_unfold. unfold ReadImage at 1.
      fold (atlas_image_file settings a). by rewrite Hct. }
    right. split; [exact E|]. by left.
Qed.

Lemma read_atlases_outcome (ids : list string) :
  forall s fs,
  (exists s', for_each_M ids (read_atlas settings) s fs = (fs, Ok s') /\
     forall a, a ∈ ids -> atlas_files_present settings fs a) \/
  (for_each_M ids (read_atlas settings) s fs = (fs, Raise (RuntimeError "ReadImage")) /\
   exists a, a ∈ ids /\
     (fs !! atlas_image_file settings a = None \/
      exists struct, struct ∈ atlasStructures settings /\
        fs !! atlas_structure_file settings a struct = None)).
Proof.
  induction ids as [|x xs IH]; intros s fs.
  - left. exists s. split; [done|]. intros a Hin. by apply elem_of_nil in Hin.
  - rewrite !for_each_M_cons.
    destruct (read_atlas_outcome x s fs) as [(s1 & Hx & Hp)|(Hx & Hmiss)]; rewrite Hx.
    + destruct (IH s1 fs) as [(s' & Hloop & Hall)|(Hloop & a & Hin & Hmiss)].
      * left. exists s'. split; [exact Hloop|]. intros a Hin.
        apply elem_of_cons in Hin as [->|Hin]; [done | by apply Hall].
      * right. split; [exact Hloop|]. exists a. split; [|done].
        by apply list_elem_of_further.
    + right. split; [done|]. exists x. split; [apply list_elem_of_here | done].
Qed.

Lemma missing_not_present (fs : Files) (a : string) :
  fs !! atlas_image_file settings a = None \/
  (exists struct, struct ∈ atlasStructures settings /\
     fs !! atlas_structure_file settings a struct = None) ->
  ~ atlas_files_present settings fs a.
Proof.
  intros [Hct|(struct & Hin & Hs)] [[ct Hc] Hall].
  - congruence.
  - destruct (Hall _ Hin) as [image Hi]. congruence.
Qed.

(** Reading the atlases returns when the image file and every structure file
    of every atlas of [atlasIdList] is in the store. *)
Theorem read_atlases_returns (fs : Files) :
  (forall atlas_id, atlas_id ∈ atlasIdList settings ->
     atlas_files_present settings fs atlas_id) ->
  exists atlas_set, read_atlases settings fs = (fs, Ok atlas_set).
Proof.
  intros Hall. unfold read_atlases.
  destruct (read_atlases_outcome (atlasIdList settings) ∅ fs)
    as [(s' & Hloop & _)|(_ & a & Hin & Hmiss)]; [by exists s'|].
  by destruct (missing_not_present fs a Hmiss (Hall a Hin)).
Qed.

(** A missing atlas file ends the reading with the [RuntimeError] of
    [sitk.ReadImage]; the file store is as it was. *)
Theorem read_atlases_missing_file (fs : Files) (atlas_id : string) :
  atlas_id ∈ atlasIdList settings ->
  fs !! atlas_image_file settings atlas_id = None \/
  (exists struct, struct ∈ atlasStructures settings /\
     fs !! atlas_structure_file settings atlas_id struct = None) ->
  read_atlases settings fs = (fs, Raise (RuntimeError "ReadImage")).
Proof.
  intros Hin Hmiss. unfold read_atlases.
  destruct (read_atlases_outcome (atlasIdList settings) ∅ fs)
    as [(s' & _ & Hall)|(Hloop & _)]; [|done].
  by destruct (missing_not_present fs atlas_id Hmiss (Hall atlas_id Hin)).
Qed.
End Reading.

Lemma atlas_files_present_b_true settings fs a :
  atlas_files_present_b settings fs a = true -> atlas_files_present settings fs a.
Proof.
  unfold atlas_files_present_b. rewrite andb_true_iff, forallb_forall.
  intros [Hct Hstructs]. apply bool_decide_eq_true in Hct. split; [done|].
  intros struct Hin. apply list_elem_of_In, Hstructs in Hin.
  by apply bool_decide_eq_true in Hin.
Qed.

Lemma sample_atlas_files_present :
  forall atlas_id, atlas_id ∈ atlasIdList Sample.settings ->
    atlas_files_present Sample.settings (Sample.files (Sample.constant_image 2 2 2 5))
      atlas_id.
Proof.
  assert (Hall : forallb (atlas_files_present_b Sample.settings
                            (Sample.files (Sample.constant_image 2 2 2 5)))
                   (atlasIdList Sample.settings) = true)
    by (vm_compute; reflexivity).
  rewrite forallb_forall in Hall. intros a Ha.
  by apply atlas_files_present_b_true, Hall, list_elem_of_In.
Qed.

(** The atlas files of the sample run, read. *)
Lemma read_atlases_contents_sample :
  let fs := Sample.files (Sample.constant_image 2 2 2 5) in
  let atlas_set := Sample.atlas_set fs in
  fst (read_atlases Sample.settings fs) = fs /\
  (exists ct, fs !! atlas_image_file Sample.settings "11" = Some ct /\
     ("CT Image" ∉ atlasStructures Sample.settings ->
      get_entry atlas_set "11" "Original" "CT Image" = Ok (EImage ct))) /\
  (forall struct, struct ∈ atlasStructures Sample.settings ->
     exists image,
       fs !! atlas_structure_file Sample.settings "11" struct = Some image /\
       get_entry atlas_set "11" "Original" struct = Ok (EImage image)).
Proof.
  intros fs atlas_set.
  apply (read_atlases_contents Sample.settings fs
           (fst (read_atlases Sample.settings fs)) atlas_set "11").
  - vm_cast_no_check (eq_refl (fst (read_atlases Sample.settings fs), Ok atlas_set)).
  - apply list_elem_of_further, list_elem_of_here.
Defined.

(** Every atlas file of the sample run is in the store. *)
Lemma read_atlases_returns_sample :
  let fs := Sample.files (Sample.constant_image 2 2 2 5) in
  exists atlas_set, read_atlases Sample.settings fs = (fs, Ok atlas_set).
Proof.
  intros fs. apply (read_atlases_returns Sample.settings fs).
  exact sample_atlas_files_present.
Defined.

(** The sample run without the whole-heart file of atlas 12. *)
Lemma read_atlases_missing_file_sample :
  let fs :=
    delete "/atlas/Case_12/Structures/Case_12_WHOLEHEART_CROP.nii.gz"
      (Sample.files (Sample.constant_image 2 2 2 5)) in
  read_atlases Sample.settings fs = (fs, Raise (RuntimeError "ReadImage")).
Proof.
  intros fs. apply (read_atlases_missing_file Sample.settings fs "12").
  - apply list_elem_of_further, list_elem_of_further, list_elem_of_here.
  - right. exists "WHOLEHEART". split; [apply list_elem_of_here|].
    vm_compute. reflexivity.
Defined.

(** ** The atlas set through the stages *)

Section Stages.
Context (C : Collaborators) (settings : Settings).
Variable img_crop : Image Z.

Lemma weight_map_atlas_dom s s' a :
  weight_map_atlas C img_crop a s = Ok s' -> dom s' = dom s.
Proof.
  unfold weight_map_atlas. intros H.
  apply bind_Ok in H as (atlas_image & _ & H).
  apply bind_Ok in H as (weight_map & _ & H).
  by apply set_entry_dom in H.
Qed.

(** The atlas set that is handed to the outlier rejection holds exactly the
    atlases of [atlasIdList]: reading creates one record per identifier, and
    the registration loops and the weight-map loop neither add nor drop a
    record. *)
Theorem atlas_set_holds_configured_atlases (fs fs' : Files)
    (atlas_set registered weighted : AtlasSet) (atlas_id : string) :
  read_atlases settings fs = (fs', Ok atlas_set) ->
  register_atlases C settings img_crop atlas_set = Ok registered ->
  for_each (atlasIdList settings) (weight_map_atlas C img_crop) registered
    = Ok weighted ->
  is_Some (weighted !! atlas_id) <-> atlas_id ∈ atlasIdList settings.
Proof.
  intros Hread Hreg Hw.
  apply read_atlases_loop in Hread as (_ & Hdom & _).
  unfold register_atlases in Hreg. apply bind_Ok in Hreg as (s1 & Hr & Hd).
  apply (for_each_dom _ _ (fun x s s' => rigid_register_dom C settings img_crop s s' x)) in Hr.
  apply (for_each_dom _ _ (fun x s s' => deformable_register_dom C settings img_crop s s' x)) in Hd.
  apply (for_each_dom _ _ (fun x s s' => weight_map_atlas_dom s s' x)) in Hw.
  rewrite <- elem_of_dom, Hw, Hd, Hr, Hdom, dom_empty_L, (right_id_L ∅ (∪)).
  apply elem_of_list_to_set.
Qed.

(** Stage data is only appended.  Once the loop of a stage has finished, the
    later loops leave the dictionary of that stage as it is: the [Original]
    stage is what it was before the registration, the [RIR] stage what the
    rigid loop left, and the [DIR] stage what the deformable loop left, but
    for the ["Weight Map"] key. *)
Theorem stages_are_only_appended (atlas_set rigid deformed weighted : AtlasSet) :
  for_each (atlasIdList settings) (rigid_register C settings img_crop) atlas_set
    = Ok rigid ->
  for_each (atlasIdList settings) (deformable_register C settings img_crop) rigid
    = Ok deformed ->
  for_each (atlasIdList settings) (weight_map_atlas C img_crop) deformed
    = Ok weighted ->
  (forall atlas_id key,
     get_entry weighted atlas_id "Original" key
     = get_entry atlas_set atlas_id "Original" key) /\
  (forall atlas_id key,
     get_entry weighted atlas_id "RIR" key = get_entry rigid atlas_id "RIR" key) /\
  (forall atlas_id key, key <> "Weight Map" ->
     get_entry weighted atlas_id "DIR" key = get_entry deformed atlas_id "DIR" key).
Proof.
  intros Hr Hd Hw.
  apply rigid_stage in Hr as [_ Hfr]. apply deformable_stage in Hd as [_ Hfd].
  pose proof (weight_map_stage C img_crop _ _ _ Hw) as Hfw.
  split; [|split].
  - intros a k. rewrite Hfw by (by left). rewrite Hfd by done. by apply Hfr.
  - intros a k. rewrite Hfw by (by left). by apply Hfd.
  - intros a k Hk. apply Hfw. by right.
Qed.

Lemma weight_map_atlas_get s s' a :
  weight_map_atlas C img_crop a s = Ok s' ->
  exists atlas_image weight_map,
    get_entry s a "DIR" "CT Image" = Ok (EImage atlas_image) /\
    compute_weight_map C img_crop atlas_image = Ok weight_map /\
    get_entry s' a "DIR" "Weight Map" = Ok (EWeight weight_map).
Proof.
  unfold weight_map_atlas. intros H.
  apply bind_Ok in H as (atlas_image & Hi & H).
  apply bind_Ok in Hi as (e & He & Hi). apply as_image_Ok in Hi as ->.
  apply bind_Ok in H as (weight_map & Hw & H).
  exists atlas_image, weight_map. split; [done|]. split; [done|].
  rewrite (get_entry_set_entry _ _ _ _ _ _ _ _ _ H). by rewrite decide_True.
Qed.

(** The weight maps (lines 283-286).  When the loop returns, every atlas of
    [atlasIdList] holds under [DIR], ["Weight Map"] the weight map computed
    from the cropped target and the deformed image of that atlas. *)
Theorem weight_maps_stored (ids : list string) (atlas_set weighted : AtlasSet)
    (atlas_id : string) :
  for_each ids (weight_map_atlas C img_crop) atlas_set = Ok weighted ->
  atlas_id ∈ ids ->
  exists atlas_image weight_map,
    get_entry atlas_set atlas_id "DIR" "CT Image" = Ok (EImage atlas_image) /\
    compute_weight_map C img_crop atlas_image = Ok weight_map /\
    get_entry weighted atlas_id "DIR" "Weight Map" = Ok (EWeight weight_map).
Proof.
  revert weighted. induction ids as [|x l IH] using rev_ind; intros s' H Hin.
  { by apply elem_of_nil in Hin. }
  rewrite for_each_app in H. apply bind_Ok in H as (s1 & H1 & Hx).
  cbn in Hx. apply bind_Ok in Hx as (s2 & Hx & [= ->]).
  destruct (decide (atlas_id = x)) as [->|Hne].
  - destruct (weight_map_atlas_get _ _ _ Hx) as (image & w & Hi & Hw & Hget).
    exists image, w. split; [|done].
    rewrite <- Hi. symmetry. apply (weight_map_stage C img_crop _ _ _ H1). by right.
  - apply elem_of_app in Hin as [Hin|Hin]; [|by apply list_elem_of_singleton in Hin].
    destruct (IH _ H1 Hin) as (image & w & Hi & Hw & Hget).
    exists image, w. split; [done|]. split; [done|].
    rewrite <- Hget. unfold weight_map_atlas in Hx.
    apply bind_Ok in Hx as (ai & _ & Hx). apply bind_Ok in Hx as (wm & _ & Hx).
    rewrite (get_entry_set_entry _ _ _ _ _ _ _ _ _ Hx). rewrite decide_False; [done|].
    by intros (? & _).
Qed.

(** A guide structure that was not read.  The [Original] stage holds the CT
    image and the structures of [atlasStructures] and nothing else, so a
    [guideStructure] that is none of them makes the rigid registration of the
    first atlas raise [KeyError], before any registration is run. *)
Theorem unread_guide_structure_raises (fs fs' : Files) (atlas_set : AtlasSet)
    (guide_structure atlas_id : string) (rest : list string) :
  read_atlases settings fs = (fs', Ok atlas_set) ->
  atlasIdList settings = atlas_id :: rest ->
  truthy (guideStructure settings) = Some guide_structure ->
  guide_structure <> "CT Image" ->
  guide_structure ∉ atlasStructures settings ->
  register_atlases C settings img_crop atlas_set = Raise (KeyError guide_structure).
Proof.
  intros Hread Hids Hg Hct Hnot.
  apply read_atlases_loop in Hread as (_ & _ & Hread & _).
  assert (Hin : atlas_id ∈ atlasIdList settings) by (rewrite Hids; apply list_elem_of_here).
  destruct (Hread _ Hin) as ((ct & _ & Himg) & Hstructs & _ & Hkeys).
  assert (Hci : holds_image atlas_set atlas_id "Original" "CT Image").
  { destruct (decide ("CT Image" ∈ atlasStructures settings)) as [Hc|Hc].
    - destruct (Hstructs _ Hc) as (image & _ & ?). by exists image.
    - exists ct. by apply Himg. }
  destruct (set_stage_Ok atlas_set atlas_id "RIR" "Original" ∅
              (holds_image_has_stage _ _ _ _ Hci)) as (s1 & H1 & _).
  unfold register_atlases. rewrite Hids. cbn [for_each].
  assert (Hx : rigid_register C settings img_crop atlas_id atlas_set
               = Raise (KeyError guide_structure)).
  { unfold rigid_register. rewrite H1. cbn.
    destruct Hci as [image Hci].
    rewrite (get_entry_set_stage _ _ _ _ _ _ _ _ H1), decide_False by (by intros [_ ?]).
    rewrite Hci. cbn. rewrite Hg.
    rewrite (get_entry_set_stage _ _ _ _ _ _ _ _ H1), decide_False by (by intros [_ ?]).
    rewrite (Hkeys _ Hct Hnot). done. }
  rewrite Hx. done.
Qed.
End Stages.

(** The atlas set of the sample run after the weight maps. *)
Lemma atlas_set_holds_configured_atlases_sample :
  let C := Sample.collaborators Sample.lung_box in
  let fs := Sample.files (Sample.constant_image 2 2 2 5) in
  let registered :=
    Sample.unwrap (register_atlases C Sample.settings Sample.img_crop
                     (Sample.atlas_set fs)) in
  let weighted :=
    Sample.unwrap (for_each (atlasIdList Sample.settings)
                     (weight_map_atlas C Sample.img_crop) registered) in
  is_Some (weighted !! "11") <-> "11" ∈ atlasIdList Sample.settings.
Proof.
  intros C fs registered weighted.
  apply (atlas_set_holds_configured_atlases C Sample.settings Sample.img_crop fs fs
           (Sample.atlas_set fs) registered weighted "11").
  - vm_cast_no_check (eq_refl (fs, Ok (Sample.atlas_set fs))).
  - vm_cast_no_check (eq_refl (Ok registered)).
  - vm_cast_no_check (eq_refl (Ok weighted)).
Defined.

(** The three loops of the sample run. *)
Lemma stages_are_only_appended_sample :
  let C := Sample.collaborators Sample.lung_box in
  let fs := Sample.files (Sample.constant_image 2 2 2 5) in
  let atlas_set := Sample.atlas_set fs in
  let rigid :=
    Sample.unwrap (for_each (atlasIdList Sample.settings)
                     (rigid_register C Sample.settings Sample.img_crop) atlas_set) in
  let deformed :=
    Sample.unwrap (for_each (atlasIdList Sample.settings)
                     (deformable_register C Sample.settings Sample.img_crop) rigid) in
  let weighted :=
    Sample.unwrap (for_each (atlasIdList Sample.settings)
                     (weight_map_atlas C Sample.img_crop) deformed) in
  (forall atlas_id key,
     get_entry weighted atlas_id "Original" key
     = get_entry atlas_set atlas_id "Original" key) /\
  (forall atlas_id key,
     get_entry weighted atlas_id "RIR" key = get_entry rigid atlas_id "RIR" key) /\
  (forall atlas_id key, key <> "Weight Map" ->
     get_entry weighted atlas_id "DIR" key = get_entry deformed atlas_id "DIR" key).
Proof.
  intros C fs atlas_set rigid deformed weighted.
  apply (stages_are_only_appended C Sample.settings Sample.img_crop atlas_set rigid
           deformed weighted).
  - vm_cast_no_check (eq_refl (Ok rigid)).
  - vm_cast_no_check (eq_refl (Ok deformed)).
  - vm_cast_no_check (eq_refl (Ok weighted)).
Defined.

(** The weight map of atlas 11 in the sample run. *)
Lemma weight_maps_stored_sample :
  let C := Sample.collaborators Sample.lung_box in
  let fs := Sample.files (Sample.constant_image 2 2 2 5) in
  let registered :=
    Sample.unwrap (register_atlases C Sample.settings Sample.img_crop
                     (Sample.atlas_set fs)) in
  let weighted :=
    Sample.unwrap (for_each (atlasIdList Sample.settings)
                     (weight_map_atlas C Sample.img_crop) registered) in
  exists atlas_image weight_map,
    get_entry registered "11" "DIR" "CT Image" = Ok (EImage atlas_image) /\
    compute_weight_map C Sample.img_crop atlas_image = Ok weight_map /\
    get_entry weighted "11" "DIR" "Weight Map" = Ok (EWeight weight_map).
Proof.
  intros C fs registered weighted.
  apply (weight_maps_stored C Sample.img_crop (atlasIdList Sample.settings)
           registered weighted "11").
  - vm_cast_no_check (eq_refl (Ok weighted)).
  - apply list_elem_of_further, list_elem_of_here.
Defined.

(** The sample run with a guide structure that is not among the atlas
    structures. *)
Lemma unread_guide_structure_raises_sample :
  let C := Sample.collaborators Sample.lung_box in
  let settings := Sample.guided_settings "LUNGS" in
  let fs := Sample.files (Sample.constant_image 2 2 2 5) in
  let atlas_set := Sample.unwrap (snd (read_atlases settings fs)) in
  register_atlases C settings Sample.img_crop atlas_set = Raise (KeyError "LUNGS").
Proof.
  intros C settings fs atlas_set.
  apply (unread_guide_structure_raises C settings Sample.img_crop fs fs atlas_set
           "LUNGS" "08" ["11"; "12"; "13"; "14"]).
  - vm_cast_no_check (eq_refl (fs, Ok atlas_set)).
  - reflexivity.
  - reflexivity.
  - discriminate.
  - intros Hin. apply elem_of_cons in Hin as [Hin|Hin]; [discriminate|].
    apply elem_of_cons in Hin as [Hin|Hin]; [discriminate|].
    by apply elem_of_nil in Hin.
Defined.

(** ** The images through the registration *)

Section Images.
Context (C : Collaborators) (settings : Settings).
Variable img_crop : Image Z.

Hypothesis image_key_free : "CT Image" ∉ atlasStructures settings.
Hypothesis transform_key_free : "Transform" ∉ atlasStructures settings.

Lemma rigid_register_images s s' a :
  rigid_register C settings img_crop a s = Ok s' ->
  rigid_images C settings img_crop s s' a.
Proof.
  unfold rigid_register. intros H.
  apply bind_Ok in H as (s1 & H1 & H).
  assert (Hs1 : forall k, get_entry s1 a "Original" k = get_entry s a "Original" k).
  { intros k. rewrite (get_entry_set_stage _ _ _ _ _ _ _ _ H1), decide_False; [done|].
    by intros (_ & [=]). }
  apply bind_Ok in H as (atlas_image & Hi & H).
  apply bind_Ok in Hi as (e & He & Hi). apply as_image_Ok in Hi as ->.
  rewrite Hs1 in He.
  apply bind_Ok in H as (atlas_struct & Hg & H).
  apply bind_Ok in H as ([rigid_image tfm] & Hreg & H).
  apply bind_Ok in H as (s2 & H2 & H).
  apply bind_Ok in H as (s3 & H3 & H).
  exists atlas_image, atlas_struct, rigid_image, tfm.
  split; [done|]. split; [|split; [done|]].
  - destruct (truthy (guideStructure settings)) as [g|]; [|by injection Hg as <-].
    apply fmap_Ok in Hg as (guide & Hg & ->).
    apply bind_Ok in Hg as (e & He' & Hg). apply as_image_Ok in Hg as ->.
    rewrite Hs1 in He'. by exists guide.
  - rewrite !(rigid_propagate_loop_keys _ _ _ _ _ _ _ H) by done.
    rewrite !(get_entry_set_entry _ _ _ _ _ _ _ _ _ H3).
    rewrite decide_False by (by intros (_ & _ & [=])). rewrite decide_True by done.
    rewrite (get_entry_set_entry _ _ _ _ _ _ _ _ _ H2). by rewrite decide_True.
Qed.

Lemma rigid_stage_images ids s s' :
  for_each ids (rigid_register C settings img_crop) s = Ok s' ->
  forall a, a ∈ ids -> rigid_images C settings img_crop s s' a.
Proof.
  revert s'. induction ids as [|x l IH] using rev_ind; intros s' H a Hin.
  { by apply elem_of_nil in Hin. }
  rewrite for_each_app in H. apply bind_Ok in H as (s1 & H1 & Hx).
  cbn in Hx. apply bind_Ok in Hx as (s2 & Hx & [= ->]).
  destruct (decide (a = x)) as [->|Hne].
  - apply rigid_register_images in Hx as (o & g & r & t & Ho & Hg & Hreg & Hr & Ht).
    apply rigid_stage in H1 as [_ Hframe].
    exists o, g, r, t. rewrite <- (Hframe x "Original") by done.
    split; [done|]. split; [|done].
    destruct (truthy (guideStructure settings)) as [gs|]; [|done].
    destruct Hg as (guide & Hg & ->). exists guide.
    by rewrite <- (Hframe x "Original") by done.
  - apply elem_of_app in Hin as [Hin|Hin]; [|by apply list_elem_of_singleton in Hin].
    destruct (IH _ H1 _ Hin) as (o & g & r & t & Ho & Hg & Hreg & Hr & Ht).
    apply rigid_register_spec in Hx as [_ Hframe].
    exists o, g, r, t. rewrite !Hframe by (by left). done.
Qed.

Lemma deformable_register_images s s' a :
  deformable_register C settings img_crop a s = Ok s' ->
  deformable_images C settings img_crop s s' a.
Proof.
  unfold deformable_register. intros H.
  apply bind_Ok in H as (s1 & H1 & H).
  apply bind_Ok in H as (atlas_image & Hi & H).
  apply bind_Ok in Hi as (e & He & Hi). apply as_image_Ok in Hi as ->.
  rewrite (get_entry_set_stage _ _ _ _ _ _ _ _ H1), decide_False in He
    by (by intros (_ & [=])).
  apply bind_Ok in H as ([deform_image field] & Hreg & H).
  apply bind_Ok in H as (s2 & H2 & H).
  apply bind_Ok in H as (s3 & H3 & H).
  exists atlas_image, deform_image, field. split; [done|]. split; [done|].
  rewrite !(deformable_propagate_loop_keys _ _ _ _ _ _ H) by done.
  rewrite !(get_entry_set_entry _ _ _ _ _ _ _ _ _ H3).
  rewrite decide_False by (by intros (_ & _ & [=])). rewrite decide_True by done.
  rewrite (get_entry_set_entry _ _ _ _ _ _ _ _ _ H2). by rewrite decide_True.
Qed.

Lemma deformable_stage_images ids s s' :
  for_each ids (deformable_register C settings img_crop) s = Ok s' ->
  forall a, a ∈ ids -> deformable_images C settings img_crop s s' a.
Proof.
  revert s'. induction ids as [|x l IH] using rev_ind; intros s' H a Hin.
  { by apply elem_of_nil in Hin. }
  rewrite for_each_app in H. apply bind_Ok in H as (s1 & H1 & Hx).
  cbn in Hx. apply bind_Ok in Hx as (s2 & Hx & [= ->]).
  destruct (decide (a = x)) as [->|Hne].
  - apply deformable_register_images in Hx as (r & d & f & Hr & Hreg & Hd & Hf).
    apply deformable_stage in H1 as [_ Hframe].
    exists r, d, f. by rewrite <- (Hframe x "RIR") by done.
  - apply elem_of_app in Hin as [Hin|Hin]; [|by apply list_elem_of_singleton in Hin].
    destruct (IH _ H1 _ Hin) as (r & d & f & Hr & Hreg & Hd & Hf).
    apply deformable_register_spec in Hx as [_ Hframe].
    exists r, d, f. rewrite !Hframe by (by left). done.
Qed.

(** The images through the registration.  When the registration stages
    return (and no structure is named like the image or the transform key),
    every atlas of the list holds under [RIR] the image and the transform the
    rigid registration returned for its [Original] image (with the guide
    structure of its [Original] stage, when one is configured), and under
    [DIR] the image and the field the deformable registration returned for
    that rigidly registered image. *)
Theorem images_registered (atlas_set registered : AtlasSet) (atlas_id : string) :
  register_atlases C settings img_crop atlas_set = Ok registered ->
  atlas_id ∈ atlasIdList settings ->
  exists original atlas_struct rigid_image initial_tfm deform_image deform_field,
    get_entry atlas_set atlas_id "Original" "CT Image" = Ok (EImage original) /\
    match truthy (guideStructure settings) with
    | Some guide_structure =>
        exists guide,
          get_entry atlas_set atlas_id "Original" guide_structure
            = Ok (EImage guide) /\
          atlas_struct = Some guide
    | None => atlas_struct = None
    end /\
    initial_registration C img_crop original atlas_struct (rigidOptions settings)
      (rigidTrace settings) (initialReg settings) = Ok (rigid_image, initial_tfm) /\
    get_entry registered atlas_id "RIR" "CT Image" = Ok (EImage rigid_image) /\
    get_entry registered atlas_id "RIR" "Transform" = Ok (ETransform initial_tfm) /\
    fast_symmetric_forces_demons_registration C img_crop rigid_image
      (resolutionStaging settings) (iterationStaging settings) (ncores settings)
      (deformableTrace settings) = Ok (deform_image, deform_field) /\
    get_entry registered atlas_id "DIR" "CT Image" = Ok (EImage deform_image) /\
    get_entry registered atlas_id "DIR" "Transform" = Ok (EField deform_field).
Proof.
  unfold register_atlases. intros H Hin.
  apply bind_Ok in H as (s1 & Hrigid & Hdeform).
  destruct (rigid_stage_images _ _ _ Hrigid _ Hin)
    as (o & g & r & t & Ho & Hg & Hreg & Hr & Ht).
  destruct (deformable_stage_images _ _ _ Hdeform _ Hin)
    as (r' & d & f & Hr' & Hdem & Hd & Hf).
  rewrite Hr in Hr'. injection Hr' as <-.
  apply deformable_stage in Hdeform as [_ Hframe].
  exists o, g, r, t, d, f. rewrite !(Hframe atlas_id "RIR") by done. done.
Qed.
End Images.

(** The images of atlas 12 in the sample run. *)
Lemma images_registered_sample :
  let C := Sample.collaborators Sample.lung_box in
  let fs := Sample.files (Sample.constant_image 2 2 2 5) in
  let atlas_set := Sample.atlas_set fs in
  let registered :=
    Sample.unwrap (register_atlases C Sample.settings Sample.img_crop atlas_set) in
  exists original atlas_struct rigid_image initial_tfm deform_image deform_field,
    get_entry atlas_set "12" "Original" "CT Image" = Ok (EImage original) /\
    atlas_struct = None /\
    initial_registration C Sample.img_crop original atlas_struct
      (rigidOptions Sample.settings) (rigidTrace Sample.settings)
      (initialReg Sample.settings) = Ok (rigid_image, initial_tfm) /\
    get_entry registered "12" "RIR" "CT Image" = Ok (EImage rigid_image) /\
    get_entry registered "12" "RIR" "Transform" = Ok (ETransform initial_tfm) /\
    fast_symmetric_forces_demons_registration C Sample.img_crop rigid_image
      (resolutionStaging Sample.settings) (iterationStaging Sample.settings)
      (ncores Sample.settings) (deformableTrace Sample.settings)
      = Ok (deform_image, deform_field) /\
    get_entry registered "12" "DIR" "CT Image" = Ok (EImage deform_image) /\
    get_entry registered "12" "DIR" "Transform" = Ok (EField deform_field).
Proof.
  intros C fs atlas_set registered.
  apply (images_registered C Sample.settings Sample.img_crop).
  - intros Hin. apply elem_of_cons in Hin as [Hin|Hin]; [discriminate|].
    apply elem_of_cons in Hin as [Hin|Hin]; [discriminate|].
    by apply elem_of_nil in Hin.
  - intros Hin. apply elem_of_cons in Hin as [Hin|Hin]; [discriminate|].
    apply elem_of_cons in Hin as [Hin|Hin]; [discriminate|].
    by apply elem_of_nil in Hin.
  - vm_cast_no_check (eq_refl (Ok registered)).
  - apply list_elem_of_further, list_elem_of_further, list_elem_of_here.
Defined.

(** ** What the service writes *)

Lemma writes_only_reads_only {A} (P : string -> Prop) (m : M A) :
  reads_only m -> writes_only P m.
Proof.
  intros Hm fs p _. destruct (m fs) as [fs' r] eqn:E. by rewrite (Hm _ _ _ E).
Qed.

Lemma writes_only_mono {A} (P Q : string -> Prop) (m : M A) :
  (forall p, P p -> Q p) -> writes_only P m -> writes_only Q m.
Proof. intros HPQ Hm fs p Hp. apply Hm. intros HP. by apply Hp, HPQ. Qed.

Lemma writes_only_bind {A B} (P : string -> Prop) (m : M A) (k : A -> M B) :
  writes_only P m -> (forall a, writes_only P (k a)) -> writes_only P (m ≫= k).
Proof.
  intros Hm Hk fs p Hp. rewrite M_bind_unfold. specialize (Hm fs p Hp).
  destruct (m fs) as [fs1 [a|e]]; cbn [fst] in *; [|done].
  by rewrite (Hk a fs1 p Hp).
Qed.

Lemma writes_only_for_each {A S} (P : string -> Prop) (xs : list A)
    (body : A -> S -> M S) :
  (forall x s, x ∈ xs -> writes_only P (body x s)) ->
  forall s, writes_only P (for_each_M xs body s).
Proof.
  induction xs as [|x xs IH]; intros Hb s; cbn [for_each_M].
  - by intros fs p _.
  - apply writes_only_bind; [apply Hb, list_elem_of_here|].
    intros s'. apply IH. intros y t Hy. by apply Hb, list_elem_of_further.
Qed.

Lemma for_each_M_invariant {A S} (Inv : Files -> S -> Prop) (xs : list A)
    (body : A -> S -> M S) :
  (forall x s fs fs' s', body x s fs = (fs', Ok s') -> Inv fs s -> Inv fs' s') ->
  forall s fs fs' s', for_each_M xs body s fs = (fs', Ok s') -> Inv fs s -> Inv fs' s'.
Proof.
  intros Hb. induction xs as [|x xs IH]; intros s fs fs' s' H Hinv.
  - cbn in H. by injection H as <- <-.
  - cbn [for_each_M] in H. apply M_bind_Ok in H as (fs1 & s1 & Hx & H).
    eapply IH; [exact H|]. by eapply Hb.
Qed.

Section Written.
Context (C : Collaborators) (settings : Settings).
Variable working_dir : string.

Lemma writes_only_write_structure_path data_object template offset structure_name
    binary_struct outs :
  writes_only
    (fun p => exists name, format C (outputFormat settings) structure_name = Ok name /\
                p = os_path_join working_dir name)
    (write_structure C settings data_object working_dir template offset
       structure_name binary_struct outs).
Proof.
  intros fs p Hp. unfold write_structure.
  rewrite M_bind_unfold. unfold lift at 1.
  destruct (Paste _ _ _ _ _) as [paste_img|e]; [|done].
  rewrite M_bind_unfold. unfold lift at 1.
  destruct (format C (outputFormat settings) structure_name) as [name|e] eqn:Hn; [|done].
  rewrite M_bind_unfold. unfold WriteImage. cbn [fst].
  apply lookup_insert_ne. intros <-. apply Hp. by exists name.
Qed.

Lemma writes_only_write_vote data_object template offset combined_label_dict item outs :
  writes_only
    (fun p => exists name, format C (outputFormat settings) (fst item) = Ok name /\
                p = os_path_join working_dir name)
    (write_vote_structure C settings data_object working_dir template offset
       combined_label_dict item outs).
Proof.
  destruct item as [name thr]. unfold write_vote_structure.
  apply writes_only_bind; [apply writes_only_reads_only, reads_only_lift|].
  intros mask. apply writes_only_write_structure_path.
Qed.

Lemma writes_only_write_vessel data_object template offset segmented_vessel_dict
    structure_name outs :
  writes_only
    (fun p => exists name, format C (outputFormat settings) structure_name = Ok name /\
                p = os_path_join working_dir name)
    (write_vessel_structure C settings data_object working_dir template offset
       segmented_vessel_dict structure_name outs).
Proof.
  unfold write_vessel_structure.
  apply writes_only_bind; [apply writes_only_reads_only, reads_only_lift|].
  intros mask. apply writes_only_write_structure_path.
Qed.

Lemma vote_loop_frame data_object template offset combined_label_dict
    (items : list (string * Q)) outs fs p :
  (forall later name, later ∈ map fst items ->
     format C (outputFormat settings) later = Ok name ->
     p <> os_path_join working_dir name) ->
  fst (for_each_M items
         (write_vote_structure C settings data_object working_dir template offset
            combined_label_dict) outs fs) !! p = fs !! p.
Proof.
  intros Hp.
  apply (writes_only_for_each
           (fun q => exists later name, later ∈ map fst items /\
              format C (outputFormat settings) later = Ok name /\
              q = os_path_join working_dir name)).
  - intros item o Hin. eapply writes_only_mono; [|apply writes_only_write_vote].
    intros q (name & Hn & ->). exists (fst item), name. split; [|done].
    apply list_elem_of_fmap. by exists item.
  - intros (later & name & Hin & Hn & ->). by apply (Hp later name).
Qed.

Lemma vessel_loop_frame data_object template offset segmented_vessel_dict
    (names : list string) outs fs p :
  (forall later name, later ∈ names ->
     format C (outputFormat settings) later = Ok name ->
     p <> os_path_join working_dir name) ->
  fst (for_each_M names
         (write_vessel_structure C settings data_object working_dir template offset
            segmented_vessel_dict) outs fs) !! p = fs !! p.
Proof.
  intros Hp.
  apply (writes_only_for_each
           (fun q => exists later name, later ∈ names /\
              format C (outputFormat settings) later = Ok name /\
              q = os_path_join working_dir name)).
  - intros later o Hin. eapply writes_only_mono; [|apply writes_only_write_vessel].
    intros q (name & Hn & ->). by exists later, name.
  - intros (later & name & Hin & Hn & ->). by apply (Hp later name).
Qed.

(** The output loops write nothing but the output files.  Whether the two
    loops return or raise, every path other than
    [os.path.join(working_dir, outputFormat.format(structure))] for a voted
    structure or a vessel (paths compared as strings) holds after them what
    it held before them: the only files the loops write are those of their
    own [sitk.WriteImage] calls. *)
Theorem output_loops_write_only_output_files (data_object : DataObject)
    (img : Image Z) (offset : Index) (combined_label_dict : gmap string (Image Q))
    (segmented_vessel_dict : gmap string (Image Z)) (outs : list DataObject)
    (fs : Files) (p : string) :
  (forall structure_name name,
     structure_name ∈ map fst (optimalThreshold settings) \/
     structure_name ∈ vesselNameList settings ->
     format C (outputFormat settings) structure_name = Ok name ->
     p <> os_path_join working_dir name) ->
  fst (write_outputs C settings data_object working_dir img offset
         combined_label_dict segmented_vessel_dict outs fs) !! p = fs !! p.
Proof.
  intros Hp. unfold write_outputs. rewrite M_bind_unfold.
  pose proof (vote_loop_frame data_object (Cast_sitkUInt8 (Multiply img 0)) offset
                combined_label_dict (optimalThreshold settings) outs fs p) as Hvote.
  destruct (for_each_M (optimalThreshold settings) _ outs fs) as [fs1 [outs1|e]].
  - rewrite vessel_loop_frame by (intros later name Hin; apply Hp; by right).
    apply Hvote. intros later name Hin. apply Hp. by left.
  - apply Hvote. intros later name Hin. apply Hp. by left.
Qed.

Lemma objects_on_file_write_structure data_object template offset structure_name
    binary_struct outs fs fs' outs' :
  write_structure C settings data_object working_dir template offset
    structure_name binary_struct outs fs = (fs', Ok outs') ->
  objects_on_file fs outs -> objects_on_file fs' outs'.
Proof.
  unfold write_structure. intros H Hinv.
  apply M_bind_Ok in H as (fs1 & paste_img & Hp & H). apply lift_Ok in Hp as [-> Hp].
  apply M_bind_Ok in H as (fs2 & name & Hn & H). apply lift_Ok in Hn as [-> Hn].
  apply M_bind_Ok in H as (fs3 & [] & Hw & H).
  unfold WriteImage in Hw. injection Hw as <-. injection H as <- <-.
  intros object Hin. apply elem_of_app in Hin as [Hin|Hin].
  - destruct (Hinv _ Hin) as [Ht Hf]. split; [done|].
    rewrite lookup_insert_is_Some. destruct (decide (os_path_join working_dir name = data_path object)); auto.
  - apply list_elem_of_singleton in Hin as ->. split; [done|]. cbn.
    by rewrite lookup_insert_eq.
Qed.

Lemma objects_on_file_segment_target data_object outs fs fs' outs' :
  segment_target C settings working_dir data_object outs fs = (fs', Ok outs') ->
  objects_on_file fs outs -> objects_on_file fs' outs'.
Proof.
  unfold segment_target. intros H Hinv.
  apply M_bind_Ok in H as (fs1 & [[[img crop] img_crop] s] & Hprep & H).
  apply reads_only_prepare_target in Hprep as ->.
  apply M_bind_Ok in H as (fs2 & s1 & Hreg & H). apply lift_Ok in Hreg as [-> _].
  unfold finish_target in H.
  apply M_bind_Ok in H as (fs3 & s2 & Hl & H). apply lift_Ok in Hl as [-> _].
  apply M_bind_Ok in H as (fs3 & s3 & Hl & H). apply lift_Ok in Hl as [-> _].
  apply M_bind_Ok in H as (fs3 & vessels & Hl & H). apply lift_Ok in Hl as [-> _].
  apply M_bind_Ok in H as (fs3 & labels & Hl & H). apply lift_Ok in Hl as [-> _].
  unfold write_outputs in H. apply M_bind_Ok in H as (fs4 & outs1 & Hvote & Hvessel).
  eapply (for_each_M_invariant objects_on_file); [|exact Hvessel|].
  { intros name o f f' o' Hstep. unfold write_vessel_structure in Hstep.
    apply M_bind_Ok in Hstep as (fc & mask & Hm & Hw). apply lift_Ok in Hm as [-> _].
    by eapply objects_on_file_write_structure. }
  eapply (for_each_M_invariant objects_on_file); [|exact Hvote|exact Hinv].
  intros [name thr] o f f' o' Hstep. unfold write_vote_structure in Hstep.
  apply M_bind_Ok in Hstep as (fc & mask & Hm & Hw). apply lift_Ok in Hm as [-> _].
  by eapply objects_on_file_write_structure.
Qed.

(** Every data object the service returns is a [FILE] object whose path
    names a file that is in the store when the service returns: a mask that
    was written is not removed by the structures and targets after it. *)
Theorem returned_objects_are_on_file (data_objects : list DataObject)
    (fs fs' : Files) (output_objects : list DataObject) (object : DataObject) :
  cardiac_service C settings data_objects working_dir fs = (fs', Ok output_objects) ->
  object ∈ output_objects ->
  data_type object = "FILE" /\ is_Some (fs' !! data_path object).
Proof.
  unfold cardiac_service. intros H.
  apply (for_each_M_invariant objects_on_file) in H.
  - exact (H object).
  - intros d outs f f' outs'. apply objects_on_file_segment_target.
  - intros o Hin. by apply elem_of_nil in Hin.
Qed.

Lemma segment_target_objects data_object outs fs fs' outs' :
  segment_target C settings working_dir data_object outs fs = (fs', Ok outs') ->
  exists objects,
    Forall2 (output_of C settings data_object working_dir)
      (map fst (optimalThreshold settings) ++ vesselNameList settings)%list objects /\
    outs' = (outs ++ objects)%list.
Proof.
  unfold segment_target. intros H.
  apply M_bind_Ok in H as (fs1 & [[[img crop] img_crop] s] & _ & H).
  apply M_bind_Ok in H as (fs2 & s1 & _ & H).
  unfold finish_target in H.
  apply M_bind_Ok in H as (fs3 & s2 & _ & H).
  apply M_bind_Ok in H as (fs4 & s3 & _ & H).
  apply M_bind_Ok in H as (fs5 & vessels & _ & H).
  apply M_bind_Ok in H as (fs6 & labels & _ & H).
  unfold write_outputs in H. apply M_bind_Ok in H as (fs7 & outs1 & Hvote & Hvessel).
  apply (for_each_M_objects C settings data_object working_dir fst) in Hvote
    as (o1 & Ho1 & ->).
  2:{ intros [name thr] o f f' o' Hstep. unfold write_vote_structure in Hstep.
      apply M_bind_Ok in Hstep as (fsc & mask & _ & Hw).
      by apply write_structure_object in Hw. }
  apply (for_each_M_objects C settings data_object working_dir id) in Hvessel
    as (o2 & Ho2 & ->).
  2:{ intros name o f f' o' Hstep. unfold write_vessel_structure in Hstep.
      apply M_bind_Ok in Hstep as (fsc & mask & _ & Hw).
      by apply write_structure_object in Hw. }
  exists (o1 ++ o2)%list. rewrite map_id in Ho2. split.
  - by apply Forall2_app.
  - by rewrite app_assoc.
Qed.

Lemma service_objects_loop (data_objects : list DataObject) :
  forall outs fs fs' outs',
  for_each_M data_objects (segment_target C settings working_dir) outs fs
    = (fs', Ok outs') ->
  exists groups,
    Forall2
      (fun data_object objects =>
         Forall2 (output_of C settings data_object working_dir)
           (map fst (optimalThreshold settings) ++ vesselNameList settings)%list
           objects)
      data_objects groups /\
    outs' = (outs ++ concat groups)%list.
Proof.
  induction data_objects as [|d ds IH]; intros outs fs fs' outs' H.
  - cbn in H. injection H as _ <-. exists []. split; [constructor|].
    by rewrite app_nil_r.
  - cbn [for_each_M] in H. apply M_bind_Ok in H as (fs1 & outs1 & Hd & H).
    apply segment_target_objects in Hd as (objects & Hobjects & ->).
    destruct (IH _ _ _ _ H) as (groups & Hgroups & ->).
    exists (objects :: groups). split; [by constructor|].
    cbn [concat]. by rewrite app_assoc.
Qed.

(** The list the service returns (lines 100-101 and 397) is the
    concatenation, in the order of the data objects, of one group per data
    object; the group of a data object holds one output object per voted
    structure and per vessel, with that data object as parent. *)
Theorem service_returns_one_group_per_target (data_objects : list DataObject)
    (fs fs' : Files) (output_objects : list DataObject) :
  cardiac_service C settings data_objects working_dir fs = (fs', Ok output_objects) ->
  exists groups,
    Forall2
      (fun data_object objects =>
         Forall2 (output_of C settings data_object working_dir)
           (map fst (optimalThreshold settings) ++ vesselNameList settings)%list
           objects)
      data_objects groups /\
    output_objects = concat groups.
Proof.
  unfold cardiac_service. intros H.
  apply service_objects_loop in H as (groups & Hgroups & ->). by exists groups.
Qed.

(** A structure the label fusion did not return.  The vote loop looks every
    structure of [optimalThreshold] up in the fused labels; at the first one
    that is missing the loop raises [KeyError], and the masks of the
    structures before it stay written. *)
Theorem missing_fused_label_raises (data_object : DataObject) (img : Image Z)
    (offset : Index) (combined_label_dict : gmap string (Image Q))
    (segmented_vessel_dict : gmap string (Image Z))
    (before after : list (string * Q)) (structure_name : string)
    (optimal_threshold : Q) (outs outs1 : list DataObject) (fs fs1 : Files) :
  optimalThreshold settings
    = (before ++ (structure_name, optimal_threshold) :: after)%list ->
  for_each_M before
    (write_vote_structure C settings data_object working_dir
       (Cast_sitkUInt8 (Multiply img 0)) offset combined_label_dict) outs fs
    = (fs1, Ok outs1) ->
  combined_label_dict !! structure_name = None ->
  write_outputs C settings data_object working_dir img offset combined_label_dict
    segmented_vessel_dict outs fs
  = (fs1, Raise (KeyError structure_name)).
Proof.
  intros Hsplit Hbefore Hnone. unfold write_outputs. rewrite Hsplit.
  rewrite M_bind_unfold, for_each_M_app, M_bind_unfold, Hbefore.
  rewrite for_each_M_cons. unfold write_vote_structure at 1.
  rewrite M_bind_unfold. unfold lift at 1, getitem. by rewrite Hnone.
Qed.

Lemma write_structure_file data_object template offset structure_name binary_struct
    outs fs fs' outs' :
  write_structure C settings data_object working_dir template offset
    structure_name binary_struct outs fs = (fs', Ok outs') ->
  exists name paste_img,
    format C (outputFormat settings) structure_name = Ok name /\
    Paste template binary_struct (GetSize binary_struct) (0, 0, 0) offset
      = Ok paste_img /\
    fs' !! os_path_join working_dir name = Some paste_img.
Proof.
  unfold write_structure. intros H.
  apply M_bind_Ok in H as (fs1 & paste_img & Hp & H). apply lift_Ok in Hp as [-> Hp].
  apply M_bind_Ok in H as (fs2 & name & Hn & H). apply lift_Ok in Hn as [-> Hn].
  apply M_bind_Ok in H as (fs3 & [] & Hw & H).
  unfold WriteImage in Hw. injection Hw as <-. injection H as <- _.
  exists name, paste_img. by rewrite lookup_insert_eq.
Qed.

(** The file of a voted structure.  When the output loops return, the file
    of a structure of [optimalThreshold] holds the fused probability of that
    structure, cut at its threshold and pasted on the zero template at the
    crop origin, provided no structure after it in the two loops is written
    under the same path (a later one would overwrite it). *)
Theorem voted_structure_file (data_object : DataObject) (img : Image Z)
    (offset : Index) (combined_label_dict : gmap string (Image Q))
    (segmented_vessel_dict : gmap string (Image Z))
    (before after : list (string * Q)) (structure_name : string)
    (optimal_threshold : Q) (outs outs' : list DataObject) (fs fs' : Files) :
  optimalThreshold settings
    = (before ++ (structure_name, optimal_threshold) :: after)%list ->
  write_outputs C settings data_object working_dir img offset combined_label_dict
    segmented_vessel_dict outs fs = (fs', Ok outs') ->
  (forall later name name',
     later ∈ (map fst after ++ vesselNameList settings)%list ->
     format C (outputFormat settings) structure_name = Ok name ->
     format C (outputFormat settings) later = Ok name' ->
     os_path_join working_dir name' <> os_path_join working_dir name) ->
  exists probability binary_struct name paste_img,
    combined_label_dict !! structure_name = Some probability /\
    process_probability_image C probability optimal_threshold = Ok binary_struct /\
    format C (outputFormat settings) structure_name = Ok name /\
    Paste (Cast_sitkUInt8 (Multiply img 0)) binary_struct (GetSize binary_struct)
      (0, 0, 0) offset = Ok paste_img /\
    fs' !! os_path_join working_dir name = Some paste_img.
Proof.
  intros Hsplit H Hlater. unfold write_outputs in H.
  apply M_bind_Ok in H as (fs3 & outs3 & Hvote & Hvessel).
  rewrite Hsplit, for_each_M_app in Hvote.
  apply M_bind_Ok in Hvote as (fs1 & outs1 & _ & Hvote).
  rewrite for_each_M_cons in Hvote.
  destruct (write_vote_structure _ _ _ _ _ _ _ _ _ _) as [fs2 [outs2|e]] eqn:Hstep;
    [|done].
  unfold write_vote_structure in Hstep.
  apply M_bind_Ok in Hstep as (fsc & mask & Hm & Hw). apply lift_Ok in Hm as [-> Hm].
  apply bind_Ok in Hm as (prob & Hprob & Hm). apply getitem_Ok in Hprob.
  apply write_structure_file in Hw as (name & paste_img & Hn & Hp & Hfile).
  exists prob, mask, name, paste_img. repeat split; [done..|].
  assert (Hf3 : fs3 !! os_path_join working_dir name = Some paste_img).
  { rewrite <- Hfile.
    pose proof (vote_loop_frame data_object (Cast_sitkUInt8 (Multiply img 0)) offset
                  combined_label_dict after outs2 fs2
                  (os_path_join working_dir name)) as Hframe.
    rewrite Hvote in Hframe. apply Hframe. intros later name' Hin Hn' Heq.
    apply (Hlater later name name'); [|done..]. apply elem_of_app. by left. }
  rewrite <- Hf3.
  pose proof (vessel_loop_frame data_object (Cast_sitkUInt8 (Multiply img 0)) offset
                segmented_vessel_dict (vesselNameList settings) outs3 fs3
                (os_path_join working_dir name)) as Hframe.
  rewrite Hvessel in Hframe. apply Hframe. intros later name' Hin Hn' Heq.
  apply (Hlater later name name'); [|done..]. apply elem_of_app. by right.
Qed.

(** The file of a vessel.  When the output loops return, the file of a
    vessel of [vesselNameList] holds the mask the vessel splining returned for
    it, pasted on the zero template at the crop origin, provided no vessel
    after it in the list is written under the same path. *)
Theorem vessel_structure_file (data_object : DataObject) (img : Image Z)
    (offset : Index) (combined_label_dict : gmap string (Image Q))
    (segmented_vessel_dict : gmap string (Image Z))
    (before after : list string) (structure_name : string)
    (outs outs' : list DataObject) (fs fs' : Files) :
  vesselNameList settings = (before ++ structure_name :: after)%list ->
  write_outputs C settings data_object working_dir img offset combined_label_dict
    segmented_vessel_dict outs fs = (fs', Ok outs') ->
  (forall later name name',
     later ∈ after ->
     format C (outputFormat settings) structure_name = Ok name ->
     format C (outputFormat settings) later = Ok name' ->
     os_path_join working_dir name' <> os_path_join working_dir name) ->
  exists binary_struct name paste_img,
    segmented_vessel_dict !! structure_name = Some binary_struct /\
    format C (outputFormat settings) structure_name = Ok name /\
    Paste (Cast_sitkUInt8 (Multiply img 0)) binary_struct (GetSize binary_struct)
      (0, 0, 0) offset = Ok paste_img /\
    fs' !! os_path_join working_dir name = Some paste_img.
Proof.
  intros Hsplit H Hlater. unfold write_outputs in H.
  apply M_bind_Ok in H as (fs3 & outs3 & _ & Hvessel).
  rewrite Hsplit, for_each_M_app in Hvessel.
  apply M_bind_Ok in Hvessel as (fs1 & outs1 & _ & Hvessel).
  rewrite for_each_M_cons in Hvessel.
  destruct (write_vessel_structure _ _ _ _ _ _ _ _ _ _) as [fs2 [outs2|e]] eqn:Hstep;
    [|done].
  unfold write_vessel_structure in Hstep.
  apply M_bind_Ok in Hstep as (fsc & mask & Hm & Hw). apply lift_Ok in Hm as [-> Hm].
  apply getitem_Ok in Hm.
  apply write_structure_file in Hw as (name & paste_img & Hn & Hp & Hfile).
  exists mask, name, paste_img. repeat split; [done..|].
  rewrite <- Hfile.
  pose proof (vessel_loop_frame data_object (Cast_sitkUInt8 (Multiply img 0)) offset
                segmented_vessel_dict after outs2 fs2
                (os_path_join working_dir name)) as Hframe.
  rewrite Hvessel in Hframe. apply Hframe. intros later name' Hin Hn' Heq.
  by apply (Hlater later name name').
Qed.

(** A vessel the splining did not return: the vessel loop raises [KeyError]
    at it; the masks of the voted structures and of the vessels before it
    stay written. *)
Theorem missing_vessel_mask_raises (data_object : DataObject) (img : Image Z)
    (offset : Index) (combined_label_dict : gmap string (Image Q))
    (segmented_vessel_dict : gmap string (Image Z))
    (before after : list string) (structure_name : string)
    (outs outs1 outs2 : list DataObject) (fs fs1 fs2 : Files) :
  vesselNameList settings = (before ++ structure_name :: after)%list ->
  for_each_M (optimalThreshold settings)
    (write_vote_structure C settings data_object working_dir
       (Cast_sitkUInt8 (Multiply img 0)) offset combined_label_dict) outs fs
    = (fs1, Ok outs1) ->
  for_each_M before
    (write_vessel_structure C settings data_object working_dir
       (Cast_sitkUInt8 (Multiply img 0)) offset segmented_vessel_dict) outs1 fs1
    = (fs2, Ok outs2) ->
  segmented_vessel_dict !! structure_name = None ->
  write_outputs C settings data_object working_dir img offset combined_label_dict
    segmented_vessel_dict outs fs
  = (fs2, Raise (KeyError structure_name)).
Proof.
  intros Hsplit Hvote Hbefore Hnone. unfold write_outputs.
  rewrite M_bind_unfold, Hvote, Hsplit, for_each_M_app, M_bind_unfold, Hbefore.
  rewrite for_each_M_cons. unfold write_vessel_structure at 1.
  rewrite M_bind_unfold. unfold lift at 1, getitem. by rewrite Hnone.
Qed.
End Written.

(** The output loops of the sample run leave the image of the target as it
    was. *)
Lemma output_loops_write_only_output_files_sample :
  let C := Sample.collaborators Sample.lung_box in
  let combined_label_dict : gmap string (Image Q) :=
    {["WHOLEHEART" := map_voxels (fun _ => (1 # 2)%Q) Sample.img_crop]} in
  let segmented_vessel_dict : gmap string (Image Z) :=
    {["LANTDESCARTERY" := Sample.mask]} in
  let fs := Sample.files (Sample.constant_image 2 2 2 5) in
  fst (write_outputs C Sample.settings Sample.target "/out" Sample.img
         (box_index Sample.crop) combined_label_dict segmented_vessel_dict [] fs)
    !! "/data/ct.nii.gz"
  = fs !! "/data/ct.nii.gz".
Proof.
  intros C combined_label_dict segmented_vessel_dict fs.
  apply (output_loops_write_only_output_files C Sample.settings "/out").
  intros structure_name name Hin Hname.
  assert (Hs : structure_name = "WHOLEHEART" \/ structure_name = "LANTDESCARTERY").
  { destruct Hin as [Hin|Hin]; apply list_elem_of_singleton in Hin; auto. }
  destruct Hs as [-> | ->]; injection Hname as <-; discriminate.
Defined.

(** The vessel mask of the sample run is on file. *)
Lemma returned_objects_are_on_file_sample :
  let C := Sample.collaborators Sample.lung_box in
  let fs := Sample.files (Sample.constant_image 2 2 2 5) in
  let fs' := fst (cardiac_service C Sample.settings [Sample.target] "/out" fs) in
  let object :=
    mkDataObject "FILE" "/out/Auto_LANTDESCARTERY.nii.gz" (Some Sample.target) in
  data_type object = "FILE" /\ is_Some (fs' !! data_path object).
Proof.
  intros C fs fs' object.
  apply (returned_objects_are_on_file C Sample.settings "/out" [Sample.target] fs fs'
           Sample.outputs object).
  - vm_cast_no_check (eq_refl (fs', Ok Sample.outputs)).
  - apply list_elem_of_further, list_elem_of_here.
Defined.

(** The sample run returns one group, that of its target. *)
Lemma service_returns_one_group_per_target_sample :
  let C := Sample.collaborators Sample.lung_box in
  exists groups,
    Forall2
      (fun data_object objects =>
         Forall2 (output_of C Sample.settings data_object "/out")
           (map fst (optimalThreshold Sample.settings)
              ++ vesselNameList Sample.settings)%list
           objects)
      [Sample.target] groups /\
    Sample.outputs = concat groups.
Proof.
  intros C.
  pose (fs := Sample.files (Sample.constant_image 2 2 2 5)).
  pose (fs' := fst (cardiac_service C Sample.settings [Sample.target] "/out" fs)).
  apply (service_returns_one_group_per_target C Sample.settings "/out"
           [Sample.target] fs fs' Sample.outputs).
  vm_cast_no_check (eq_refl (fs', Ok Sample.outputs)).
Defined.

(** The output loops of the sample run on an empty label fusion. *)
Lemma missing_fused_label_raises_sample :
  let C := Sample.collaborators Sample.lung_box in
  write_outputs C Sample.settings Sample.target "/out" Sample.img
    (box_index Sample.crop) ∅ {["LANTDESCARTERY" := Sample.mask]} [] ∅
  = (∅, Raise (KeyError "WHOLEHEART")).
Proof.
  intros C.
  apply (missing_fused_label_raises C Sample.settings "/out" Sample.target Sample.img
           (box_index Sample.crop) ∅ {["LANTDESCARTERY" := Sample.mask]}
           [] [] "WHOLEHEART" (44 # 100)%Q [] [] ∅ ∅); reflexivity.
Defined.

(** The output loops of the sample run on an empty splining result: the
    whole-heart mask is written before the vessel loop raises. *)
Lemma missing_vessel_mask_raises_sample :
  let C := Sample.collaborators Sample.lung_box in
  let combined_label_dict : gmap string (Image Q) :=
    {["WHOLEHEART" := map_voxels (fun _ => (1 # 2)%Q) Sample.img_crop]} in
  let voted :=
    for_each_M (optimalThreshold Sample.settings)
      (write_vote_structure C Sample.settings Sample.target "/out"
         (Cast_sitkUInt8 (Multiply Sample.img 0)) (box_index Sample.crop)
         combined_label_dict) [] ∅ in
  write_outputs C Sample.settings Sample.target "/out" Sample.img
    (box_index Sample.crop) combined_label_dict ∅ [] ∅
  = (fst voted, Raise (KeyError "LANTDESCARTERY")).
Proof.
  intros C combined_label_dict voted.
  apply (missing_vessel_mask_raises C Sample.settings "/out" Sample.target Sample.img
           (box_index Sample.crop) combined_label_dict ∅
           [] [] "LANTDESCARTERY" []
           [mkDataObject "FILE" "/out/Auto_WHOLEHEART.nii.gz" (Some Sample.target)]
           [mkDataObject "FILE" "/out/Auto_WHOLEHEART.nii.gz" (Some Sample.target)]
           ∅ (fst voted) (fst voted)).
  - reflexivity.
  - vm_cast_no_check
      (eq_refl (fst voted,
                Ok [mkDataObject "FILE" "/out/Auto_WHOLEHEART.nii.gz"
                      (Some Sample.target)])).
  - reflexivity.
  - reflexivity.
Defined.

(** The whole-heart file of the sample run. *)
Lemma voted_structure_file_sample :
  let C := Sample.collaborators Sample.lung_box in
  let combined_label_dict : gmap string (Image Q) :=
    {["WHOLEHEART" := map_voxels (fun _ => (1 # 2)%Q) Sample.img_crop]} in
  let segmented_vessel_dict : gmap string (Image Z) :=
    {["LANTDESCARTERY" := Sample.mask]} in
  let fs' :=
    fst (write_outputs C Sample.settings Sample.target "/out" Sample.img
           (box_index Sample.crop) combined_label_dict segmented_vessel_dict [] ∅) in
  exists probability binary_struct name paste_img,
    combined_label_dict !! "WHOLEHEART" = Some probability /\
    process_probability_image C probability (44 # 100)%Q = Ok binary_struct /\
    format C (outputFormat Sample.settings) "WHOLEHEART" = Ok name /\
    Paste (Cast_sitkUInt8 (Multiply Sample.img 0)) binary_struct
      (GetSize binary_struct) (0, 0, 0) (box_index Sample.crop) = Ok paste_img /\
    fs' !! os_path_join "/out" name = Some paste_img.
Proof.
  intros C combined_label_dict segmented_vessel_dict fs'.
  apply (voted_structure_file C Sample.settings "/out" Sample.target Sample.img
           (box_index Sample.crop) combined_label_dict segmented_vessel_dict
           [] [] "WHOLEHEART" (44 # 100)%Q [] Sample.outputs ∅ fs').
  - reflexivity.
  - vm_cast_no_check (eq_refl (fs', Ok Sample.outputs)).
  - intros later name name' Hin Hname Hname'.
    apply list_elem_of_singleton in Hin as ->.
    injection Hname as <-. injection Hname' as <-. discriminate.
Defined.

(** The vessel file of the sample run. *)
Lemma vessel_structure_file_sample :
  let C := Sample.collaborators Sample.lung_box in
  let combined_label_dict : gmap string (Image Q) :=
    {["WHOLEHEART" := map_voxels (fun _ => (1 # 2)%Q) Sample.img_crop]} in
  let segmented_vessel_dict : gmap string (Image Z) :=
    {["LANTDESCARTERY" := Sample.mask]} in
  let fs' :=
    fst (write_outputs C Sample.settings Sample.target "/out" Sample.img
           (box_index Sample.crop) combined_label_dict segmented_vessel_dict [] ∅) in
  exists binary_struct name paste_img,
    segmented_vessel_dict !! "LANTDESCARTERY" = Some binary_struct /\
    format C (outputFormat Sample.settings) "LANTDESCARTERY" = Ok name /\
    Paste (Cast_sitkUInt8 (Multiply Sample.img 0)) binary_struct
      (GetSize binary_struct) (0, 0, 0) (box_index Sample.crop) = Ok paste_img /\
    fs' !! os_path_join "/out" name = Some paste_img.
Proof.
  intros C combined_label_dict segmented_vessel_dict fs'.
  apply (vessel_structure_file C Sample.settings "/out" Sample.target Sample.img
           (box_index Sample.crop) combined_label_dict segmented_vessel_dict
           [] [] "LANTDESCARTERY" [] Sample.outputs ∅ fs').
  - reflexivity.
  - vm_cast_no_check (eq_refl (fs', Ok Sample.outputs)).
  - intros later name name' Hin. by apply elem_of_nil in Hin.
Defined.

(** ** The output files of several targets *)

Section Paths.
Context (C : Collaborators) (settings : Settings).
Variable working_dir : string.

Lemma output_of_path d d' structure_names objects objects' :
  Forall2 (output_of C settings d working_dir) structure_names objects ->
  Forall2 (output_of C settings d' working_dir) structure_names objects' ->
  map data_path objects = map data_path objects'.
Proof.
  intros H. revert objects'.
  induction H as [|structure_name o names os Ho _ IH]; intros objects' H';
    inversion H' as [|? o' ? os' Ho' Hos']; subst; [done|].
  destruct Ho as (name & Hn & ->), Ho' as (name' & Hn' & ->).
  rewrite Hn in Hn'. injection Hn' as <-. cbn. f_equal. by apply IH.
Qed.

(** The output files do not depend on the target.  The paths of the output
    objects of a call are one list of paths, one per structure, repeated
    once per data object: every data object of a call is written to the same
    files, so that the masks of a target replace those of the target before
    it. *)
Theorem targets_share_output_files (data_objects : list DataObject)
    (fs fs' : Files) (output_objects : list DataObject) :
  cardiac_service C settings data_objects working_dir fs = (fs', Ok output_objects) ->
  exists paths,
    length paths
    = length (map fst (optimalThreshold settings) ++ vesselNameList settings)%list /\
    map data_path output_objects = concat (replicate (length data_objects) paths).
Proof.
  unfold cardiac_service. intros H.
  apply service_objects_loop in H as (groups & Hgroups & ->). cbn [app].
  destruct Hgroups as [|d g ds gs Hg Hgs].
  { exists (replicate
              (length (map fst (optimalThreshold settings)
                         ++ vesselNameList settings)%list) "").
    split; [apply length_replicate | done]. }
  exists (map data_path g). split.
  { rewrite length_map. symmetry. by apply (Forall2_length _ _ _ Hg). }
  cbn [length replicate concat].
  rewrite map_app. f_equal.
  induction Hgs as [|d' g' ds' gs' Hg' _ IH]; [done|].
  cbn [length replicate concat]. rewrite map_app. f_equal; [|done].
  by apply (output_of_path d' d _ _ _ Hg' Hg).
Qed.
End Paths.

(** The sample run on two data objects. *)
Lemma targets_share_output_files_sample :
  let C := Sample.collaborators Sample.lung_box in
  let second := mkDataObject "FILE" "/data/ct.nii.gz" (Some Sample.target) in
  let fs := Sample.files (Sample.constant_image 2 2 2 5) in
  let output_objects :=
    [mkDataObject "FILE" "/out/Auto_WHOLEHEART.nii.gz" (Some Sample.target);
     mkDataObject "FILE" "/out/Auto_LANTDESCARTERY.nii.gz" (Some Sample.target);
     mkDataObject "FILE" "/out/Auto_WHOLEHEART.nii.gz" (Some second);
     mkDataObject "FILE" "/out/Auto_LANTDESCARTERY.nii.gz" (Some second)] in
  exists paths,
    length paths
    = length (map fst (optimalThreshold Sample.settings)
                ++ vesselNameList Sample.settings)%list /\
    map data_path output_objects = concat (replicate 2 paths).
Proof.
  intros C second fs output_objects.
  pose (fs' := fst (cardiac_service C Sample.settings [Sample.target; second] "/out" fs)).
  apply (targets_share_output_files C Sample.settings "/out" [Sample.target; second]
           fs fs' output_objects).
  vm_cast_no_check (eq_refl (fs', Ok output_objects)).
Defined.

(** ** From the atlas files to the weighted atlas set *)

Section Prepared.
Context (C : Collaborators) (settings : Settings).
Variable img_crop : Image Z.

(** The registration collaborators and the weight map answer on every
    input. *)
Hypothesis initial_registration_returns :
  forall fixed moving moving_structure,
    is_Ok (initial_registration C fixed moving moving_structure
             (rigidOptions settings) (rigidTrace settings) (initialReg settings))
    = true.
Hypothesis transform_propagation_returns :
  forall fixed moving tfm,
    is_Ok (transform_propagation C fixed moving tfm true sitkLinear) = true.
Hypothesis demons_returns :
  forall fixed moving,
    is_Ok (fast_symmetric_forces_demons_registration C fixed moving
             (resolutionStaging settings) (iterationStaging settings)
             (ncores settings) (deformableTrace settings)) = true.
Hypothesis apply_field_returns :
  forall image field, is_Ok (apply_field C image field true sitkLinear) = true.
Hypothesis compute_weight_map_returns :
  forall fixed atlas_image, is_Ok (compute_weight_map C fixed atlas_image) = true.

(** The guide structure, when one is configured, is among what is read. *)
Hypothesis guide_structure_read :
  forall guide_structure, truthy (guideStructure settings) = Some guide_structure ->
    guide_structure = "CT Image" \/ guide_structure ∈ atlasStructures settings.

Lemma read_atlases_original_complete fs fs' s :
  read_atlases settings fs = (fs', Ok s) ->
  forall a, a ∈ atlasIdList settings -> original_complete settings s a.
Proof.
  intros H a Hin. apply read_atlases_loop in H as (_ & _ & Hread & _).
  destruct (Hread _ Hin) as ((ct & _ & Himg) & Hstructs & _).
  assert (Hs : forall struct, struct ∈ atlasStructures settings ->
                 holds_image s a "Original" struct).
  { intros struct Hstruct. destruct (Hstructs _ Hstruct) as (image & _ & ?).
    by exists image. }
  assert (Hct : holds_image s a "Original" "CT Image").
  { destruct (decide ("CT Image" ∈ atlasStructures settings)) as [Hc|Hc]; [by apply Hs|].
    exists ct. by apply Himg. }
  split; [done|]. split; [done|].
  intros g Hg. destruct (guide_structure_read g Hg) as [->|Hg']; [done | by apply Hs].
Qed.

Lemma deformable_register_image s s' a :
  deformable_register C settings img_crop a s = Ok s' ->
  holds_image s' a "DIR" "CT Image".
Proof.
  unfold deformable_register. intros H.
  apply bind_Ok in H as (s1 & H1 & H).
  apply bind_Ok in H as (atlas_image & _ & H).
  apply bind_Ok in H as ([deform_image field] & Hreg & H).
  apply bind_Ok in H as (s2 & H2 & H).
  apply bind_Ok in H as (s3 & H3 & H).
  apply (deformable_propagate_holds _ _ _ _ _ _ _ _ _ H).
  exists deform_image.
  rewrite (get_entry_set_entry _ _ _ _ _ _ _ _ _ H3), decide_False
    by (by intros (_ & _ & [=])).
  rewrite (get_entry_set_entry _ _ _ _ _ _ _ _ _ H2). by rewrite decide_True.
Qed.

Lemma deformable_stage_image ids s s' :
  for_each ids (deformable_register C settings img_crop) s = Ok s' ->
  forall a, a ∈ ids -> holds_image s' a "DIR" "CT Image".
Proof.
  revert s'. induction ids as [|x l IH] using rev_ind; intros s' H a Hin.
  { by apply elem_of_nil in Hin. }
  rewrite for_each_app in H. apply bind_Ok in H as (s1 & H1 & Hx).
  cbn in Hx. apply bind_Ok in Hx as (s2 & Hx & [= ->]).
  destruct (decide (a = x)) as [->|Hne]; [by apply (deformable_register_image s1)|].
  apply elem_of_app in Hin as [Hin|Hin]; [|by apply list_elem_of_singleton in Hin].
  destruct (IH _ H1 _ Hin) as [image Himage]. exists image.
  apply deformable_register_spec in Hx as [_ Hframe]. rewrite Hframe; [done | by left].
Qed.

Lemma weight_maps_Ok ids s :
  (forall a, a ∈ ids -> holds_image s a "DIR" "CT Image") ->
  exists s', for_each ids (weight_map_atlas C img_crop) s = Ok s'.
Proof.
  revert s. induction ids as [|x l IH]; intros s Hdir; cbn; [eauto|].
  destruct (Hdir x) as [image Hi]; [apply list_elem_of_here|].
  destruct (is_Ok_true _ (compute_weight_map_returns img_crop image)) as [w Hw].
  destruct (set_entry_Ok s x "DIR" "Weight Map" (EWeight w)) as (s1 & H1 & _).
  { apply (holds_image_has_stage _ _ _ "CT Image"). by exists image. }
  assert (Hx : weight_map_atlas C img_crop x s = Ok s1).
  { unfold weight_map_atlas. rewrite Hi. cbn. rewrite Hw. cbn. exact H1. }
  rewrite Hx. cbn. apply IH. intros a Hin.
  destruct (Hdir a) as [image' Hi']; [by apply list_elem_of_further|].
  exists image'. rewrite (weight_map_atlas_spec C img_crop _ _ _ Hx); [done|].
  right. by intros [=].
Qed.

(** From the files to the weighted atlas set.  When the image file and
    every structure file of every atlas of [atlasIdList] is in the store, the
    registration collaborators and the weight map answer on every input, and
    a configured guide structure is among what is read, then the reading of
    the atlases, the two registration loops and the weight-map loop return one
    after the other: what each loop stores is what the next one looks up, so
    that no dictionary access of these loops raises. *)
Theorem atlas_stages_return (fs : Files) :
  (forall atlas_id, atlas_id ∈ atlasIdList settings ->
     atlas_files_present settings fs atlas_id) ->
  exists atlas_set registered weighted,
    read_atlases settings fs = (fs, Ok atlas_set) /\
    register_atlases C settings img_crop atlas_set = Ok registered /\
    for_each (atlasIdList settings) (weight_map_atlas C img_crop) registered
      = Ok weighted.
Proof.
  intros Hfiles.
  assert (Hread : exists s, read_atlases settings fs = (fs, Ok s)).
  { destruct (read_atlases_outcome settings (atlasIdList settings) ∅ fs)
      as [(s & Hloop & _)|(_ & a & Hin & Hmiss)]; [by exists s|].
    by destruct (missing_not_present settings fs a Hmiss (Hfiles a Hin)). }
  destruct Hread as [s Hread].
  pose proof (read_atlases_original_complete _ _ _ Hread) as Horig.
  destruct (rigid_stage_Ok C settings img_crop initial_registration_returns
              transform_propagation_returns _ _ Horig) as [s1 Hrigid].
  destruct (deformable_stage_Ok C settings img_crop demons_returns apply_field_returns
              (atlasIdList settings) s1) as [s2 Hdeform].
  { intros a Hin. split.
    - by apply (rigid_stage_image _ _ _ _ _ _ Hrigid).
    - intros struct Hstruct. apply rigid_stage in Hrigid as [Hdone _].
      destruct (Hdone _ Hin) as (ai & ast & ri & tfm & _ & Hd).
      destruct (Hd _ Hstruct) as (orig & p & _ & _ & Hp). by exists p. }
  destruct (weight_maps_Ok (atlasIdList settings) s2) as [s3 Hweights].
  { by apply (deformable_stage_image _ s1). }
  exists s, s2, s3. split; [done|]. split; [|done].
  unfold register_atlases. rewrite Hrigid. exact Hdeform.
Qed.
End Prepared.

(** The sample run with the steady stand-ins. *)
Lemma atlas_stages_return_sample :
  let C := Sample.steady_collaborators Sample.lung_box in
  let fs := Sample.files (Sample.constant_image 2 2 2 5) in
  exists atlas_set registered weighted,
    read_atlases Sample.settings fs = (fs, Ok atlas_set) /\
    register_atlases C Sample.settings Sample.img_crop atlas_set = Ok registered /\
    for_each (atlasIdList Sample.settings) (weight_map_atlas C Sample.img_crop)
      registered = Ok weighted.
Proof.
  intros C fs.
  apply (atlas_stages_return C Sample.settings Sample.img_crop).
  - intros; reflexivity.
  - intros; reflexivity.
  - intros; reflexivity.
  - intros; reflexivity.
  - intros; reflexivity.
  - intros guide_structure Hguide. discriminate Hguide.
  - exact sample_atlas_files_present.
Defined.
